(** * MultiAgent_ToDO: the task agents and the task store, embedded and verified

    The development follows the two modules of the program:
    - [agents.py]: [PlannerAgent], [SchedulerAgent], [ReminderAgent];
    - [storage.py]: [TaskStorage].

    Python objects are modelled the way the program uses them.  A task is a
    [dict]; dicts are mutable and shared, so they live in a heap and are
    passed around as locations.  The lists the program builds
    ([self.tasks.copy()], list comprehensions, [reminders]) are fresh objects
    that are never mutated through a second name, so a list is a value: a
    list of locations.  Effects (the heap, the store, its file, the clock,
    the uuid source, stdout, exceptions) are threaded by a small state and
    exception monad [py].

    The file has three parts: the embedding of the program, the vocabulary
    of the specification with the example worlds, and the lemmas and
    theorems. *)

From Stdlib Require Import ZArith String Ascii List Lia.
From stdpp Require Import base numbers option list strings gmap pretty sorting.

Local Open Scope string_scope.
Local Open Scope list_scope.
Local Open Scope Z_scope.

(** ** Dates and durations

    A naive [datetime] is the number of microseconds since
    0001-01-01T00:00:00, which is [datetime.min]; a [timedelta] is a number
    of microseconds.  The program stores dates as ISO strings ([isoformat])
    and parses them back ([fromisoformat]); the two are inverse on naive
    datetimes, so a stored date is its datetime.  Datetimes range from
    [min] to [max] (years 1 to 9999): arithmetic that leaves the range
    raises [OverflowError] ([sub_timedelta]).  The difference of two
    datetimes is a [timedelta], whose range (days of up to nine digits)
    holds every such difference. *)

Module Time.

Definition datetime := Z.
Definition timedelta := Z.

Definition second : timedelta := 1000000.
Definition minutes (n : Z) : timedelta := n * 60 * second.
Definition hours (n : Z) : timedelta := n * 3600 * second.
Definition day : timedelta := 86400 * second.

(** [datetime.min] and [datetime.max]: 0001-01-01T00:00:00 and
    9999-12-31T23:59:59.999999, the last microsecond of day 3652059. *)
Definition min : datetime := 0.
Definition max : datetime := 3652059 * day - 1.

Definition in_range (dt : datetime) : bool :=
  (min <=? dt) && (dt <=? max).

(** [dt - td] on a datetime and a timedelta: the datetime, or nothing when
    the result is out of range and Python raises [OverflowError]. *)
Definition sub_timedelta (dt : datetime) (td : timedelta)
  : option datetime :=
  if in_range (dt - td) then Some (dt - td) else None.

(** [timedelta.days]: the normalised day count, rounded towards minus
    infinity. *)
Definition days (td : timedelta) : Z := td `div` day.

(** [timedelta.seconds] and [timedelta.microseconds] of the normalised
    value. *)
Definition seconds (td : timedelta) : Z := (td `mod` day) `div` second.
Definition microseconds (td : timedelta) : Z := (td `mod` day) `mod` second.

(** [datetime.date()]: the calendar day, as the number of whole days since
    the start of the calendar; two datetimes have the same date when they
    have the same day number. *)
Definition date (dt : datetime) : Z := dt `div` day.

(** [timedelta.total_seconds() < 0]: the float has the sign of the
    microsecond count. *)
Definition negative (td : timedelta) : bool := td <? 0.

(** ["%02d"] and ["%06d"] on a natural number. *)
Fixpoint zeros (n : nat) : string :=
  match n with
  | O => ""
  | S n' => "0" +:+ zeros n'
  end.

Definition pad (width : nat) (n : Z) : string :=
  let s := pretty n in
  zeros (width - String.length s) +:+ s.

(** [timedelta.__str__]. *)
Definition str (td : timedelta) : string :=
  let ss := seconds td `mod` 60 in
  let mm := (seconds td `div` 60) `mod` 60 in
  let hh := (seconds td `div` 60) `div` 60 in
  let s := pretty hh +:+ ":" +:+ pad 2 mm +:+ ":" +:+ pad 2 ss in
  let s :=
    if days td =? 0 then s
    else pretty (days td) +:+ " day"
         +:+ (if Z.abs (days td) =? 1 then "" else "s") +:+ ", " +:+ s in
  if microseconds td =? 0 then s
  else s +:+ "." +:+ pad 6 (microseconds td).

End Time.

(** ** Strings

    A [str] is held as the bytes of its UTF-8 encoding, which is what a
    string literal of this file denotes.  [len] counts characters (code
    points), not bytes; [lower] acts on the ASCII letters. *)

Module Str.

(** A byte of the form 10xxxxxx continues a character; every other byte
    starts one. *)
Definition is_continuation (c : ascii) : bool :=
  let n := nat_of_ascii c in
  ((128 <=? n) && (n <? 192))%nat.

(** [len(s)]: the number of characters of [s]. *)
Fixpoint len (s : string) : nat :=
  match s with
  | EmptyString => 0%nat
  | String c s' => ((if is_continuation c then 0 else 1) + len s')%nat
  end.

Definition lower_char (c : ascii) : ascii :=
  let n := nat_of_ascii c in
  if ((65 <=? n) && (n <=? 90))%nat then ascii_of_nat (n + 32) else c.

Fixpoint lower (s : string) : string :=
  match s with
  | EmptyString => EmptyString
  | String c s' => String (lower_char c) (lower s')
  end.

(** [s.startswith(p)]. *)
Fixpoint startswith (s p : string) : bool :=
  match p, s with
  | EmptyString, _ => true
  | String _ _, EmptyString => false
  | String c p', String d s' => bool_decide (c = d) && startswith s' p'
  end.

(** [p in s] on strings: [p] occurs in [s] as a contiguous block. *)
Fixpoint contains (p s : string) : bool :=
  startswith s p ||
  match s with
  | EmptyString => false
  | String _ s' => contains p s'
  end.

(** The relation [contains] decides. *)
Definition occurs (p s : string) : Prop :=
  ∃ before after, s = before +:+ p +:+ after.

End Str.

(** ** Task records *)

Definition loc := nat.

(** A task dict.  The first nine keys are written by
    [PlannerAgent.create_task]; the program reads [tags] with a default
    ([task.get('tags', [])]) and the remaining keys are added later, so they
    are optional.  The tags are a list object of their own, which
    [dict.copy()] shares between the original and the copy; the program
    never mutates a tags list in place, and the record holds it by value. *)
Record task := Task {
  id : string;
  title : string;
  description : string;
  priority : string;
  due_date : Time.datetime;
  created_date : Time.datetime;
  status : string;
  estimated_duration : Z;
  tags : option (list string);
  scheduled_time : option Time.datetime;
  preparation_time : option Z;
  buffer_time : option Z;
  optimization_score : option Z;
  reminder_type : option string;
  completed_date : option Time.datetime;
}.

Global Instance task_eq_dec : EqDecision task.
Proof. solve_decision. Defined.

(** [task[key] = value] for the keys the program assigns. *)
Definition set_scheduled_time (v : Time.datetime) (t : task) : task :=
  Task (id t) (title t) (description t) (priority t) (due_date t)
       (created_date t) (status t) (estimated_duration t) (tags t)
       (Some v) (preparation_time t) (buffer_time t)
       (optimization_score t) (reminder_type t) (completed_date t).

Definition set_preparation_time (v : Z) (t : task) : task :=
  Task (id t) (title t) (description t) (priority t) (due_date t)
       (created_date t) (status t) (estimated_duration t) (tags t)
       (scheduled_time t) (Some v) (buffer_time t)
       (optimization_score t) (reminder_type t) (completed_date t).

Definition set_buffer_time (v : Z) (t : task) : task :=
  Task (id t) (title t) (description t) (priority t) (due_date t)
       (created_date t) (status t) (estimated_duration t) (tags t)
       (scheduled_time t) (preparation_time t) (Some v)
       (optimization_score t) (reminder_type t) (completed_date t).

Definition set_optimization_score (v : Z) (t : task) : task :=
  Task (id t) (title t) (description t) (priority t) (due_date t)
       (created_date t) (status t) (estimated_duration t) (tags t)
       (scheduled_time t) (preparation_time t) (buffer_time t)
       (Some v) (reminder_type t) (completed_date t).

Definition set_reminder_type (v : string) (t : task) : task :=
  Task (id t) (title t) (description t) (priority t) (due_date t)
       (created_date t) (status t) (estimated_duration t) (tags t)
       (scheduled_time t) (preparation_time t) (buffer_time t)
       (optimization_score t) (Some v) (completed_date t).


Definition set_status (v : string) (t : task) : task :=
  Task (id t) (title t) (description t) (priority t) (due_date t)
       (created_date t) v (estimated_duration t) (tags t)
       (scheduled_time t) (preparation_time t) (buffer_time t)
       (optimization_score t) (reminder_type t) (completed_date t).

(** ** The interpreter state

    [heap] holds the dict objects, [next] is the next unused location.
    [self_tasks] is the attribute [TaskStorage.tasks] of the one store,
    [file] the contents of its [filename] (absent until first written) and
    [writable] tells whether opening it for writing succeeds; when it does
    not, [oserror] is the [errno] and the message of the [OSError] that
    [open] raises.  [clock]
    lists the readings [datetime.now()] returns, [ticks] counts those
    consumed; [uuids] and [draws] do the same for [uuid.uuid4()].  [stdout]
    collects what [print] writes. *)
Record world := World {
  heap : gmap loc task;
  next : loc;
  self_tasks : list loc;
  file : option (list task);
  writable : bool;
  clock : nat → Time.datetime;
  ticks : nat;
  uuids : nat → string;
  draws : nat;
  stdout : list string;
  oserror : Z * string;
}.

Definition with_heap (h : gmap loc task) (n : loc) (w : world) : world :=
  World h n (self_tasks w) (file w) (writable w)
        (clock w) (ticks w) (uuids w) (draws w) (stdout w) (oserror w).

Definition with_self_tasks (l : list loc) (w : world) : world :=
  World (heap w) (next w) l (file w) (writable w)
        (clock w) (ticks w) (uuids w) (draws w) (stdout w) (oserror w).

Definition with_file (f : option (list task)) (w : world) : world :=
  World (heap w) (next w) (self_tasks w) f (writable w)
        (clock w) (ticks w) (uuids w) (draws w) (stdout w) (oserror w).

Definition with_ticks (n : nat) (w : world) : world :=
  World (heap w) (next w) (self_tasks w) (file w) (writable w)
        (clock w) n (uuids w) (draws w) (stdout w) (oserror w).

Definition with_draws (n : nat) (w : world) : world :=
  World (heap w) (next w) (self_tasks w) (file w) (writable w)
        (clock w) (ticks w) (uuids w) n (stdout w) (oserror w).

Definition with_stdout (out : list string) (w : world) : world :=
  World (heap w) (next w) (self_tasks w) (file w) (writable w)
        (clock w) (ticks w) (uuids w) (draws w) out (oserror w).

(** ** Exceptions and the monad *)

(** [KeyError]: a dict lookup with a missing key.  [IndexError]: a list
    assignment out of range.  [OSError]: the file cannot be opened; the
    exception carries the [errno], its message and the file name.
    [OverflowError]: a date out of range.  [SystemError] stands for the use
    of a location that holds no object; Python references always denote
    live objects, and the theorems assume it ([live]). *)
Inductive exn :=
  | KeyError (key : string)
  | IndexError
  | OSError (errno : Z) (strerror filename : string)
  | OverflowError
  | SystemError.

(** [str(e)].  The [repr] of a key or of a file name is the text between
    single quotes, for a text that needs no escapes. *)
Definition exn_str (e : exn) : string :=
  match e with
  | KeyError key => "'" +:+ key +:+ "'"
  | IndexError => "list assignment index out of range"
  | OSError errno strerror filename =>
      "[Errno " +:+ pretty errno +:+ "] " +:+ strerror +:+ ": '"
      +:+ filename +:+ "'"
  | OverflowError => "date value out of range"
  | SystemError => "SystemError"
  end.

Inductive outcome (A : Type) :=
  | Return (a : A)
  | Raise (e : exn).
Arguments Return {A} a.
Arguments Raise {A} e.

Definition py (A : Type) : Type := world → outcome A * world.

Global Instance py_ret : MRet py := λ A a w, (Return a, w).

Global Instance py_bind : MBind py := λ A B k m w,
  match m w with
  | (Return a, w') => k a w'
  | (Raise e, w') => (Raise e, w')
  end.

Definition raise {A} (e : exn) : py A := λ w, (Raise e, w).

(** [try: body except Exception as e: handler(e)]. *)
Definition try_except {A} (body : py A) (handler : exn → py A) : py A :=
  λ w, match body w with
       | (Return a, w') => (Return a, w')
       | (Raise e, w') => handler e w'
       end.

(** *** Primitive operations *)

(** Reading a dict object. *)
Definition deref (l : loc) : py task := λ w,
  match heap w !! l with
  | Some t => (Return t, w)
  | None => (Raise SystemError, w)
  end.

(** [task[key] = value]: [f] is the assignment on the dict's contents. *)
Definition setitem (l : loc) (f : task → task) : py unit := λ w,
  match heap w !! l with
  | Some t => (Return (), with_heap (<[l := f t]> (heap w)) (next w) w)
  | None => (Raise SystemError, w)
  end.

(** A new dict object: a dict display or [dict.copy()]. *)
Definition alloc (t : task) : py loc := λ w,
  (Return (next w), with_heap (<[next w := t]> (heap w)) (S (next w)) w).

Definition datetime_now : py Time.datetime := λ w,
  (Return (clock w (ticks w)), with_ticks (S (ticks w)) w).

Definition uuid4 : py string := λ w,
  (Return (uuids w (draws w)), with_draws (S (draws w)) w).

Definition print (line : string) : py unit := λ w,
  (Return (), with_stdout (stdout w ++ [line]) w).

(** [for x in xs: body(x)]. *)
Fixpoint for_each {A} (xs : list A) (body : A → py unit) : py unit :=
  match xs with
  | [] => mret ()
  | x :: xs' => body x ;; for_each xs' body
  end.

(** [[x for x in xs if cond(x)]]. *)
Fixpoint comprehension_if {A} (xs : list A) (cond : A → py bool)
  : py (list A) :=
  match xs with
  | [] => mret []
  | x :: xs' =>
      b ← cond x;
      rest ← comprehension_if xs' cond;
      mret (if b : bool then x :: rest else rest)
  end.

(** [x in xs] on a list of dicts: identity or equality of the contents. *)
Fixpoint list_contains (xs : list loc) (x : loc) : py bool :=
  match xs with
  | [] => mret false
  | y :: xs' =>
      if bool_decide (y = x) then mret true
      else
        ty ← deref y;
        tx ← deref x;
        if bool_decide (ty = tx) then mret true else list_contains xs' x
  end.

(** ** agents.py *)

Module PlannerAgent.

Definition _estimate_duration (title description : string) : Z :=
  let content_length :=
    Z.of_nat (Str.len title) + Z.of_nat (Str.len description) in
  if content_length <? 50 then 30
  else if content_length <? 100 then 60
  else 120.

Definition common_tags : list string :=
  ["meeting"; "call"; "email"; "report"; "review"; "urgent"; "important"].

Definition _extract_tags (title description : string) : list string :=
  let content := Str.lower (title +:+ " " +:+ description) in
  let found_tags := filter (λ tag, Str.contains tag content) common_tags in
  found_tags.

Definition create_task (title description priority : string)
    (due_date : Time.datetime) : py loc :=
  uid ← uuid4;
  now ← datetime_now;
  alloc (Task uid title description priority due_date now "pending"
              (_estimate_duration title description)
              (Some (_extract_tags title description))
              None None None None None None).

End PlannerAgent.

Module SchedulerAgent.

(** [dt - td], raising [OverflowError] out of range. *)
Definition datetime_sub (dt : Time.datetime) (td : Time.timedelta)
  : py Time.datetime :=
  match Time.sub_timedelta dt td with
  | Some v => mret v
  | None => raise OverflowError
  end.

Definition _calculate_optimal_time (task : loc) : py Time.datetime :=
  t ← deref task;
  let due_date := due_date t in
  optimal_time ←
    (if bool_decide (priority t = "High") then
       datetime_sub due_date (Time.hours 2)
     else if bool_decide (priority t = "Medium") then
       datetime_sub due_date (Time.hours 1)
     else datetime_sub due_date (Time.minutes 30));
  mret optimal_time.

Definition _calculate_prep_time (task : loc) : py Z :=
  t ← deref task;
  if bool_decide ("meeting" ∈ default [] (tags t)) then mret 15
  else if bool_decide ("report" ∈ default [] (tags t)) then mret 30
  else mret 5.

Definition schedule_task (task : loc) : py loc :=
  optimal_time ← _calculate_optimal_time task;
  setitem task (set_scheduled_time optimal_time);;
  prep_time ← _calculate_prep_time task;
  setitem task (set_preparation_time prep_time);;
  setitem task (set_buffer_time 15);;
  mret task.

Definition priority_scores : gmap string Z :=
  {[ "High" := 3; "Medium" := 2; "Low" := 1 ]}.

(** [priority_scores[key]]. *)
Definition priority_scores_getitem (key : string) : py Z :=
  match priority_scores !! key with
  | Some v => mret v
  | None => raise (KeyError key)
  end.

(** [list.sort(key=..., reverse=True)] on the keys computed beforehand:
    a stable sort, larger keys first; of two items with the same key the
    one that came first stays first. *)
Fixpoint insert_desc {A} (x : Z * A) (sorted : list (Z * A))
  : list (Z * A) :=
  match sorted with
  | [] => [x]
  | y :: sorted' =>
      if x.1 <? y.1 then y :: insert_desc x sorted'
      else x :: y :: sorted'
  end.

Fixpoint sort_desc {A} (l : list (Z * A)) : list (Z * A) :=
  match l with
  | [] => []
  | x :: l' => insert_desc x (sort_desc l')
  end.

(** The key function: [lambda x: x.get('optimization_score', 0)]. *)
Fixpoint decorate (l : list loc) : py (list (Z * loc)) :=
  match l with
  | [] => mret []
  | x :: l' =>
      t ← deref x;
      rest ← decorate l';
      mret ((default 0 (optimization_score t), x) :: rest)
  end.

Definition score_task (task : loc) : py unit :=
  t ← deref task;
  let due_date := due_date t in
  now ← datetime_now;
  let days_until_due := Time.days (due_date - now) in
  let urgency_score := Z.max 1 (5 - days_until_due) in
  priority_score ← priority_scores_getitem (priority t);
  setitem task (set_optimization_score (urgency_score + priority_score)).

(** The body of [optimize_schedule], returning next to the function's
    result the final value of its local list [pending_tasks]. *)
Definition optimize_schedule_locals (tasks : list loc)
  : py (list loc * list loc) :=
  pending_tasks ← comprehension_if tasks
    (λ t, d ← deref t; mret (bool_decide (status d = "pending")));
  for_each pending_tasks score_task;;
  keyed ← decorate pending_tasks;
  let pending_tasks := (sort_desc keyed).*2 in
  mret (pending_tasks, tasks).

Definition optimize_schedule (tasks : list loc) : py (list loc) :=
  locals ← optimize_schedule_locals tasks;
  mret locals.2.

End SchedulerAgent.

Module ReminderAgent.

Definition reminder_thresholds : gmap string (list Time.timedelta) :=
  {[ "High" := [Time.hours 2; Time.hours 1; Time.minutes 30];
     "Medium" := [Time.hours 1; Time.minutes 30];
     "Low" := [Time.minutes 30] ]}.

Definition overdue : string := "overdue".

(** [f"due_in_{threshold}"]. *)
Definition due_in (threshold : Time.timedelta) : string :=
  "due_in_" +:+ Time.str threshold.

(** The inner loop [for threshold in thresholds], left at the first
    threshold that matches; [reminders] is the list built so far. *)
Fixpoint scan_thresholds (task : loc) (time_until_due : Time.timedelta)
    (reminders : list loc) (thresholds : list Time.timedelta)
  : py (list loc) :=
  match thresholds with
  | [] => mret reminders
  | threshold :: thresholds' =>
      if time_until_due <=? threshold then
        setitem task (set_reminder_type (due_in threshold));;
        seen ← list_contains reminders task;
        mret (if seen : bool then reminders else (reminders ++ [task]))
      else scan_thresholds task time_until_due reminders thresholds'
  end.

(** One round of the outer loop. *)
Definition check_task (current_time : Time.datetime)
    (reminders : list loc) (task : loc) : py (list loc) :=
  t ← deref task;
  if bool_decide (status t = "completed") then mret reminders
  else
    let time_until_due := due_date t - current_time in
    if Time.negative time_until_due then
      setitem task (set_reminder_type overdue);;
      mret (reminders ++ [task])
    else
      let thresholds :=
        default [Time.minutes 30] (reminder_thresholds !! priority t) in
      scan_thresholds task time_until_due reminders thresholds.

Fixpoint check_tasks (current_time : Time.datetime)
    (reminders : list loc) (tasks : list loc) : py (list loc) :=
  match tasks with
  | [] => mret reminders
  | task :: tasks' =>
      reminders' ← check_task current_time reminders task;
      check_tasks current_time reminders' tasks'
  end.

Definition check_reminders (tasks : list loc) : py (list loc) :=
  current_time ← datetime_now;
  check_tasks current_time [] tasks.

(** The dict [get_daily_summary] returns. *)
Record daily_summary := DailySummary {
  total_today : Z;
  high_priority : Z;
  tasks : list loc;
}.

(** The loop of [get_daily_summary]; [today_tasks] is the list built so
    far. *)
Fixpoint today_loop (today : Z) (today_tasks : list loc)
    (tasks : list loc) : py (list loc) :=
  match tasks with
  | [] => mret today_tasks
  | task :: tasks' =>
      t ← deref task;
      let task_date := Time.date (due_date t) in
      if bool_decide (task_date = today)
         && bool_decide (status t = "pending")
      then today_loop today (today_tasks ++ [task]) tasks'
      else today_loop today today_tasks tasks'
  end.

Definition get_daily_summary (tasks : list loc) : py daily_summary :=
  now ← datetime_now;
  let today := Time.date now in
  today_tasks ← today_loop today [] tasks;
  high ← comprehension_if today_tasks
    (λ t, d ← deref t; mret (bool_decide (priority d = "High")));
  mret (DailySummary (Z.of_nat (length today_tasks))
                     (Z.of_nat (length high)) today_tasks).

End ReminderAgent.

(** ** storage.py *)

Module TaskStorage.

(** [self.tasks]. *)
Definition tasks_get : py (list loc) := λ w,
  (Return (self_tasks w), w).

(** [self.tasks = l]. *)
Definition tasks_set (l : list loc) : py unit := λ w,
  (Return (), with_self_tasks l w).

(** [self.tasks.append(task)]. *)
Definition tasks_append (task : loc) : py unit := λ w,
  (Return (), with_self_tasks (self_tasks w ++ [task]) w).

(** [self.tasks[i] = task]. *)
Definition tasks_setitem (i : nat) (task : loc) : py unit := λ w,
  if bool_decide (i < length (self_tasks w))%nat
  then (Return (), with_self_tasks (<[i := task]> (self_tasks w)) w)
  else (Raise IndexError, w).

(** [json.dump(self.tasks, f, ...)]: the contents of the stored dicts. *)
Fixpoint json_dump (l : list loc) : py (list task) :=
  match l with
  | [] => mret []
  | x :: l' =>
      t ← deref x;
      rest ← json_dump l';
      mret (t :: rest)
  end.

(** [self.filename]: the default of [__init__], which app.py takes. *)
Definition filename : string := "tasks.json".

(** [open(self.filename, 'w')]. *)
Definition open_w : py unit := λ w,
  if writable w then (Return (), w)
  else (Raise (OSError (oserror w).1 (oserror w).2 filename), w).

Definition write (contents : list task) : py unit := λ w,
  (Return (), with_file (Some contents) w).

Definition _save_tasks : py unit :=
  try_except
    (open_w;;
     tasks ← tasks_get;
     contents ← json_dump tasks;
     write contents)
    (λ e, print ("Error saving tasks: " +:+ exn_str e)).

Definition add_task (task : loc) : py bool :=
  try_except
    (tasks_append task;;
     _save_tasks;;
     mret true)
    (λ e, print ("Error adding task: " +:+ exn_str e);; mret false).

(** [self.tasks.copy()]: a new list of the same objects. *)
Definition get_all_tasks : py (list loc) :=
  tasks ← tasks_get;
  mret tasks.

(** The loop of [get_task_by_id] over the remaining tasks. *)
Fixpoint find_copy (task_id : string) (tasks : list loc)
  : py (option loc) :=
  match tasks with
  | [] => mret None
  | task :: tasks' =>
      t ← deref task;
      if bool_decide (id t = task_id) then
        copy ← alloc t;
        mret (Some copy)
      else find_copy task_id tasks'
  end.

Definition get_task_by_id (task_id : string) : py (option loc) :=
  tasks ← tasks_get;
  find_copy task_id tasks.

(** The loop of [update_task]: [i] is the index [enumerate] has reached. *)
Fixpoint replace_first (task_id : string) (updated_task : loc)
    (i : nat) (tasks : list loc) : py bool :=
  match tasks with
  | [] => mret false
  | task :: tasks' =>
      t ← deref task;
      if bool_decide (id t = task_id) then
        tasks_setitem i updated_task;;
        _save_tasks;;
        mret true
      else replace_first task_id updated_task (S i) tasks'
  end.

Definition update_task (task_id : string) (updated_task : loc) : py bool :=
  try_except
    (tasks ← tasks_get;
     replace_first task_id updated_task 0 tasks)
    (λ e, print ("Error updating task: " +:+ exn_str e);; mret false).

Definition delete_task (task_id : string) : py bool :=
  try_except
    (tasks ← tasks_get;
     kept ← comprehension_if tasks
       (λ task, t ← deref task; mret (bool_decide (id t ≠ task_id)));
     tasks_set kept;;
     _save_tasks;;
     mret true)
    (λ e, print ("Error deleting task: " +:+ exn_str e);; mret false).

(** [os.path.exists(self.filename)]. *)
Definition path_exists : py bool := λ w,
  (Return (bool_decide (is_Some (file w))), w).

(** Reading [self.filename], as [os.path.getsize] does for its size: the
    contents, or [FileNotFoundError] when there is no file. *)
Definition open_r : py (list task) := λ w,
  match file w with
  | Some contents => (Return contents, w)
  | None => (Raise (OSError 2 "No such file or directory" filename), w)
  end.

Definition get_tasks_by_status (status' : string) : py (list loc) :=
  tasks ← tasks_get;
  comprehension_if tasks
    (λ task, t ← deref task; mret (bool_decide (status t = status'))).

Definition get_tasks_by_priority (priority' : string) : py (list loc) :=
  tasks ← tasks_get;
  comprehension_if tasks
    (λ task, t ← deref task; mret (bool_decide (priority t = priority'))).

(** The loop of [get_overdue_tasks]; [overdue] is the list built so far. *)
Fixpoint overdue_loop (current_time : Time.datetime) (overdue : list loc)
    (tasks : list loc) : py (list loc) :=
  match tasks with
  | [] => mret overdue
  | task :: tasks' =>
      t ← deref task;
      if bool_decide (status t ≠ "completed") then
        if bool_decide (due_date t < current_time)
        then overdue_loop current_time (overdue ++ [task]) tasks'
        else overdue_loop current_time overdue tasks'
      else overdue_loop current_time overdue tasks'
  end.

Definition get_overdue_tasks : py (list loc) :=
  current_time ← datetime_now;
  tasks ← tasks_get;
  overdue_loop current_time [] tasks.

(** The dict [get_stats] returns. *)
Record stats := Stats {
  total_tasks : Z;
  completed_tasks : Z;
  pending_tasks : Z;
  priority_counts : gmap string Z;
  file_size : Z;
}.

(** The loop of [get_stats]:
    [priority_counts[task['priority']] += 1] for the records that are not
    completed. *)
Fixpoint count_priorities (priority_counts : gmap string Z)
    (tasks : list loc) : py (gmap string Z) :=
  match tasks with
  | [] => mret priority_counts
  | task :: tasks' =>
      t ← deref task;
      if bool_decide (status t ≠ "completed") then
        match priority_counts !! priority t with
        | Some n =>
            count_priorities (<[priority t := n + 1]> priority_counts) tasks'
        | None => raise (KeyError (priority t))
        end
      else count_priorities priority_counts tasks'
  end.

Section stats.

(** [os.path.getsize]: the number of bytes of the text [json.dump] writes
    for the given contents. *)
Variable json_size : list task → Z.

Definition get_stats : py stats :=
  tasks ← tasks_get;
  let total_tasks := Z.of_nat (length tasks) in
  completed ← comprehension_if tasks
    (λ task, t ← deref task; mret (bool_decide (status t = "completed")));
  let completed_tasks := Z.of_nat (length completed) in
  let pending_tasks := total_tasks - completed_tasks in
  tasks ← tasks_get;
  priority_counts ← count_priorities
    {[ "High" := 0; "Medium" := 0; "Low" := 0 ]} tasks;
  found ← path_exists;
  size ← (if found : bool
          then contents ← open_r; mret (json_size contents)
          else mret 0);
  mret (Stats total_tasks completed_tasks pending_tasks
              priority_counts size).

End stats.

End TaskStorage.

(** ** app.py

    The callbacks of the page, as far as they act on the store and the
    agents; the widgets, the messages shown and the session log, with the
    readings of the clock it takes for its entries, are left out. *)

Module App.

Import PlannerAgent SchedulerAgent ReminderAgent TaskStorage.

(** The form "Add New Task", submitted. *)
Definition add_task_submit (task_title task_desc priority : string)
    (due_datetime : Time.datetime) : py unit :=
  if bool_decide (task_title ≠ "") then
    task ← create_task task_title task_desc priority due_datetime;
    scheduled_task ← schedule_task task;
    add_task scheduled_task;;
    mret ()
  else mret ().

(** The button "Check Reminders". *)
Definition check_reminders_button : py (list loc) :=
  tasks ← get_all_tasks;
  check_reminders tasks.

(** The button "Auto-Organize". *)
Definition auto_organize : py unit :=
  tasks ← get_all_tasks;
  organized_tasks ← optimize_schedule tasks;
  for_each organized_tasks
    (λ task, t ← deref task; update_task (id t) task;; mret ()).


End App.

(** * Vocabulary of the specification

    The notions the statements below are written in, followed by the
    records and worlds the examples run in. *)

Section vocabulary.

Import PlannerAgent SchedulerAgent ReminderAgent TaskStorage.

(** ** Objects *)

(** An object is live when its location holds a dict. *)
Definition live (w : world) (l : loc) : Prop := is_Some (heap w !! l).

(** The contents of the dicts a list refers to. *)
Definition contents (h : gmap loc task) (l : list loc) : list task :=
  omap (λ x, h !! x) l.

(** The id found at a location, if any. *)
Definition id_at (h : gmap loc task) (l : loc) : option string :=
  id <$> h !! l.

(** ** The planner and [schedule_task] *)

(** The combined content length [len(title) + len(description)]. *)
Definition content_length (title description : string) : Z :=
  Z.of_nat (Str.len title) + Z.of_nat (Str.len description).

(** The value [_calculate_optimal_time] computes from a dict's contents. *)
Definition optimal_time (t : task) : Time.datetime :=
  if bool_decide (priority t = "High") then due_date t - Time.hours 2
  else if bool_decide (priority t = "Medium") then due_date t - Time.hours 1
  else due_date t - Time.minutes 30.

(** The value [_calculate_prep_time] computes from a dict's contents. *)
Definition prep_time (t : task) : Z :=
  if bool_decide ("meeting" ∈ default [] (tags t)) then 15
  else if bool_decide ("report" ∈ default [] (tags t)) then 30
  else 5.

(** ** The scoring loop and the sort of [optimize_schedule] *)

(** The quantities of the scoring loop, for a clock reading [now]. *)
Definition days_until_due (now : Time.datetime) (t : task) : Z :=
  (due_date t - now) `div` Time.day.

Definition urgency (now : Time.datetime) (t : task) : Z :=
  Z.max 1 (5 - days_until_due now t).

Definition priority_score (t : task) : Z :=
  default 0 (priority_scores !! priority t).

(** What the scoring loop does to the contents of one record. *)
Definition rescore (now : Time.datetime) (t : task) : task :=
  set_optimization_score (urgency now t + priority_score t) t.

(** The heap after the scoring loop over [ls], the first reading of the
    clock being its reading number [n]. *)
Fixpoint scored (clock : nat → Time.datetime) (n : nat) (ls : list loc)
    (h : gmap loc task) : gmap loc task :=
  match ls with
  | [] => h
  | l :: ls' => scored clock (S n) ls' (alter (rescore (clock n)) l h)
  end.

(** The record at [l] is live and its priority is a key of
    [priority_scores]. *)
Definition scorable (h : gmap loc task) (l : loc) : Prop :=
  ∃ t, h !! l = Some t ∧ is_Some (priority_scores !! priority t).

(** The test of the comprehension that selects the pending records. *)
Definition is_pending (h : gmap loc task) (l : loc) : bool :=
  from_option (λ t, bool_decide (status t = "pending")) false (h !! l).

(** The key [list.sort] computes for a record: its score, or 0. *)
Definition sort_key (h : gmap loc task) (l : loc) : Z :=
  from_option (λ t, default 0 (optimization_score t)) 0 (h !! l).

(** The order the sort produces: keys do not increase. *)
Definition key_ge {A : Type} : relation (Z * A) := λ x y, y.1 ≤ x.1.

(** ** Reminders *)

(** The class the inner loop of [check_reminders] reaches for a time left
    [d]: that of the first threshold, in list order, that [d] does not
    exceed. *)
Fixpoint first_threshold (d : Time.timedelta)
    (thresholds : list Time.timedelta) : option string :=
  match thresholds with
  | [] => None
  | threshold :: thresholds' =>
      if d <=? threshold then Some (due_in threshold)
      else first_threshold d thresholds'
  end.

(** The class one round of [check_reminders] gives a record, if any. *)
Definition reminder_for (now : Time.datetime) (t : task) : option string :=
  if bool_decide (status t = "completed") then None
  else if Time.negative (due_date t - now) then Some overdue
  else first_threshold (due_date t - now)
         (default [Time.minutes 30] (reminder_thresholds !! priority t)).

(** What one round does to the record's contents. *)
Definition remind (now : Time.datetime) (t : task) : task :=
  match reminder_for now t with
  | Some r => set_reminder_type r t
  | None => t
  end.

(** ** The store *)

(** The ids of the records in the store, in store order. *)
Definition stored_ids (w : world) : list string :=
  id <$> contents (heap w) (self_tasks w).

(** [task_id] is the id of no record in the store. *)
Definition absent (task_id : string) (w : world) : Prop :=
  Forall (λ l, ∃ t, heap w !! l = Some t ∧ id t ≠ task_id) (self_tasks w).

(** What [_save_tasks] may change: the file on success, stdout on
    failure. *)
Inductive saved (w : world) : world → Prop :=
  | saved_written cs : saved w (with_file (Some cs) w)
  | saved_failed line : saved w (with_stdout (stdout w ++ [line]) w).

(** A client's calls of the three mutating operations, each with the
    objects it passes. *)
Inductive op :=
  | Add (task : loc)
  | Update (task_id : string) (updated_task : loc)
  | Delete (task_id : string).

Definition run_op (o : op) : py bool :=
  match o with
  | Add task => add_task task
  | Update task_id updated_task => update_task task_id updated_task
  | Delete task_id => delete_task task_id
  end.

(** A sequence of calls, run one after the other. *)
Fixpoint run_ops (os : list op) : py unit :=
  match os with
  | [] => mret ()
  | o :: os' => run_op o ;; run_ops os'
  end.

(** The records a sequence adds. *)
Definition added (os : list op) : list loc :=
  omap (λ o, match o with Add task => Some task | _ => None end) os.

(** The records an operation is given are live objects. *)
Definition op_live (h : gmap loc task) (o : op) : Prop :=
  match o with
  | Add task => is_Some (h !! task)
  | Update _ updated_task => is_Some (h !! updated_task)
  | Delete _ => True
  end.

(** An update stores a record under the id it looks up. *)
Definition op_keeps_id (h : gmap loc task) (o : op) : Prop :=
  match o with
  | Update task_id updated_task => id <$> h !! updated_task = Some task_id
  | _ => True
  end.

(** A caller that lists the tasks and marks the first one completed, the
    way app.py does before it calls [update_task]. *)
Definition complete_first_listed : py unit :=
  listing ← get_all_tasks;
  match listing with
  | task :: _ => setitem task (set_status "completed")
  | [] => mret ()
  end.

(** Reading the status of a stored record through [get_task_by_id]. *)
Definition read_status (task_id : string) : py (option string) :=
  found ← get_task_by_id task_id;
  match found with
  | Some task => t ← deref task; mret (Some (status t))
  | None => mret None
  end.

(** The first record of [tasks] with the id [task_id] is [l], in slot [i],
    and holds [t]. *)
Definition first_with_id (h : gmap loc task) (task_id : string)
    (tasks : list loc) (i : nat) (l : loc) (t : task) : Prop :=
  tasks !! i = Some l ∧ h !! l = Some t ∧ id t = task_id ∧
  ∀ j l', (j < i)%nat → tasks !! j = Some l' →
    ∃ t', h !! l' = Some t' ∧ id t' ≠ task_id.

(** The file holds the contents of the stored records. *)
Definition mirrored (w : world) : Prop :=
  file w = Some (contents (heap w) (self_tasks w)).

(** The test of [get_overdue_tasks] on a record. *)
Definition is_overdue (now : Time.datetime) (t : task) : Prop :=
  status t ≠ "completed" ∧ due_date t < now.

Definition overdue_at (h : gmap loc task) (now : Time.datetime) (l : loc)
  : bool :=
  from_option (λ t, bool_decide (is_overdue now t)) false (h !! l).

(** The test of [get_daily_summary] on a record. *)
Definition due_today (now : Time.datetime) (t : task) : Prop :=
  Time.date (due_date t) = Time.date now ∧ status t = "pending".

(** The records of a list that are not completed and have the priority
    [p]: what [get_stats] counts under [p]. *)
Definition counted (h : gmap loc task) (p : string) (l : loc) : bool :=
  from_option
    (λ t, bool_decide (status t ≠ "completed") && bool_decide (priority t = p))
    false (h !! l).

Definition listed_today (h : gmap loc task) (today : Z) (l : loc) : bool :=
  from_option
    (λ t, bool_decide (Time.date (due_date t) = today)
          && bool_decide (status t = "pending"))
    false (h !! l).

(** The largest reminder threshold of a priority; a priority that is no
    key of [reminder_thresholds] has the default list. *)
Definition reminder_limit (p : string) : Time.timedelta :=
  if bool_decide (p = "High") then Time.hours 2
  else if bool_decide (p = "Medium") then Time.hours 1
  else Time.minutes 30.

Definition is_completed (h : gmap loc task) (l : loc) : bool :=
  from_option (λ t, bool_decide (status t = "completed")) false (h !! l).

(** The tests of [get_tasks_by_status] and [get_tasks_by_priority]. *)
Definition has_status (h : gmap loc task) (s : string) (l : loc) : bool :=
  from_option (λ t, bool_decide (status t = s)) false (h !! l).

Definition has_priority (h : gmap loc task) (p : string) (l : loc) : bool :=
  from_option (λ t, bool_decide (priority t = p)) false (h !! l).

(** The number of elements of a list that pass a test, as [len] of the
    filtered list. *)
Definition len_if (test : loc → bool) (l : list loc) : Z :=
  Z.of_nat (length (filter test l)).

(** Slot [i] is the first, or the last, of the slots whose id is [k];
    [ids] lists the ids of the slots, in store order. *)
Definition first_slot (ids : list (option string)) (k : string) (i : nat)
  : Prop :=
  ids !! i = Some (Some k) ∧ ∀ j, (j < i)%nat → ids !! j ≠ Some (Some k).

Definition last_slot (ids : list (option string)) (k : string) (i : nat)
  : Prop :=
  ids !! i = Some (Some k) ∧ ∀ j, (i < j)%nat → ids !! j ≠ Some (Some k).

(** ** Example records and worlds *)

Definition now0 : Time.datetime := 730000 * Time.day.

(** The error of a file the program may not write: [EACCES]. *)
Definition permission_denied : Z * string := (13, "Permission denied").

(** Nothing allocated, an empty store with no file yet, the clock at
    [now0] and advancing by one microsecond a reading. *)
Definition world0 : world :=
  World ∅ 0%nat [] None true
        (λ n, now0 + Z.of_nat n) 0%nat
        (λ n, "uuid-" +:+ pretty n) 0%nat [] permission_denied.

(** The record of the scenario "Call client", due in 90 minutes with
    priority High, as [create_task] builds it in [world0], and the world
    it leaves. *)
Definition call_client : task :=
  Task "uuid-0" "Call client" "" "High" (now0 + Time.minutes 90) now0
       "pending" 30 (Some ["call"]) None None None None None None.

Definition world_call : world :=
  (create_task "Call client" "" "High" (now0 + Time.minutes 90) world0).2.

(** Four records, with ids "1", "2", "3" and again "2": A is due in 1 day
    with priority Low, B in 4 days with priority High.  The store of
    [world_ab] holds A and B, and its clock stands still at [now0]. *)
Definition task_a : task :=
  Task "1" "Pay rent" "" "Low" (now0 + Time.day) now0 "pending" 30
       (Some []) None None None None None None.

Definition task_b : task :=
  Task "2" "Quarterly report" "" "High" (now0 + 4 * Time.day) now0
       "pending" 30 (Some ["report"]) None None None None None None.

Definition task_c : task :=
  Task "3" "Book venue" "" "Medium" (now0 + Time.hours 3) now0 "pending"
       30 (Some []) None None None None None None.

Definition task_d : task :=
  Task "2" "Renew passport" "" "Low" (now0 + 2 * Time.day) now0 "pending"
       30 (Some []) None None None None None None.

Definition world_ab : world :=
  World {[ 0%nat := task_a; 1%nat := task_b; 2%nat := task_c;
           3%nat := task_d ]} 4%nat
        [0%nat; 1%nat] (Some [task_a; task_b]) true
        (λ _, now0) 0%nat
        (λ n, "uuid-" +:+ pretty n) 0%nat [] permission_denied.

(** A record of priority High that is due at 0001-01-01T00:30:00, half an
    hour after [datetime.min]. *)
Definition first_day : task :=
  Task "7" "Found the city" "" "High" (Time.minutes 30) 0 "pending" 30
       (Some []) None None None None None None.

(** The same world with A, B and D in the store: B and D share the id
    "2". *)
Definition world_abd : world :=
  with_self_tasks [0%nat; 1%nat; 3%nat] world_ab.

(** A record due in 25 minutes with priority High, and a record of
    priority Low that was due an hour ago. *)
Definition task_soon : task :=
  Task "5" "Submit form" "" "High" (now0 + Time.minutes 25) now0 "pending"
       30 (Some []) None None None None None None.

Definition task_late : task :=
  Task "6" "Water plants" "" "Low" (now0 - Time.hours 1) now0 "pending"
       30 (Some []) None None None None None None.

Definition world_rem : world :=
  World {[ 0%nat := task_soon; 1%nat := task_late ]} 2%nat
        [0%nat; 1%nat] (Some [task_soon; task_late]) true
        (λ _, now0) 0%nat
        (λ n, "uuid-" +:+ pretty n) 0%nat [] permission_denied.

End vocabulary.

(** * Verification *)

(** ** Running [py] computations *)

Section py_laws.

Context {A B : Type}.

Lemma bind_unfold (m : py A) (k : A → py B) w :
  (m ≫= k) w =
  match m w with
  | (Return a, w') => k a w'
  | (Raise e, w') => (Raise e, w')
  end.
Proof. reflexivity. Qed.

Lemma bind_return (m : py A) (k : A → py B) w a w' :
  m w = (Return a, w') → (m ≫= k) w = k a w'.
Proof. intros Hm. rewrite bind_unfold, Hm. reflexivity. Qed.

Lemma bind_raise (m : py A) (k : A → py B) w e w' :
  m w = (Raise e, w') → (m ≫= k) w = (Raise e, w').
Proof. intros Hm. rewrite bind_unfold, Hm. reflexivity. Qed.

Lemma ret_unfold (a : A) w : (mret a : py A) w = (Return a, w).
Proof. reflexivity. Qed.

End py_laws.

(** [run H]: feed the first operation of a sequence its outcome [H] and go
    on with the rest. *)
Tactic Notation "run" uconstr(H) := rewrite (bind_return _ _ _ _ _ H).

Lemma deref_Some l t w : heap w !! l = Some t → deref l w = (Return t, w).
Proof. intros H. unfold deref. rewrite H. reflexivity. Qed.

Lemma setitem_Some l f t w :
  heap w !! l = Some t →
  setitem l f w = (Return (), with_heap (<[l := f t]> (heap w)) (next w) w).
Proof. intros H. unfold setitem. rewrite H. reflexivity. Qed.

(** ** PlannerAgent *)

Section planner.

Import PlannerAgent.

Lemma create_task_run title description prio due w :
  create_task title description prio due w =
  (Return (next w),
   with_heap
     (<[next w :=
          Task (uuids w (draws w)) title description prio due
               (clock w (ticks w)) "pending"
               (_estimate_duration title description)
               (Some (_extract_tags title description))
               None None None None None None]> (heap w))
     (S (next w))
     (with_ticks (S (ticks w)) (with_draws (S (draws w)) w))).
Proof. reflexivity. Qed.

Lemma estimate_duration_cases title description :
  let L := content_length title description in
  (L < 50 → _estimate_duration title description = 30) ∧
  (50 ≤ L < 100 → _estimate_duration title description = 60) ∧
  (100 ≤ L → _estimate_duration title description = 120).
Proof.
  unfold _estimate_duration, content_length. cbv zeta.
  repeat case_match; lia.
Qed.

Lemma estimate_duration_mono title1 description1 title2 description2 :
  content_length title1 description1 ≤ content_length title2 description2 →
  _estimate_duration title1 description1 ≤
  _estimate_duration title2 description2.
Proof.
  unfold _estimate_duration, content_length. intros.
  repeat case_match; lia.
Qed.

End planner.

Section strings.

Import Str.

Lemma startswith_spec s p :
  startswith s p = true ↔ ∃ after, s = p +:+ after.
Proof.
  revert s. induction p as [|c p IH]; intros s; simpl.
  - destruct s; split; eauto.
  - destruct s as [|d s]; simpl.
    + split; [done | intros [after Heq]; discriminate].
    + rewrite andb_true_iff, bool_decide_eq_true, IH. split.
      * intros [-> [after ->]]. by exists after.
      * intros [after Heq]. injection Heq as -> ->. eauto.
Qed.

Lemma contains_spec p s : contains p s = true ↔ occurs p s.
Proof.
  unfold occurs. split.
  - induction s as [|c s IH]; cbn [contains]; rewrite orb_true_iff.
    + intros [H|H]; [|done]. apply startswith_spec in H as [after H].
      by exists "", after.
    + intros [H|H].
      * apply startswith_spec in H as [after H]. by exists "", after.
      * destruct (IH H) as (before & after & ->).
        by exists (String c before), after.
  - intros (before & after & ->).
    induction before as [|c before IH].
    + assert (startswith (p +:+ after) p = true) as Hp
        by (apply startswith_spec; eauto).
      change ("" +:+ p +:+ after) with (p +:+ after).
      destruct (p +:+ after); cbn [contains]; rewrite Hp; done.
    + change (String c before +:+ p +:+ after)
        with (String c (before +:+ p +:+ after)).
      cbn [contains]. rewrite IH. apply orb_true_r.
Qed.

(** [len] adds up over a concatenation, and on text whose bytes are all
    below 128 (ASCII text) it is the number of bytes. *)
Lemma len_app s1 s2 : len (s1 +:+ s2) = (len s1 + len s2)%nat.
Proof.
  induction s1 as [|c s1 IH]; [done|].
  change (String c s1 +:+ s2) with (String c (s1 +:+ s2)).
  cbn [len]. rewrite IH. lia.
Qed.

Lemma len_ascii s :
  Forall (λ c, (nat_of_ascii c < 128)%nat) (list_ascii_of_string s) →
  len s = String.length s.
Proof.
  induction s as [|c s IH]; [done|]. cbn [list_ascii_of_string].
  intros [Hc Hs]%Forall_cons. cbn [len String.length].
  rewrite (IH Hs). unfold is_continuation.
  by rewrite (proj2 (Nat.leb_gt _ _)) by lia.
Qed.

End strings.

Section planner_claims.

Import PlannerAgent.

(** C6: the [estimated_duration] of the record [create_task] builds is
    fixed by L = len(title) + len(description): 30 when L < 50, 60 when
    50 <= L < 100, 120 when L >= 100; so it is one of 30, 60, 120, and a
    record built from content that is at least as long has an
    [estimated_duration] at least as large. *)
Theorem create_task_estimated_duration title description prio due w :
  ∃ l t w',
    create_task title description prio due w = (Return l, w') ∧
    heap w' !! l = Some t ∧
    let L := content_length title description in
    (L < 50 → estimated_duration t = 30) ∧
    (50 ≤ L < 100 → estimated_duration t = 60) ∧
    (100 ≤ L → estimated_duration t = 120) ∧
    estimated_duration t ∈ [30; 60; 120] ∧
    ∀ title2 description2 prio2 due2 w2 l2 t2 w2',
      create_task title2 description2 prio2 due2 w2 = (Return l2, w2') →
      heap w2' !! l2 = Some t2 →
      L ≤ content_length title2 description2 →
      estimated_duration t ≤ estimated_duration t2.
Proof.
  eexists _, _, _. split; [apply create_task_run|].
  split; [apply lookup_insert_eq|]. cbn [estimated_duration].
  pose proof (estimate_duration_cases title description) as (H1 & H2 & H3).
  repeat split; try done.
  - unfold _estimate_duration. repeat case_match; set_solver.
  - intros title2 description2 prio2 due2 w2 l2 t2 w2' Hrun Ht2 Hle.
    rewrite create_task_run in Hrun. injection Hrun as <- <-.
    cbn [heap with_heap] in Ht2. rewrite lookup_insert_eq in Ht2.
    injection Ht2 as <-. cbn [estimated_duration].
    by apply estimate_duration_mono.
Qed.

(** A title of 25 letters that take two bytes each counts 25 characters
    and gives the duration 30. *)
Lemma create_task_estimated_duration_witness :
  let accents := "ééééééééééééééééééééééééé" in
  Str.len accents = 25%nat ∧
  String.length accents = 50%nat ∧
  ∃ l t w',
    create_task accents "" "High" (now0 + Time.minutes 90) world0
      = (Return l, w') ∧
    heap w' !! l = Some t ∧ estimated_duration t = 30.
Proof.
  cbv zeta. split; [reflexivity|]. split; [reflexivity|].
  destruct (create_task_estimated_duration
              "ééééééééééééééééééééééééé" "" "High"
              (now0 + Time.minutes 90) world0)
    as (l & t & w' & Hrun & Ht & H30 & _).
  exists l, t, w'. repeat split; [exact Hrun | exact Ht |].
  apply H30. vm_compute. reflexivity.
Defined.

(** C7, as amended: the tags of the record [create_task] builds are the
    words of the vocabulary [meeting, call, email, report, review, urgent,
    important] that occur in the lower-cased text
    title + " " + description (the two joined by one space), each once
    and in vocabulary order; a second run on the same title and
    description gives the same tags. *)
Theorem create_task_tags title description prio due w :
  ∃ l t w' found,
    create_task title description prio due w = (Return l, w') ∧
    heap w' !! l = Some t ∧
    tags t = Some found ∧
    (∀ tag, tag ∈ found ↔
       tag ∈ common_tags ∧
       Str.occurs tag (Str.lower (title +:+ " " +:+ description))) ∧
    sublist found common_tags ∧
    ∀ prio2 due2 w2 l2 t2 w2',
      create_task title description prio2 due2 w2 = (Return l2, w2') →
      heap w2' !! l2 = Some t2 →
      tags t2 = Some found.
Proof.
  eexists _, _, _, _. split; [apply create_task_run|].
  split; [apply lookup_insert_eq|]. cbn [tags].
  split; [reflexivity|]. split; [|split].
  - intros tag. unfold _extract_tags. rewrite list_elem_of_filter.
    rewrite <- contains_spec. split.
    + intros [Hc Hin]. split; [done|]. by apply Is_true_eq_true.
    + intros [Hin Hc]. split; [|done]. by apply Is_true_eq_left.
  - apply sublist_filter.
  - intros prio2 due2 w2 l2 t2 w2' Hrun Ht2.
    rewrite create_task_run in Hrun. injection Hrun as <- <-.
    cbn [heap with_heap] in Ht2. rewrite lookup_insert_eq in Ht2.
    by injection Ht2 as <-.
Qed.

Lemma create_task_tags_witness :
  ∃ l t w',
    create_task "Call client" "" "High" (now0 + Time.minutes 90) world0
      = (Return l, w') ∧
    heap w' !! l = Some t ∧ tags t = Some ["call"].
Proof.
  destruct (create_task_tags
              "Call client" "" "High" (now0 + Time.minutes 90) world0)
    as (l & t & w' & found & Hrun & Ht & Htags & _).
  exists l, t, w'. repeat split; [exact Hrun | exact Ht |].
  rewrite create_task_run in Hrun. injection Hrun as <- <-.
  cbn [heap with_heap] in Ht. rewrite lookup_insert_eq in Ht.
  by injection Ht as <-.
Defined.

(** C7 as stated fails: "call" is in the vocabulary and occurs in
    title + description = "call", yet the record built from the title
    "ca" and the description "ll" carries no tag: the program searches
    "ca ll". *)
Lemma create_task_tags_counterexample :
  ∃ l t w',
    create_task "ca" "ll" "Low" now0 world0 = (Return l, w') ∧
    heap w' !! l = Some t ∧
    "call" ∈ common_tags ∧
    Str.occurs "call" (Str.lower ("ca" +:+ "ll")) ∧
    tags t = Some [].
Proof.
  eexists _, _, _. split; [apply create_task_run|].
  split; [apply lookup_insert_eq|].
  split; [set_solver|]. split; [by exists "", ""|]. reflexivity.
Qed.

End planner_claims.

(** ** SchedulerAgent: [schedule_task] *)

Section scheduler.

Import SchedulerAgent.

Lemma datetime_sub_run dt td w :
  Time.in_range (dt - td) = true →
  datetime_sub dt td w = (Return (dt - td), w).
Proof.
  intros Hr. unfold datetime_sub, Time.sub_timedelta. by rewrite Hr.
Qed.

Lemma datetime_sub_overflow dt td w :
  Time.in_range (dt - td) = false →
  datetime_sub dt td w = (Raise OverflowError, w).
Proof.
  intros Hr. unfold datetime_sub, Time.sub_timedelta. by rewrite Hr.
Qed.

Lemma in_range_spec dt :
  Time.in_range dt = true ↔ Time.min ≤ dt ≤ Time.max.
Proof. unfold Time.in_range. rewrite andb_true_iff. lia. Qed.

Lemma calculate_optimal_time_run l t w :
  heap w !! l = Some t →
  Time.in_range (optimal_time t) = true →
  _calculate_optimal_time l w = (Return (optimal_time t), w).
Proof.
  intros H Hr. unfold _calculate_optimal_time.
  run (deref_Some _ _ _ H). unfold optimal_time in Hr |- *.
  repeat case_bool_decide; by rewrite bind_unfold, datetime_sub_run.
Qed.

Lemma calculate_optimal_time_overflow l t w :
  heap w !! l = Some t →
  Time.in_range (optimal_time t) = false →
  _calculate_optimal_time l w = (Raise OverflowError, w).
Proof.
  intros H Hr. unfold _calculate_optimal_time.
  run (deref_Some _ _ _ H). unfold optimal_time in Hr.
  repeat case_bool_decide; by rewrite bind_unfold, datetime_sub_overflow.
Qed.

Lemma calculate_prep_time_run l t w :
  heap w !! l = Some t →
  _calculate_prep_time l w = (Return (prep_time t), w).
Proof.
  intros H. unfold _calculate_prep_time, prep_time.
  run (deref_Some _ _ _ H).
  repeat case_bool_decide; reflexivity.
Qed.

Lemma schedule_task_run l t w :
  heap w !! l = Some t →
  Time.in_range (optimal_time t) = true →
  schedule_task l w =
  (Return l,
   with_heap
     (<[l := set_buffer_time 15
               (set_preparation_time (prep_time t)
                  (set_scheduled_time (optimal_time t) t))]> (heap w))
     (next w) w).
Proof.
  intros H Hr. unfold schedule_task.
  run (calculate_optimal_time_run _ _ _ H Hr).
  run (setitem_Some _ _ _ _ H).
  set (t1 := set_scheduled_time (optimal_time t) t).
  set (w1 := with_heap _ _ w).
  assert (heap w1 !! l = Some t1) as H1 by apply lookup_insert_eq.
  run (calculate_prep_time_run _ _ _ H1).
  run (setitem_Some _ _ _ _ H1).
  set (t2 := set_preparation_time (prep_time t1) t1).
  set (w2 := with_heap _ _ w1).
  assert (heap w2 !! l = Some t2) as H2 by apply lookup_insert_eq.
  run (setitem_Some _ _ _ _ H2).
  rewrite ret_unfold. f_equal.
  subst w2 w1. unfold with_heap. cbn.
  rewrite !insert_insert_eq. reflexivity.
Qed.

(** The subtraction comes first: when it fails nothing has been
    assigned. *)
Lemma schedule_task_overflow l t w :
  heap w !! l = Some t →
  Time.in_range (optimal_time t) = false →
  schedule_task l w = (Raise OverflowError, w).
Proof.
  intros H Hr. unfold schedule_task.
  by rewrite (bind_raise _ _ _ _ _
                (calculate_optimal_time_overflow _ _ _ H Hr)).
Qed.

(** C8, amended: on a record whose priority is Low, Medium or High and
    whose due date minus the offset (2 hours for High, 1 hour for Medium,
    30 minutes for Low) is not before [datetime.min], [schedule_task] sets
    [scheduled_time] to the due date minus that offset, whatever the
    current time; [preparation_time] to 15 when the tags contain
    "meeting", else to 30 when they contain "report", else to 5; and
    [buffer_time] to 15.  It returns the record it was given, touches no
    other field and no other record, and does not read the clock.  When
    the due date minus the offset is before [datetime.min], it raises
    [OverflowError] and assigns nothing. *)
Theorem schedule_task_fields l t w :
  heap w !! l = Some t →
  priority t ∈ ["Low"; "Medium"; "High"] →
  Time.in_range (due_date t) = true →
  (Time.min ≤ optimal_time t →
   ∃ t' w',
     schedule_task l w = (Return l, w') ∧
     heap w' = <[l := t']> (heap w) ∧
     ticks w' = ticks w ∧
     (priority t = "High" →
        scheduled_time t' = Some (due_date t - Time.hours 2)) ∧
     (priority t = "Medium" →
        scheduled_time t' = Some (due_date t - Time.hours 1)) ∧
     (priority t = "Low" →
        scheduled_time t' = Some (due_date t - Time.minutes 30)) ∧
     ("meeting" ∈ default [] (tags t) → preparation_time t' = Some 15) ∧
     ("meeting" ∉ default [] (tags t) → "report" ∈ default [] (tags t) →
        preparation_time t' = Some 30) ∧
     ("meeting" ∉ default [] (tags t) → "report" ∉ default [] (tags t) →
        preparation_time t' = Some 5) ∧
     buffer_time t' = Some 15 ∧
     t' = set_buffer_time 15
            (set_preparation_time (prep_time t)
               (set_scheduled_time (optimal_time t) t))) ∧
  (optimal_time t < Time.min →
   schedule_task l w = (Raise OverflowError, w)).
Proof.
  intros H Hprio Hdue%in_range_spec.
  assert (optimal_time t ≤ due_date t) as Hle.
  { unfold optimal_time, Time.hours, Time.minutes, Time.second.
    repeat case_bool_decide; lia. }
  split.
  - intros Hmin.
    assert (Time.in_range (optimal_time t) = true) as Hr
      by (apply in_range_spec; lia).
    eexists _, _.
    split; [by apply schedule_task_run|].
    split; [reflexivity|]. split; [reflexivity|].
    cbn [scheduled_time preparation_time buffer_time
         set_buffer_time set_preparation_time set_scheduled_time].
    unfold optimal_time, prep_time.
    repeat split; intros; repeat case_bool_decide; done || congruence.
  - intros Hmin. apply (schedule_task_overflow _ _ _ H).
    apply not_true_is_false. intros Hr%in_range_spec. lia.
Qed.

Lemma schedule_task_fields_witness :
  heap world_call !! 0%nat = Some call_client ∧
  priority call_client ∈ ["Low"; "Medium"; "High"] ∧
  ∃ t' w',
    schedule_task 0%nat world_call = (Return 0%nat, w') ∧
    scheduled_time t' = Some (now0 - Time.minutes 30) ∧
    preparation_time t' = Some 5 ∧
    buffer_time t' = Some 15.
Proof.
  assert (heap world_call !! 0%nat = Some call_client) as H
    by reflexivity.
  assert (priority call_client ∈ ["Low"; "Medium"; "High"]) as Hp
    by (by apply (bool_decide_unpack _)).
  split; [exact H|]. split; [exact Hp|].
  destruct (schedule_task_fields 0%nat call_client world_call H Hp
              eq_refl) as [Hfields _].
  destruct Hfields
    as (t' & w' & Hrun & _ & _ & Hhigh & _ & _ & _ & _ & Hprep & Hbuf & _).
  { by vm_compute. }
  exists t', w'. split; [exact Hrun|]. split; [|split].
  - rewrite Hhigh by reflexivity. reflexivity.
  - apply Hprep; cbn; by apply (bool_decide_unpack _).
  - exact Hbuf.
Defined.

(** C8 as stated fails: a record of priority High that is due at
    0001-01-01T00:30:00 is a record like any other, yet [schedule_task]
    sets no [scheduled_time] on it: the due date minus 2 hours is before
    [datetime.min], the subtraction raises [OverflowError] and the record
    stays as it was. *)
Lemma schedule_task_fields_counterexample :
  let w := with_heap {[ 0%nat := first_day ]} 1%nat world0 in
  heap w !! 0%nat = Some first_day ∧
  priority first_day = "High" ∧
  due_date first_day = Time.minutes 30 ∧
  Time.in_range (due_date first_day) = true ∧
  schedule_task 0%nat w = (Raise OverflowError, w) ∧
  ¬ ∃ t' w', schedule_task 0%nat w = (Return 0%nat, w') ∧
             scheduled_time t' = Some (due_date first_day - Time.hours 2).
Proof.
  assert (schedule_task 0%nat
            (with_heap {[ 0%nat := first_day ]} 1%nat world0)
          = (Raise OverflowError,
             with_heap {[ 0%nat := first_day ]} 1%nat world0)) as Hrun
    by (by apply (schedule_task_overflow _ first_day)).
  cbv zeta. do 4 (split; [reflexivity|]). split; [exact Hrun|].
  intros (t' & w' & Hret & _). rewrite Hrun in Hret. discriminate.
Qed.

End scheduler.

(** ** TaskStorage *)

Section storage.

Import TaskStorage.

(** [_save_tasks] leaves the objects and the store's list alone. *)
Lemma saved_memory w w' :
  saved w w' →
  heap w' = heap w ∧ next w' = next w ∧ self_tasks w' = self_tasks w ∧
  ticks w' = ticks w ∧ draws w' = draws w.
Proof. by destruct 1. Qed.

Lemma tasks_get_run w : tasks_get w = (Return (self_tasks w), w).
Proof. reflexivity. Qed.

Lemma tasks_set_run l w : tasks_set l w = (Return (), with_self_tasks l w).
Proof. reflexivity. Qed.

Lemma tasks_append_run task w :
  tasks_append task w
    = (Return (), with_self_tasks (self_tasks w ++ [task]) w).
Proof. reflexivity. Qed.

(** Serialising only reads. *)
Lemma json_dump_world l w : (json_dump l w).2 = w.
Proof.
  induction l as [|x l IH]; [done|]. cbn [json_dump].
  rewrite bind_unfold. unfold deref at 1.
  destruct (heap w !! x) as [t|]; [|done].
  rewrite bind_unfold.
  destruct (json_dump l w) as [[vs|e] w1]; cbn in *; by subst.
Qed.

Lemma json_dump_run l w :
  Forall (live w) l → json_dump l w = (Return (contents (heap w) l), w).
Proof.
  induction 1 as [|x l [t Ht] _ IH]; [done|]. cbn [json_dump].
  run (deref_Some _ _ _ Ht).
  run IH.
  unfold contents. cbn [omap list_omap]. by rewrite Ht.
Qed.

(** [_save_tasks] never raises: a failure is printed and swallowed. *)
Lemma save_tasks_total w :
  ∃ w', _save_tasks w = (Return (), w') ∧ saved w w'.
Proof.
  unfold _save_tasks, try_except, open_w.
  rewrite bind_unfold. destruct (writable w) eqn:Hw.
  - run (tasks_get_run _). rewrite bind_unfold.
    pose proof (json_dump_world (self_tasks w) w) as Hd.
    destruct (json_dump (self_tasks w) w) as [[cs|e] w1];
      cbn in Hd; subst w1.
    + eexists. split; [reflexivity|]. apply saved_written.
    + eexists. split; [reflexivity|]. apply saved_failed.
  - eexists. split; [reflexivity|]. apply saved_failed.
Qed.

(** When the file can be written, it receives the contents of the stored
    records. *)
Lemma save_tasks_run w :
  writable w = true →
  Forall (live w) (self_tasks w) →
  _save_tasks w =
  (Return (), with_file (Some (contents (heap w) (self_tasks w))) w).
Proof.
  intros Hw Hlive. unfold _save_tasks, try_except, open_w.
  rewrite bind_unfold, Hw.
  run (tasks_get_run _). rewrite bind_unfold.
  by rewrite (json_dump_run _ _ Hlive).
Qed.

(** A comprehension whose condition only reads the dict is a filter. *)
Lemma comprehension_if_run (p : task → bool) tasks w :
  Forall (live w) tasks →
  comprehension_if tasks (λ l, t ← deref l; mret (p t)) w =
  (Return (filter (λ l, from_option p false (heap w !! l)) tasks), w).
Proof.
  induction 1 as [|x l [t Ht] _ IH]; [done|]. cbn [comprehension_if].
  rewrite bind_unfold, bind_unfold, (deref_Some _ _ _ Ht), ret_unfold.
  run IH. rewrite ret_unfold.
  rewrite filter_cons, Ht. cbn [from_option].
  destruct (p t); by case_decide.
Qed.

Lemma save_then_true w :
  ∃ w', (_save_tasks ;; mret true) w = (Return true, w') ∧ saved w w'.
Proof.
  destruct (save_tasks_total w) as (w' & Hrun & Hsaved).
  exists w'. by run Hrun.
Qed.

(** The loop of [update_task] when no record has the id, and when the
    first one that has it sits [k] places further on. *)
Lemma replace_first_absent task_id u i tasks w :
  Forall (λ l, ∃ t, heap w !! l = Some t ∧ id t ≠ task_id) tasks →
  replace_first task_id u i tasks w = (Return false, w).
Proof.
  intros H. revert i. induction H as [|x l (t & Ht & Hid) _ IH]; intros i.
  - done.
  - cbn [replace_first].
    run (deref_Some _ _ _ Ht).
    by rewrite bool_decide_eq_false_2.
Qed.

Lemma replace_first_found task_id u tasks : ∀ i k l t w,
  tasks !! k = Some l →
  heap w !! l = Some t →
  id t = task_id →
  (∀ j l', (j < k)%nat → tasks !! j = Some l' →
     ∃ t', heap w !! l' = Some t' ∧ id t' ≠ task_id) →
  (i + k < length (self_tasks w))%nat →
  replace_first task_id u i tasks w =
  (_save_tasks ;; mret true)
    (with_self_tasks (<[(i + k)%nat := u]> (self_tasks w)) w).
Proof.
  induction tasks as [|x tasks IH];
    intros i k l t w Hk Ht Hid Hfirst Hlen.
  - done.
  - cbn [replace_first]. destruct k as [|k].
    + injection Hk as ->.
      run (deref_Some _ _ _ Ht).
      rewrite bool_decide_eq_true_2 by done.
      rewrite bind_unfold. unfold tasks_setitem.
      rewrite Nat.add_0_r in *. by rewrite bool_decide_eq_true_2 by done.
    + destruct (Hfirst 0%nat x) as (t' & Ht' & Hid'); [lia|done|].
      run (deref_Some _ _ _ Ht').
      rewrite bool_decide_eq_false_2 by done.
      rewrite (IH (S i) k l t w Hk Ht Hid).
      * by replace (S i + k)%nat with (i + S k)%nat by lia.
      * intros j l' Hj Hl'. apply (Hfirst (S j) l'); [lia|done].
      * lia.
Qed.

Lemma filter_absent task_id (h : gmap loc task) (l : list loc) :
  Forall (λ x, ∃ t, h !! x = Some t ∧ id t ≠ task_id) l →
  filter (λ x, from_option (λ t, bool_decide (id t ≠ task_id))
                 false (h !! x)) l = l.
Proof.
  induction 1 as [|x l (t & Ht & Hid) _ IH]; [done|].
  rewrite filter_cons_True; [by rewrite IH|].
  rewrite Ht. cbn. by apply bool_decide_pack.
Qed.

(** [update_task] with an id no stored record has: the answer is [False]
    and nothing changes, not even the file. *)
Lemma update_task_absent task_id u w :
  absent task_id w →
  update_task task_id u w = (Return false, w).
Proof.
  intros H. unfold update_task, try_except.
  run (tasks_get_run _).
  by rewrite replace_first_absent.
Qed.

(** [delete_task] with an id no stored record has: the store keeps its
    records, and the answer is [True]. *)
Lemma delete_task_absent task_id w :
  absent task_id w →
  ∃ w', delete_task task_id w = (Return true, w') ∧
        self_tasks w' = self_tasks w ∧ heap w' = heap w.
Proof.
  intros H. unfold delete_task, try_except.
  assert (Forall (live w) (self_tasks w)) as Hlive.
  { eapply Forall_impl; [exact H|]. intros l (t & Ht & _). by exists t. }
  run (tasks_get_run _). rewrite bind_unfold.
  rewrite (comprehension_if_run (λ t, bool_decide (id t ≠ task_id))
             _ _ Hlive).
  rewrite (filter_absent _ _ _ H).
  run (tasks_set_run _ _).
  destruct (save_then_true (with_self_tasks (self_tasks w) w))
    as (w' & -> & Hsaved).
  exists w'. split; [done|].
  by destruct (saved_memory _ _ Hsaved) as (-> & _ & -> & _).
Qed.

(** [update_task] when the first record with the id is in slot [i]. *)
Lemma update_task_found task_id u w i l t :
  self_tasks w !! i = Some l →
  heap w !! l = Some t →
  id t = task_id →
  (∀ j l', (j < i)%nat → self_tasks w !! j = Some l' →
     ∃ t', heap w !! l' = Some t' ∧ id t' ≠ task_id) →
  ∃ w',
    update_task task_id u w = (Return true, w') ∧
    self_tasks w' = <[i := u]> (self_tasks w) ∧
    heap w' = heap w.
Proof.
  intros Hi Ht Hid Hfirst. unfold update_task, try_except.
  run (tasks_get_run _).
  rewrite (replace_first_found task_id u (self_tasks w) 0 i l t w
             Hi Ht Hid Hfirst (lookup_lt_Some _ _ _ Hi)).
  destruct (save_then_true
              (with_self_tasks (<[(0 + i)%nat := u]> (self_tasks w)) w))
    as (w' & -> & Hsaved).
  destruct (saved_memory _ _ Hsaved) as (Hh & _ & Hs & _).
  cbn in Hh, Hs. exists w'. by rewrite Hs, Hh.
Qed.

(** C10: when the store holds a record with id [task_id], [update_task]
    answers [True] and puts the given record in the slot of the first
    record with that id, whatever the id of the given record is; every
    other slot keeps its record, the list keeps its length, and no record
    is modified. *)
Theorem update_task_replaces_first task_id u w i l t :
  self_tasks w !! i = Some l →
  heap w !! l = Some t →
  id t = task_id →
  (∀ j l', (j < i)%nat → self_tasks w !! j = Some l' →
     ∃ t', heap w !! l' = Some t' ∧ id t' ≠ task_id) →
  ∃ w',
    update_task task_id u w = (Return true, w') ∧
    self_tasks w' = <[i := u]> (self_tasks w) ∧
    self_tasks w' !! i = Some u ∧
    (∀ j, j ≠ i → self_tasks w' !! j = self_tasks w !! j) ∧
    length (self_tasks w') = length (self_tasks w) ∧
    heap w' = heap w.
Proof.
  intros Hi Ht Hid Hfirst.
  destruct (update_task_found task_id u w i l t Hi Ht Hid Hfirst)
    as (w' & Hrun & Hs & Hh).
  exists w'. rewrite Hs, Hh. repeat split; try done.
  - apply list_lookup_insert_eq. by eapply lookup_lt_Some.
  - intros j Hj. by apply list_lookup_insert_ne.
  - apply length_insert.
Qed.

Lemma update_task_replaces_first_witness :
  ∃ w',
    update_task "2" 2%nat world_ab = (Return true, w') ∧
    self_tasks w' = [0%nat; 2%nat] ∧
    stored_ids world_ab = ["1"; "2"] ∧
    stored_ids w' = ["1"; "3"].
Proof.
  destruct (update_task_replaces_first "2" 2%nat world_ab 1%nat 1%nat task_b)
    as (w' & Hrun & Hs & _ & _ & _ & Hh).
  - reflexivity.
  - reflexivity.
  - reflexivity.
  - intros [|j] l' Hj Hl'; [|lia]. injection Hl' as <-.
    exists task_a. split; [reflexivity|discriminate].
  - exists w'. split; [exact Hrun|]. split; [exact Hs|].
    unfold stored_ids. rewrite Hs, Hh. split; reflexivity.
Defined.

(** The two operations of C3 at an id the store does not hold, here "3":
    neither raises and the records stay; [update_task] answers [False],
    but [delete_task] answers [True] where C3 says [False]. *)
Theorem delete_task_absent_answers_true :
  absent "3" world_ab ∧
  update_task "3" 2%nat world_ab = (Return false, world_ab) ∧
  ∃ w', delete_task "3" world_ab = (Return true, w') ∧
        self_tasks w' = self_tasks world_ab ∧
        heap w' = heap world_ab.
Proof.
  assert (absent "3" world_ab) as H.
  { repeat constructor.
    - exists task_a. split; [reflexivity|discriminate].
    - exists task_b. split; [reflexivity|discriminate]. }
  split; [exact H|]. split.
  - by apply update_task_absent.
  - by apply delete_task_absent.
Qed.

(** *** Sequences of store operations *)

Lemma id_at_contents h l :
  Forall (λ x, is_Some (h !! x)) l →
  id_at h <$> l = Some <$> (id <$> contents h l).
Proof.
  induction 1 as [|x l [t Ht] _ IH]; [done|].
  unfold contents in *. cbn. unfold id_at at 1. rewrite Ht. cbn.
  by rewrite IH.
Qed.

(** [add_task] appends the object it is given and answers [True]. *)
Lemma add_task_run task w :
  ∃ w', add_task task w = (Return true, w') ∧
        self_tasks w' = self_tasks w ++ [task] ∧ heap w' = heap w.
Proof.
  unfold add_task, try_except.
  run (tasks_append_run _ _).
  destruct (save_then_true (with_self_tasks (self_tasks w ++ [task]) w))
    as (w' & -> & Hsaved).
  exists w'. split; [done|].
  by destruct (saved_memory _ _ Hsaved) as (-> & _ & -> & _).
Qed.

(** [delete_task] keeps the records with another id, in order, and
    answers [True]. *)
Lemma delete_task_run task_id w :
  Forall (live w) (self_tasks w) →
  ∃ w', delete_task task_id w = (Return true, w') ∧
        self_tasks w' =
          filter (λ l, from_option (λ t, bool_decide (id t ≠ task_id))
                         false (heap w !! l)) (self_tasks w) ∧
        heap w' = heap w.
Proof.
  intros Hlive. unfold delete_task, try_except.
  run (tasks_get_run _). rewrite bind_unfold.
  rewrite (comprehension_if_run (λ t, bool_decide (id t ≠ task_id))
             _ _ Hlive).
  run (tasks_set_run _ _).
  match goal with
  | |- context [(_save_tasks ;; mret true) ?w1] =>
      destruct (save_then_true w1) as (w' & -> & Hsaved)
  end.
  exists w'. split; [done|].
  by destruct (saved_memory _ _ Hsaved) as (-> & _ & -> & _).
Qed.

(** Either no record of a list has the id, or there is a first one. *)
Lemma first_or_absent task_id (h : gmap loc task) (l : list loc) :
  Forall (λ x, is_Some (h !! x)) l →
  Forall (λ x, ∃ t, h !! x = Some t ∧ id t ≠ task_id) l ∨
  ∃ k x t,
    l !! k = Some x ∧ h !! x = Some t ∧ id t = task_id ∧
    ∀ j l', (j < k)%nat → l !! j = Some l' →
      ∃ t', h !! l' = Some t' ∧ id t' ≠ task_id.
Proof.
  induction 1 as [|x l [t Ht] _ IH].
  - left. constructor.
  - destruct (decide (id t = task_id)) as [Heq|Hne].
    + right. exists 0%nat, x, t. repeat split; try done. lia.
    + destruct IH as [IH|(k & y & ty & Hk & Hy & Hid & Hfirst)].
      * left. constructor; eauto.
      * right. exists (S k), y, ty. repeat split; try done.
        intros [|j] l' Hj Hl'.
        -- injection Hl' as <-. eauto.
        -- apply (Hfirst j l'); [lia|done].
Qed.

(** The invariant of a run: the stored ids are pairwise distinct and none
    of them is the id of a record the rest of the run adds. *)
Lemma run_ops_unique os : ∀ w,
  Forall (live w) (self_tasks w) →
  Forall (op_live (heap w)) os →
  Forall (op_keeps_id (heap w)) os →
  NoDup (id_at (heap w) <$> added os) →
  NoDup (id_at (heap w) <$> self_tasks w) →
  (∀ x, x ∈ id_at (heap w) <$> self_tasks w →
        x ∉ id_at (heap w) <$> added os) →
  ∃ w',
    run_ops os w = (Return (), w') ∧
    heap w' = heap w ∧
    Forall (live w') (self_tasks w') ∧
    NoDup (id_at (heap w') <$> self_tasks w').
Proof.
  induction os as [|o os IH]; intros w Hlive Hops Hkeep Hadd Hnd Hfresh.
  - by exists w.
  - apply Forall_cons in Hops as [Ho Hops].
    apply Forall_cons in Hkeep as [Hk Hkeep].
    cbn [run_ops]. destruct o as [task|task_id u|task_id]; cbn [run_op].
    + (* add_task *)
      destruct (add_task_run task w) as (w1 & Hrun & Hs & Hh).
      run Hrun.
      cbn [added omap list_omap] in Hadd, Hfresh.
      change (list_omap ?f ?l) with (omap f l) in Hadd, Hfresh.
      fold (added os) in Hadd, Hfresh.
      rewrite fmap_cons in Hadd, Hfresh.
      apply NoDup_cons in Hadd as [Hnew Hadd].
      destruct (IH w1) as (w' & Hrun' & Hh' & Hlive' & Hnd').
      * rewrite Hs. apply Forall_app. split.
        -- eapply Forall_impl; [exact Hlive|]. unfold live. by rewrite Hh.
        -- constructor; [|constructor]. unfold live. by rewrite Hh.
      * by rewrite Hh.
      * by rewrite Hh.
      * by rewrite Hh.
      * rewrite Hh, Hs, fmap_app. apply NoDup_app. split; [done|].
        split; [|apply NoDup_singleton].
        intros x Hx Hx'%list_elem_of_singleton. subst x.
        apply (Hfresh _ Hx). by left.
      * rewrite Hh, Hs, fmap_app. intros x [Hx|Hx]%elem_of_app.
        -- intros Hin. apply (Hfresh _ Hx). by right.
        -- apply list_elem_of_singleton in Hx. by subst x.
      * exists w'. by rewrite Hh', Hh in *.
    + (* update_task *)
      cbn [added omap list_omap] in Hadd, Hfresh.
      change (list_omap ?f ?l) with (omap f l) in Hadd, Hfresh.
      fold (added os) in Hadd, Hfresh.
      destruct (first_or_absent task_id (heap w) (self_tasks w) Hlive)
        as [Habs|(k & x & t & Hx & Ht & Hid & Hfirst)].
      * run (update_task_absent _ u _ Habs).
        by apply IH.
      * destruct (update_task_found task_id u w k x t Hx Ht Hid Hfirst)
          as (w1 & Hrun & Hs & Hh).
        run Hrun.
        assert (id_at (heap w) <$> self_tasks w1
                = id_at (heap w) <$> self_tasks w) as Hids.
        { rewrite Hs, list_fmap_insert. apply list_insert_id.
          rewrite list_lookup_fmap, Hx. cbn. f_equal.
          cbn in Hk. unfold id_at. rewrite Hk, Ht. cbn. by f_equal. }
        destruct (IH w1) as (w' & Hrun' & Hh' & Hlive' & Hnd').
        -- rewrite Hs. apply Forall_insert.
           ++ eapply Forall_impl; [exact Hlive|]. unfold live.
              by rewrite Hh.
           ++ unfold live. by rewrite Hh.
        -- by rewrite Hh.
        -- by rewrite Hh.
        -- by rewrite Hh.
        -- by rewrite Hh, Hids.
        -- by rewrite Hh, Hids.
        -- exists w'. by rewrite Hh', Hh in *.
    + (* delete_task *)
      cbn [added omap list_omap] in Hadd, Hfresh.
      change (list_omap ?f ?l) with (omap f l) in Hadd, Hfresh.
      fold (added os) in Hadd, Hfresh.
      destruct (delete_task_run task_id w Hlive) as (w1 & Hrun & Hs & Hh).
      run Hrun.
      assert (id_at (heap w) <$> self_tasks w1
              `sublist_of` id_at (heap w) <$> self_tasks w) as Hsub.
      { rewrite Hs. apply fmap_sublist, sublist_filter. }
      destruct (IH w1) as (w' & Hrun' & Hh' & Hlive' & Hnd').
      * rewrite Hs. apply Forall_forall.
        intros y [_ Hy]%list_elem_of_filter. unfold live. rewrite Hh.
        by apply (proj1 (Forall_forall _ _) Hlive).
      * by rewrite Hh.
      * by rewrite Hh.
      * by rewrite Hh.
      * rewrite Hh. by eapply sublist_NoDup.
      * rewrite Hh. intros y Hy. apply Hfresh.
        by eapply elem_of_sublist.
      * exists w'. by rewrite Hh', Hh in *.
Qed.

(** C9, as amended: start from an empty store and run any sequence of
    [add_task], [update_task] and [delete_task] in which the added records
    carry pairwise distinct ids and every [update_task(task_id, t)] is given
    a record [t] whose own id is [task_id]; then no two records in the
    store share an id. *)
Theorem store_ids_unique os w :
  self_tasks w = [] →
  Forall (op_live (heap w)) os →
  NoDup (id <$> contents (heap w) (added os)) →
  Forall (op_keeps_id (heap w)) os →
  ∃ w', run_ops os w = (Return (), w') ∧ NoDup (stored_ids w').
Proof.
  intros Hempty Hops Hadd Hkeep.
  assert (Forall (λ x, is_Some (heap w !! x)) (added os)) as Hadded.
  { clear -Hops. induction Hops as [|o os Ho _ IH]; [constructor|].
    destruct o; cbn; try done. by constructor. }
  destruct (run_ops_unique os w) as (w' & Hrun & Hh & Hlive & Hnd).
  - rewrite Hempty. constructor.
  - done.
  - done.
  - rewrite (id_at_contents _ _ Hadded). by apply (NoDup_fmap_2 Some).
  - rewrite Hempty. constructor.
  - rewrite Hempty. by intros x ?%elem_of_nil.
  - exists w'. split; [done|].
    rewrite (id_at_contents _ _ Hlive) in Hnd.
    by apply (NoDup_fmap_1 Some) in Hnd.
Qed.

Lemma store_ids_unique_witness :
  ∃ w',
    run_ops [Add 0%nat; Add 1%nat; Update "1" 0%nat; Delete "2"; Add 2%nat]
            (with_self_tasks [] world_ab) = (Return (), w') ∧
    NoDup (stored_ids w').
Proof.
  apply store_ids_unique.
  - reflexivity.
  - repeat constructor; by eexists.
  - by apply (bool_decide_unpack _).
  - repeat constructor.
Defined.

(** C9 as stated fails: the added records have the distinct ids "1" and
    "2", and an update of "1" with a record whose id is "2" leaves two
    stored records with the id "2". *)
Lemma store_ids_unique_counterexample :
  let os := [Add 0%nat; Add 1%nat; Update "1" 3%nat] in
  let w := with_self_tasks [] world_ab in
  self_tasks w = [] ∧
  Forall (op_live (heap w)) os ∧
  NoDup (id <$> contents (heap w) (added os)) ∧
  (run_ops os w).1 = Return () ∧
  stored_ids (run_ops os w).2 = ["2"; "2"] ∧
  ¬ NoDup (stored_ids (run_ops os w).2).
Proof.
  cbv zeta. split; [reflexivity|].
  split; [repeat constructor; by eexists|].
  split; [by apply (bool_decide_unpack _)|].
  split; [vm_compute; reflexivity|].
  assert (stored_ids
            (run_ops [Add 0%nat; Add 1%nat; Update "1" 3%nat]
                     (with_self_tasks [] world_ab)).2 = ["2"; "2"]) as ->
    by (vm_compute; reflexivity).
  split; [reflexivity|].
  intros [Hin _]%NoDup_cons. apply Hin. by left.
Qed.

(** *** Copies and shared records *)

Lemma find_copy_run task_id tasks : ∀ w c w',
  find_copy task_id tasks w = (Return (Some c), w') →
  ∃ t, c = next w ∧ next w' = S (next w) ∧
       heap w' = <[c := t]> (heap w) ∧ self_tasks w' = self_tasks w.
Proof.
  induction tasks as [|x tasks IH]; intros w c w' Hrun; [done|].
  cbn [find_copy] in Hrun. rewrite bind_unfold in Hrun.
  unfold deref at 1 in Hrun. destruct (heap w !! x) as [t|]; [|done].
  case_bool_decide.
  - injection Hrun as <- <-. by exists t.
  - by apply IH.
Qed.

(** A record obtained from [get_task_by_id] is a new object: assigning to
    its keys changes no record of the store.  (The store allocates its
    objects below [next], which is what the hypothesis says.) *)
Lemma get_task_by_id_copy task_id f w c w' :
  Forall (λ l, (l < next w)%nat) (self_tasks w) →
  get_task_by_id task_id w = (Return (Some c), w') →
  ∃ w'',
    setitem c f w' = (Return (), w'') ∧
    self_tasks w'' = self_tasks w ∧
    contents (heap w'') (self_tasks w'') = contents (heap w) (self_tasks w).
Proof.
  intros Hlt Hrun. unfold get_task_by_id in Hrun.
  rewrite bind_unfold in Hrun. cbn in Hrun.
  apply find_copy_run in Hrun as (t & -> & Hn & Hh & Hs).
  assert (heap w' !! next w = Some t) as Hc
    by (rewrite Hh; apply lookup_insert_eq).
  eexists. split; [by apply setitem_Some|]. cbn. split; [done|].
  rewrite Hs, Hh, insert_insert_eq. unfold contents.
  revert Hlt. generalize (self_tasks w). intros l Hlt.
  induction Hlt as [|x l Hx _ IH]; [done|]. cbn.
  rewrite lookup_insert_ne by lia. by rewrite IH.
Qed.

(** The records [get_all_tasks] returns are the stored objects
    themselves: an assignment to one of them, with no call of
    [update_task], changes the stored record and what later reads
    return.  C4 says it does not. *)
Theorem get_all_tasks_shares_records :
  (read_status "1" world_ab).1 = Return (Some "pending") ∧
  ((complete_first_listed ;; read_status "1") world_ab).1
    = Return (Some "completed") ∧
  contents (heap world_ab) (self_tasks world_ab) = [task_a; task_b] ∧
  (let w' := (complete_first_listed world_ab).2 in
   contents (heap w') (self_tasks w')
     = [set_status "completed" task_a; task_b]).
Proof. repeat split; vm_compute; reflexivity. Qed.

End storage.

(** ** ReminderAgent *)

Section reminders.

Import ReminderAgent.

Lemma reminder_for_set now r t :
  reminder_for now (set_reminder_type r t) = reminder_for now t.
Proof. reflexivity. Qed.

Lemma remind_idemp now t : remind now (remind now t) = remind now t.
Proof.
  unfold remind. destruct (reminder_for now t) as [r|] eqn:E.
  - by rewrite reminder_for_set, E.
  - by rewrite E.
Qed.

Lemma alter_Some {V} (h : gmap loc V) l (f : V → V) v :
  h !! l = Some v → <[l := f v]> h = alter f l h.
Proof.
  intros H. apply map_eq. intros x.
  rewrite lookup_insert, lookup_alter. case_decide; [|done].
  subst x. by rewrite H.
Qed.

(** Applying an idempotent change to the objects of a list, one after the
    other, changes each of them once and no other object. *)
Lemma foldl_alter_lookup {V} (f : V → V) (ls : list loc) :
  ∀ (h : gmap loc V) x,
  (∀ v, f (f v) = f v) →
  foldl (λ h l, alter f l h) h ls !! x =
  if decide (x ∈ ls) then f <$> h !! x else h !! x.
Proof.
  induction ls as [|l ls IH]; intros h x Hf.
  - by rewrite decide_False by apply not_elem_of_nil.
  - cbn [foldl]. rewrite IH by done. rewrite lookup_alter.
    destruct (decide (l = x)) as [->|Hne].
    + rewrite (decide_True (P := x ∈ x :: ls)) by (by left).
      case_decide; [|done].
      destruct (h !! x); cbn; [|done]. by rewrite Hf.
    + destruct (decide (x ∈ ls)) as [Hin|Hnin].
      * by rewrite decide_True by (by right).
      * rewrite decide_False; [done|].
        by intros [->|?]%elem_of_cons.
Qed.

(** Membership in a list of live objects only reads. *)
Lemma list_contains_run rs x w :
  Forall (live w) rs → live w x →
  ∃ b, list_contains rs x w = (Return b, w).
Proof.
  intros Hrs [tx Hx]. induction Hrs as [|y rs [ty Hy] _ IH].
  - by exists false.
  - cbn [list_contains]. case_bool_decide; [by exists true|].
    run (deref_Some _ _ _ Hy).
    run (deref_Some _ _ _ Hx).
    case_bool_decide; [by exists true|done].
Qed.

Lemma live_insert w l t x :
  live w x → live (with_heap (<[l := t]> (heap w)) (next w) w) x.
Proof.
  intros Hx. unfold live. cbn.
  rewrite lookup_insert. by case_decide.
Qed.

(** The inner loop sets the class of the first matching threshold, if
    there is one, and appends the record at most once. *)
Lemma scan_thresholds_run l t d thresholds : ∀ rs w,
  heap w !! l = Some t →
  Forall (live w) rs →
  ∃ rs' w',
    scan_thresholds l d rs thresholds w = (Return rs', w') ∧
    heap w' = <[l := match first_threshold d thresholds with
                     | Some r => set_reminder_type r t
                     | None => t
                     end]> (heap w) ∧
    (rs' = rs ∨ rs' = rs ++ [l]).
Proof.
  induction thresholds as [|threshold thresholds IH]; intros rs w Ht Hrs.
  - exists rs, w. cbn. rewrite insert_id by done. eauto.
  - cbn [scan_thresholds first_threshold].
    destruct (d <=? threshold); [|by apply IH].
    run (setitem_Some _ _ _ _ Ht).
    set (w1 := with_heap _ _ w).
    destruct (list_contains_run rs l w1) as [seen Hseen].
    + eapply Forall_impl; [exact Hrs|]. intros x. by apply live_insert.
    + eexists. apply lookup_insert_eq.
    + run Hseen.
      eexists _, w1. split; [reflexivity|]. split; [done|].
      destruct seen; eauto.
Qed.

(** One round of the outer loop. *)
Lemma check_task_run now rs l t w :
  heap w !! l = Some t →
  Forall (live w) rs →
  ∃ rs' w',
    check_task now rs l w = (Return rs', w') ∧
    heap w' = alter (remind now) l (heap w) ∧
    (rs' = rs ∨ rs' = rs ++ [l]) ∧
    (reminder_for now t = Some overdue → rs' = rs ++ [l]).
Proof.
  intros Ht Hrs. unfold check_task.
  run (deref_Some _ _ _ Ht).
  rewrite <- (alter_Some _ _ _ _ Ht).
  unfold remind, reminder_for. case_bool_decide.
  - exists rs, w. rewrite insert_id by done.
    repeat split; try done. by left.
  - destruct (Time.negative (due_date t - now)) eqn:Hneg.
    + run (setitem_Some _ _ _ _ Ht).
      eexists _, _. split; [reflexivity|].
      repeat split; try done. by right.
    + destruct (scan_thresholds_run l t (due_date t - now)
                  (default [Time.minutes 30]
                     (reminder_thresholds !! priority t)) rs w Ht Hrs)
        as (rs' & w' & Hrun & Hh & Hrs').
      exists rs', w'. repeat split; try done.
      (* a threshold class is never the overdue class *)
      intros Hov. exfalso. clear -Hov.
      induction (default [Time.minutes 30]
                   (reminder_thresholds !! priority t)) as [|th ths IH];
        [done|].
      cbn in Hov. destruct (_ <=? th); [|by apply IH].
      injection Hov. unfold due_in, overdue. cbn. discriminate.
Qed.

Lemma reminder_for_remind now t :
  reminder_for now (remind now t) = reminder_for now t.
Proof.
  unfold remind. destruct (reminder_for now t) as [r|] eqn:E; [|done].
  by rewrite reminder_for_set.
Qed.

Lemma live_alter w w' (f : task → task) l x :
  heap w' = alter f l (heap w) → live w x → live w' x.
Proof.
  unfold live. intros -> Hx. by rewrite lookup_alter_is_Some.
Qed.

(** The outer loop: every record is reclassified, the list only grows, and
    every overdue record is in it. *)
Lemma check_tasks_run now tasks : ∀ rs w,
  Forall (live w) tasks →
  Forall (live w) rs →
  ∃ rs' w',
    check_tasks now rs tasks w = (Return rs', w') ∧
    heap w' = foldl (λ h l, alter (remind now) l h) (heap w) tasks ∧
    (∀ x, x ∈ rs → x ∈ rs') ∧
    (∀ l t, l ∈ tasks → heap w !! l = Some t →
            reminder_for now t = Some overdue → l ∈ rs').
Proof.
  induction tasks as [|task tasks IH]; intros rs w Htasks Hrs.
  - exists rs, w. repeat split; try done. by intros l t ?%elem_of_nil.
  - apply Forall_cons in Htasks as [[t Ht] Htasks].
    destruct (check_task_run now rs task t w Ht Hrs)
      as (rs1 & w1 & Hrun & Hh & Hrs1 & Hover).
    cbn [check_tasks]. run Hrun.
    assert (∀ x, live w x → live w1 x) as Hlive
      by (intros x; by apply (live_alter w w1 (remind now) task)).
    destruct (IH rs1 w1) as (rs' & w' & Hrun' & Hh' & Hmono & Hover').
    { eapply Forall_impl; [exact Htasks|]. exact Hlive. }
    { destruct Hrs1 as [->| ->].
      - eapply Forall_impl; [exact Hrs|]. exact Hlive.
      - apply Forall_app. split.
        + eapply Forall_impl; [exact Hrs|]. exact Hlive.
        + constructor; [|constructor]. apply Hlive. by exists t. }
    exists rs', w'. split; [done|]. split; [by rewrite Hh', Hh|].
    split.
    + intros x Hx. apply Hmono.
      destruct Hrs1 as [->| ->]; [done|]. apply elem_of_app. by left.
    + intros l t0 Hl Ht0 Hclass.
      destruct (decide (l = task)) as [->|Hne].
      * assert (t0 = t) as -> by congruence.
        apply Hmono. rewrite (Hover Hclass). apply elem_of_app.
        right. by left.
      * apply elem_of_cons in Hl as [?|Hl]; [done|].
        apply (Hover' l t0 Hl); [|done].
        rewrite Hh. by rewrite lookup_alter_ne.
Qed.

Lemma check_reminders_run tasks w :
  Forall (live w) tasks →
  ∃ rs w',
    check_reminders tasks w = (Return rs, w') ∧
    (∀ l t, l ∈ tasks → heap w !! l = Some t →
       heap w' !! l = Some (remind (clock w (ticks w)) t)) ∧
    (∀ l, l ∉ tasks → heap w' !! l = heap w !! l) ∧
    (∀ l t, l ∈ tasks → heap w !! l = Some t →
       reminder_for (clock w (ticks w)) t = Some overdue → l ∈ rs).
Proof.
  intros Htasks. unfold check_reminders.
  rewrite bind_unfold. cbn [datetime_now].
  set (now := clock w (ticks w)).
  destruct (check_tasks_run now tasks [] (with_ticks (S (ticks w)) w))
    as (rs & w' & Hrun & Hh & _ & Hover); [done|constructor|].
  exists rs, w'. split; [done|]. cbn in Hh. repeat split.
  - intros l t Hl Ht. rewrite Hh.
    rewrite foldl_alter_lookup by apply remind_idemp.
    rewrite decide_True by done. by rewrite Ht.
  - intros l Hl. rewrite Hh.
    rewrite foldl_alter_lookup by apply remind_idemp.
    by rewrite decide_False by done.
  - exact Hover.
Qed.

Lemma thresholds_High :
  default [Time.minutes 30] (reminder_thresholds !! "High")
  = [Time.hours 2; Time.hours 1; Time.minutes 30].
Proof. reflexivity. Qed.

Lemma first_threshold_head d threshold thresholds :
  d ≤ threshold →
  first_threshold d (threshold :: thresholds) = Some (due_in threshold).
Proof.
  intros Hle. cbn [first_threshold].
  by rewrite (proj2 (Z.leb_le _ _)) by done.
Qed.

Lemma due_in_2h : due_in (Time.hours 2) = "due_in_2:00:00".
Proof. by vm_compute. Qed.

Lemma reminder_for_High now t :
  status t ≠ "completed" →
  priority t = "High" →
  0 ≤ due_date t - now →
  reminder_for now t =
  if bool_decide (due_date t - now ≤ Time.hours 2)
  then Some (due_in (Time.hours 2)) else None.
Proof.
  intros Hstatus Hprio Hlo. unfold reminder_for.
  rewrite bool_decide_eq_false_2 by done.
  unfold Time.negative. rewrite (proj2 (Z.ltb_ge _ _)) by lia.
  rewrite Hprio, thresholds_High. case_bool_decide as Hhi.
  - by rewrite first_threshold_head by lia.
  - cbn [first_threshold].
    assert (Time.hours 1 < Time.hours 2 ∧ Time.minutes 30 < Time.hours 2)
      as [H1 H30] by (by vm_compute).
    by rewrite !(proj2 (Z.leb_gt _ _)) by lia.
Qed.

(** C1: what [check_reminders] does to a record of its input that is not
    completed.  With priority High and a due date that has not passed, the
    record gets the [reminder_type] "due_in_2:00:00" as soon as the time
    left does not exceed 2 hours, and is left as it was otherwise: the
    thresholds [2h, 1h, 30min] are tried in this order and the first one
    that the time left does not exceed decides, so the classes of 1 hour
    and of 30 minutes are never given to a record of priority High; a
    record due in 25 minutes gets "due_in_2:00:00".  With a due date
    strictly in the past the record gets the [reminder_type] "overdue",
    whatever its priority, and is in the returned list. *)
Theorem check_reminders_classes tasks w l t :
  Forall (live w) tasks →
  l ∈ tasks →
  heap w !! l = Some t →
  status t ≠ "completed" →
  ∃ rs w' t',
    check_reminders tasks w = (Return rs, w') ∧
    heap w' !! l = Some t' ∧
    let time_until_due := due_date t - clock w (ticks w) in
    (priority t = "High" → 0 ≤ time_until_due ≤ Time.hours 2 →
     reminder_type t' = Some "due_in_2:00:00") ∧
    (priority t = "High" → Time.hours 2 < time_until_due → t' = t) ∧
    (time_until_due < 0 →
     reminder_type t' = Some "overdue" ∧ l ∈ rs).
Proof.
  intros Htasks Hl Ht Hstatus.
  destruct (check_reminders_run tasks w Htasks)
    as (rs & w' & Hrun & Hin & _ & Hover).
  exists rs, w', (remind (clock w (ticks w)) t).
  split; [done|]. split; [by apply Hin|]. cbv zeta.
  unfold remind. split; [|split].
  - intros Hprio [Hlo Hhi].
    rewrite (reminder_for_High _ _ Hstatus Hprio Hlo).
    rewrite bool_decide_eq_true_2 by done. cbn [reminder_type
      set_reminder_type]. by rewrite due_in_2h.
  - intros Hprio Hhi.
    assert (Time.hours 2 = 7200000000) as Hh by reflexivity.
    rewrite (reminder_for_High _ _ Hstatus Hprio) by lia.
    by rewrite bool_decide_eq_false_2 by lia.
  - intros Hneg.
    assert (reminder_for (clock w (ticks w)) t = Some overdue) as Hclass.
    { unfold reminder_for. rewrite bool_decide_eq_false_2 by done.
      unfold Time.negative. by rewrite (proj2 (Z.ltb_lt _ _)) by lia. }
    rewrite Hclass. split; [done|]. by apply (Hover l t).
Qed.

(** The record of [world_rem] that is due in 25 minutes with priority High
    gets the class of the 2 hour threshold, not that of the 30 minute
    one. *)
Lemma check_reminders_classes_witness :
  status task_soon ≠ "completed" ∧
  priority task_soon = "High" ∧
  due_date task_soon - clock world_rem (ticks world_rem) = Time.minutes 25 ∧
  ∃ rs w' t',
    check_reminders [0%nat; 1%nat] world_rem = (Return rs, w') ∧
    heap w' !! 0%nat = Some t' ∧
    reminder_type t' = Some "due_in_2:00:00" ∧
    reminder_type t' ≠ Some "due_in_0:30:00".
Proof.
  split; [discriminate|]. split; [reflexivity|].
  split; [by vm_compute|].
  destruct (check_reminders_classes [0%nat; 1%nat] world_rem 0%nat task_soon)
    as (rs & w' & t' & Hrun & Ht' & Hsoon & _).
  - repeat constructor; by eexists.
  - by left.
  - reflexivity.
  - discriminate.
  - assert (reminder_type t' = Some "due_in_2:00:00") as Hclass.
    { apply Hsoon; [reflexivity|]. vm_compute. split; discriminate. }
    exists rs, w', t'. split; [exact Hrun|]. split; [exact Ht'|].
    split; [exact Hclass|]. rewrite Hclass. discriminate.
Defined.

End reminders.

(** ** SchedulerAgent: [optimize_schedule] *)

Section optimizer.

Import SchedulerAgent.

Lemma priority_score_cases t :
  (priority t = "High" → priority_score t = 3) ∧
  (priority t = "Medium" → priority_score t = 2) ∧
  (priority t = "Low" → priority_score t = 1).
Proof. unfold priority_score. by repeat split; intros ->. Qed.

Lemma priority_scores_keys p :
  p ∈ ["High"; "Medium"; "Low"] → is_Some (priority_scores !! p).
Proof.
  rewrite !elem_of_cons, elem_of_nil.
  intros [->|[->|[->|[]]]]; by eexists.
Qed.

Lemma rescore_rescore now now' t :
  rescore now (rescore now' t) = rescore now t.
Proof. reflexivity. Qed.

(** One round of the scoring loop: one reading of the clock, one score. *)
Lemma score_task_run l t w :
  heap w !! l = Some t →
  is_Some (priority_scores !! priority t) →
  score_task l w =
  (Return (),
   with_heap (alter (rescore (clock w (ticks w))) l (heap w)) (next w)
     (with_ticks (S (ticks w)) w)).
Proof.
  intros Ht [v Hv]. unfold score_task.
  run (deref_Some _ _ _ Ht).
  rewrite bind_unfold. cbn [datetime_now].
  unfold priority_scores_getitem. rewrite Hv.
  rewrite bind_unfold, ret_unfold.
  rewrite <- (alter_Some _ _ _ _ Ht).
  unfold setitem. cbn [heap with_ticks]. rewrite Ht.
  unfold rescore, urgency, days_until_due, priority_score, Time.days.
  by rewrite Hv.
Qed.

(** A pending record whose priority is none of the three keys stops the
    loop with a [KeyError], after the clock was read. *)
Lemma score_task_unknown_priority l t w :
  heap w !! l = Some t →
  priority_scores !! priority t = None →
  score_task l w
    = (Raise (KeyError (priority t)), with_ticks (S (ticks w)) w).
Proof.
  intros Ht Hp. unfold score_task.
  run (deref_Some _ _ _ Ht).
  rewrite bind_unfold. cbn [datetime_now].
  unfold priority_scores_getitem. by rewrite Hp.
Qed.

Lemma scorable_alter now l h x :
  scorable h x → scorable (alter (rescore now) l h) x.
Proof.
  intros (t & Ht & Hp). unfold scorable. rewrite lookup_alter.
  case_decide.
  - subst x. rewrite Ht. by exists (rescore now t).
  - by exists t.
Qed.

Lemma for_each_score_run ls : ∀ w,
  Forall (scorable (heap w)) ls →
  ∃ w',
    for_each ls score_task w = (Return (), w') ∧
    heap w' = scored (clock w) (ticks w) ls (heap w) ∧
    clock w' = clock w ∧
    ticks w' = (ticks w + length ls)%nat.
Proof.
  induction ls as [|l ls IH]; intros w Hls.
  - exists w. cbn. repeat split; try done.
  - apply Forall_cons in Hls as [(t & Ht & Hp) Hls].
    cbn [for_each].
    run (score_task_run _ _ _ Ht Hp).
    set (w1 := with_heap _ _ _).
    destruct (IH w1) as (w' & Hrun & Hh & Hc & Hk).
    { eapply Forall_impl; [exact Hls|]. intros x. apply scorable_alter. }
    exists w'. split; [done|]. rewrite Hh, Hc, Hk. cbn.
    repeat split; try done; lia.
Qed.

Lemma scored_lookup_notin clock ls : ∀ n h x,
  x ∉ ls → scored clock n ls h !! x = h !! x.
Proof.
  induction ls as [|l ls IH]; intros n h x Hx; [done|].
  cbn [scored]. apply not_elem_of_cons in Hx as [Hne Hx].
  rewrite IH by done. by rewrite lookup_alter_ne.
Qed.

(** A record of the list carries the score of one of the readings taken
    during the loop (the last one taken for it). *)
Lemma scored_lookup_in clock ls : ∀ n h x t,
  x ∈ ls →
  h !! x = Some t →
  ∃ k, (k < length ls)%nat ∧
       scored clock n ls h !! x = Some (rescore (clock (n + k)%nat) t).
Proof.
  induction ls as [|l ls IH]; intros n h x t Hx Ht.
  - by apply elem_of_nil in Hx.
  - cbn [scored]. destruct (decide (x ∈ ls)) as [Hin|Hnin].
    + destruct (decide (l = x)) as [->|Hne].
      * destruct (IH (S n) (alter (rescore (clock n)) x h) x
                    (rescore (clock n) t) Hin) as (k & Hk & Hlook).
        { by rewrite lookup_alter_eq, Ht. }
        exists (S k). split; [cbn; lia|].
        rewrite Hlook, rescore_rescore.
        by replace (S n + k)%nat with (n + S k)%nat by lia.
      * destruct (IH (S n) (alter (rescore (clock n)) l h) x t Hin)
          as (k & Hk & Hlook).
        { by rewrite lookup_alter_ne. }
        exists (S k). split; [cbn; lia|]. rewrite Hlook.
        by replace (S n + k)%nat with (n + S k)%nat by lia.
    + apply elem_of_cons in Hx as [->|Hx]; [|done].
      exists 0%nat. split; [cbn; lia|].
      rewrite scored_lookup_notin by done.
      by rewrite lookup_alter_eq, Ht, Nat.add_0_r.
Qed.

Lemma scored_live clock ls : ∀ n h x,
  is_Some (scored clock n ls h !! x) ↔ is_Some (h !! x).
Proof.
  induction ls as [|l ls IH]; intros n h x; [done|].
  cbn [scored]. by rewrite IH, lookup_alter_is_Some.
Qed.

Lemma decorate_run ls w :
  Forall (live w) ls →
  decorate ls w = (Return ((λ l, (sort_key (heap w) l, l)) <$> ls), w).
Proof.
  induction 1 as [|x ls [t Ht] _ IH]; [done|].
  cbn [decorate].
  run (deref_Some _ _ _ Ht).
  run IH.
  rewrite fmap_cons. unfold sort_key at 2. by rewrite Ht.
Qed.

(** *** The sort: a stable sort by decreasing key *)

Section sort.

Context {A : Type}.
Implicit Types (x y : Z * A) (l : list (Z * A)).

Lemma insert_desc_perm x l : insert_desc x l ≡ₚ x :: l.
Proof.
  induction l as [|y l IH]; [done|]. cbn [insert_desc].
  destruct (x.1 <? y.1); [|done].
  rewrite IH. apply Permutation_swap.
Qed.

Lemma sort_desc_perm l : sort_desc l ≡ₚ l.
Proof.
  induction l as [|x l IH]; [done|]. cbn [sort_desc].
  by rewrite insert_desc_perm, IH.
Qed.

Lemma insert_desc_sorted x l :
  Sorted key_ge l → Sorted key_ge (insert_desc x l).
Proof.
  induction 1 as [|y l Hl IH Hhd]; cbn [insert_desc].
  - by repeat constructor.
  - destruct (x.1 <? y.1) eqn:Hlt.
    + apply Z.ltb_lt in Hlt. constructor; [done|].
      destruct l as [|z l]; cbn [insert_desc].
      * constructor. unfold key_ge. lia.
      * destruct (x.1 <? z.1).
        -- constructor. by inversion Hhd.
        -- constructor. unfold key_ge. lia.
    + apply Z.ltb_ge in Hlt. constructor; [by constructor|].
      by constructor.
Qed.

Lemma sort_desc_sorted l : Sorted key_ge (sort_desc l).
Proof.
  induction l as [|x l IH]; [constructor|].
  cbn [sort_desc]. by apply insert_desc_sorted.
Qed.

Lemma insert_desc_stable k x l :
  filter (λ y, y.1 = k) (insert_desc x l) = filter (λ y, y.1 = k) (x :: l).
Proof.
  induction l as [|y l IH]; [done|]. cbn [insert_desc].
  destruct (x.1 <? y.1) eqn:Hlt; [|done].
  apply Z.ltb_lt in Hlt.
  rewrite (filter_cons _ y), IH, !filter_cons.
  repeat case_decide; done || lia.
Qed.

(** Records with the same key leave the sort in the order they entered
    it. *)
Lemma sort_desc_stable k l :
  filter (λ y, y.1 = k) (sort_desc l) = filter (λ y, y.1 = k) l.
Proof.
  induction l as [|x l IH]; [done|]. cbn [sort_desc].
  by rewrite insert_desc_stable, !filter_cons, IH.
Qed.

End sort.

(** The local list [pending_tasks] does end up sorted: it is the pending
    records, stably sorted by decreasing score. *)
Lemma optimize_schedule_locals_run tasks w :
  Forall (live w) tasks →
  Forall (scorable (heap w)) (filter (is_pending (heap w)) tasks) →
  ∃ keyed w',
    optimize_schedule_locals tasks w
      = (Return ((sort_desc keyed).*2, tasks), w') ∧
    keyed = (λ l, (sort_key (heap w') l, l))
              <$> filter (is_pending (heap w)) tasks ∧
    heap w' = scored (clock w) (ticks w)
                (filter (is_pending (heap w)) tasks) (heap w).
Proof.
  intros Hlive Hscorable. unfold optimize_schedule_locals.
  rewrite (bind_return _ _ _ _ _
             (comprehension_if_run
                (λ t, bool_decide (status t = "pending")) _ _ Hlive)).
  change (filter _ tasks) with (filter (is_pending (heap w)) tasks).
  set (pending := filter (is_pending (heap w)) tasks) in *.
  destruct (for_each_score_run pending w Hscorable)
    as (w1 & Hrun & Hh & _ & _).
  run Hrun.
  assert (Forall (live w1) pending) as Hlive1.
  { apply Forall_forall. intros x Hx. unfold live. rewrite Hh.
    apply scored_live.
    apply list_elem_of_filter in Hx as [_ Hx].
    by apply (proj1 (Forall_forall _ _) Hlive). }
  run (decorate_run pending w1 Hlive1).
  by eexists _, w1.
Qed.

(** [optimize_schedule] returns the list it was given, in the order it was
    given. *)
Lemma optimize_schedule_run tasks w :
  Forall (live w) tasks →
  Forall (scorable (heap w)) (filter (is_pending (heap w)) tasks) →
  ∃ w',
    optimize_schedule tasks w = (Return tasks, w') ∧
    heap w' = scored (clock w) (ticks w)
                (filter (is_pending (heap w)) tasks) (heap w).
Proof.
  intros Hlive Hscorable. unfold optimize_schedule.
  destruct (optimize_schedule_locals_run tasks w Hlive Hscorable)
    as (keyed & w' & Hrun & _ & Hh).
  run Hrun. by exists w'.
Qed.

(** C5: [optimize_schedule] gives every pending record of its input the
    [optimization_score] urgency + priority_score, where
    urgency = max(1, 5 - days_until_due), days_until_due is
    (due_date - now) divided by one day and rounded down, [now] being the
    reading of the clock taken for that record during the call, and
    priority_score is 3, 2, 1 for High, Medium, Low; a record that is not
    pending, or not in the input, is left as it was.  The input records
    are live objects and the pending ones have one of the three
    priorities. *)
Theorem optimize_schedule_scores tasks w :
  Forall (live w) tasks →
  (∀ l t, l ∈ tasks → heap w !! l = Some t → status t = "pending" →
          priority t ∈ ["High"; "Medium"; "Low"]) →
  ∃ w',
    optimize_schedule tasks w = (Return tasks, w') ∧
    (∀ l t, l ∈ tasks → heap w !! l = Some t → status t = "pending" →
       ∃ k priority_score,
         (k < length tasks)%nat ∧
         (priority t = "High" → priority_score = 3) ∧
         (priority t = "Medium" → priority_score = 2) ∧
         (priority t = "Low" → priority_score = 1) ∧
         let now := clock w (ticks w + k)%nat in
         let days_until_due := (due_date t - now) `div` Time.day in
         let urgency := Z.max 1 (5 - days_until_due) in
         ∃ t',
           heap w' !! l = Some t' ∧
           optimization_score t' = Some (urgency + priority_score) ∧
           t' = set_optimization_score (urgency + priority_score) t) ∧
    (∀ l t, heap w !! l = Some t → status t ≠ "pending" →
            heap w' !! l = Some t) ∧
    (∀ l, l ∉ tasks → heap w' !! l = heap w !! l).
Proof.
  intros Hlive Hprio.
  set (pending := filter (is_pending (heap w)) tasks).
  assert (∀ l, l ∈ pending ↔
               l ∈ tasks ∧ ∃ t, heap w !! l = Some t ∧ status t = "pending")
    as Hpending.
  { intros l. unfold pending. rewrite list_elem_of_filter.
    unfold is_pending. split.
    - intros [Hp Hl]. split; [done|].
      destruct (heap w !! l) as [t|]; [|done].
      exists t. split; [done|]. by apply bool_decide_unpack in Hp.
    - intros [Hl (t & Ht & Hs)]. split; [|done].
      rewrite Ht. cbn. by apply bool_decide_pack. }
  destruct (optimize_schedule_run tasks w Hlive) as (w' & Hrun & Hh).
  { apply Forall_forall. intros l [Hl (t & Ht & Hs)]%Hpending.
    exists t. split; [done|]. apply priority_scores_keys. eauto. }
  exists w'. split; [done|]. fold pending in Hh. repeat split.
  - intros l t Hl Ht Hs.
    destruct (scored_lookup_in (clock w) pending (ticks w) (heap w) l t)
      as (k & Hk & Hlook); [apply Hpending; eauto|done|].
    exists k, (priority_score t).
    pose proof (priority_score_cases t) as (H3 & H2 & H1).
    repeat split; try done.
    + pose proof (length_filter (is_pending (heap w)) tasks).
      unfold pending in Hk. lia.
    + cbv zeta. eexists. split; [by rewrite Hh, Hlook|]. by split.
  - intros l t Ht Hs. rewrite Hh, scored_lookup_notin; [done|].
    intros [_ (t' & Ht' & Hs')]%Hpending. congruence.
  - intros l Hl. rewrite Hh, scored_lookup_notin; [done|].
    by intros [? _]%Hpending.
Qed.

Lemma optimize_schedule_scores_witness :
  ∃ w',
    optimize_schedule [1%nat; 0%nat] world_ab
      = (Return [1%nat; 0%nat], w') ∧
    (heap w' !! 0%nat ≫= optimization_score) = Some 5 ∧
    (heap w' !! 1%nat ≫= optimization_score) = Some 4 ∧
    heap w' !! 0%nat = Some (set_optimization_score 5 task_a) ∧
    heap w' !! 1%nat = Some (set_optimization_score 4 task_b).
Proof.
  destruct (optimize_schedule_scores [1%nat; 0%nat] world_ab)
    as (w' & Hrun & Hscore & _).
  - repeat constructor; by eexists.
  - intros l t Hl Ht _.
    apply elem_of_cons in Hl as [->|Hl];
      [|apply list_elem_of_singleton in Hl as ->];
      injection Ht as <-; by apply (bool_decide_unpack _).
  - destruct (Hscore 0%nat task_a)
      as (ka & psa & _ & _ & _ & Hlow & ta & Hta & Hsa & Hea);
      [by right; left|reflexivity|reflexivity|].
    destruct (Hscore 1%nat task_b)
      as (kb & psb & _ & Hhigh & _ & _ & tb & Htb & Hsb & Heb);
      [by left|reflexivity|reflexivity|].
    cbv zeta in Hsa, Hea, Hsb, Heb.
    rewrite (Hlow eq_refl) in Hsa, Hea.
    rewrite (Hhigh eq_refl) in Hsb, Heb.
    exists w'. split; [exact Hrun|].
    split; [exact (eq_trans (f_equal (λ o, o ≫= optimization_score) Hta)
                     Hsa)|].
    split; [exact (eq_trans (f_equal (λ o, o ≫= optimization_score) Htb)
                     Hsb)|].
    split; [exact (eq_trans Hta (f_equal Some Hea))|].
    exact (eq_trans Htb (f_equal Some Heb)).
Defined.

(** The scenario of C2 with the two records given in the order B, A:
    B (due in 4 days, High) is scored 4 and A (due in 1 day, Low) is
    scored 5; the local list [pending_tasks] ends as A, B, and the list
    [optimize_schedule] returns is still B, A. *)
Theorem optimize_schedule_keeps_input_order :
  let run := optimize_schedule_locals [1%nat; 0%nat] world_ab in
  run.1 = Return ([0%nat; 1%nat], [1%nat; 0%nat]) ∧
  (optimize_schedule [1%nat; 0%nat] world_ab).1 = Return [1%nat; 0%nat] ∧
  contents (heap run.2) [1%nat; 0%nat]
    = [set_optimization_score 4 task_b; set_optimization_score 5 task_a].
Proof. repeat split; vm_compute; reflexivity. Qed.

End optimizer.

(** * More of the store *)

Section storage_queries.

Import TaskStorage.

Lemma find_copy_absent task_id tasks w :
  Forall (λ l, ∃ t, heap w !! l = Some t ∧ id t ≠ task_id) tasks →
  find_copy task_id tasks w = (Return None, w).
Proof.
  induction 1 as [|x l (t & Ht & Hid) _ IH]; [done|].
  cbn [find_copy]. run (deref_Some _ _ _ Ht).
  by rewrite bool_decide_eq_false_2.
Qed.

Lemma find_copy_first task_id tasks : ∀ k l t w,
  first_with_id (heap w) task_id tasks k l t →
  find_copy task_id tasks w =
  (Return (Some (next w)),
   with_heap (<[next w := t]> (heap w)) (S (next w)) w).
Proof.
  induction tasks as [|x tasks IH]; intros k l t w (Hk & Ht & Hid & Hfirst).
  - done.
  - cbn [find_copy]. destruct k as [|k].
    + injection Hk as ->. run (deref_Some _ _ _ Ht).
      by rewrite bool_decide_eq_true_2.
    + destruct (Hfirst 0%nat x) as (t' & Ht' & Hid'); [lia|done|].
      run (deref_Some _ _ _ Ht').
      rewrite bool_decide_eq_false_2 by done.
      apply (IH k l t). repeat split; try done.
      intros j l' Hj Hl'. apply (Hfirst (S j) l'); [lia|done].
Qed.

Lemma first_with_id_or_absent task_id w :
  Forall (live w) (self_tasks w) →
  absent task_id w ∨
  ∃ i l t, first_with_id (heap w) task_id (self_tasks w) i l t.
Proof.
  intros Hlive.
  destruct (first_or_absent task_id (heap w) (self_tasks w) Hlive)
    as [?|(k & x & t & ?)]; [by left|right].
  by exists k, x, t.
Qed.

(** X1: [get_task_by_id] answers [None], changing nothing, when no stored
    record has the id; otherwise it answers a new object that holds the
    contents of the first stored record with the id, and the store and the
    file stay as they were. *)
Theorem get_task_by_id_first_or_none task_id w :
  Forall (live w) (self_tasks w) →
  (absent task_id w ∧ get_task_by_id task_id w = (Return None, w)) ∨
  (∃ i l t w',
     first_with_id (heap w) task_id (self_tasks w) i l t ∧
     get_task_by_id task_id w = (Return (Some (next w)), w') ∧
     heap w' = <[next w := t]> (heap w) ∧
     self_tasks w' = self_tasks w ∧
     file w' = file w).
Proof.
  intros Hlive. unfold get_task_by_id.
  destruct (first_with_id_or_absent task_id w Hlive)
    as [Habs|(i & l & t & Hfirst)].
  - left. split; [done|]. run (tasks_get_run _).
    by apply find_copy_absent.
  - right. eexists i, l, t, _. split; [done|].
    run (tasks_get_run _). split; [by apply (find_copy_first _ _ i l t)|].
    done.
Qed.

Lemma get_task_by_id_first_or_none_witness :
  ∃ w', get_task_by_id "2" world_ab = (Return (Some 4%nat), w') ∧
        heap w' !! 4%nat = Some task_b.
Proof.
  destruct (get_task_by_id_first_or_none "2" world_ab)
    as [[Habs _]|(i & l & t & w' & Hfirst & Hrun & Hh & _)].
  - repeat constructor; by eexists.
  - exfalso. apply Forall_cons in Habs as [_ Habs].
    apply Forall_cons in Habs as [(t & Ht & Hid) _].
    injection Ht as <-. by apply Hid.
  - exists w'. split; [exact Hrun|]. rewrite Hh, lookup_insert_eq.
    destruct Hfirst as (Hi & Ht & Hid & Hbefore).
    destruct i as [|[|i]].
    + injection Hi as <-. injection Ht as <-. discriminate.
    + injection Hi as <-. by injection Ht as <-.
    + discriminate.
Defined.

(** The three mutating operations, up to what [_save_tasks] does. *)
Lemma add_task_saved task w :
  ∃ w', add_task task w = (Return true, w') ∧
        saved (with_self_tasks (self_tasks w ++ [task]) w) w'.
Proof.
  unfold add_task, try_except. run (tasks_append_run _ _).
  destruct (save_then_true (with_self_tasks (self_tasks w ++ [task]) w))
    as (w' & -> & Hsaved).
  by exists w'.
Qed.

Lemma update_task_saved task_id u w i l t :
  first_with_id (heap w) task_id (self_tasks w) i l t →
  ∃ w', update_task task_id u w = (Return true, w') ∧
        saved (with_self_tasks (<[i := u]> (self_tasks w)) w) w'.
Proof.
  intros (Hi & Ht & Hid & Hfirst). unfold update_task, try_except.
  run (tasks_get_run _).
  rewrite (replace_first_found task_id u (self_tasks w) 0 i l t w
             Hi Ht Hid Hfirst (lookup_lt_Some _ _ _ Hi)).
  destruct (save_then_true
              (with_self_tasks (<[(0 + i)%nat := u]> (self_tasks w)) w))
    as (w' & -> & Hsaved).
  by exists w'.
Qed.

Lemma delete_task_saved task_id w :
  Forall (live w) (self_tasks w) →
  ∃ w', delete_task task_id w = (Return true, w') ∧
        saved (with_self_tasks
                 (filter (λ l, from_option
                                 (λ t, bool_decide (id t ≠ task_id))
                                 false (heap w !! l)) (self_tasks w)) w) w'.
Proof.
  intros Hlive. unfold delete_task, try_except.
  run (tasks_get_run _). rewrite bind_unfold.
  rewrite (comprehension_if_run (λ t, bool_decide (id t ≠ task_id))
             _ _ Hlive).
  run (tasks_set_run _ _).
  match goal with
  | |- context [(_save_tasks ;; mret true) ?w1] =>
      destruct (save_then_true w1) as (w' & -> & Hsaved)
  end.
  by exists w'.
Qed.

(** X2: a record added under an id the store does not hold yet is read
    back by [get_task_by_id]: the answer is a new object with the
    contents of the added record. *)
Theorem add_task_then_get task t w :
  heap w !! task = Some t →
  absent (id t) w →
  ∃ w1 w2,
    add_task task w = (Return true, w1) ∧
    self_tasks w1 = self_tasks w ++ [task] ∧
    get_task_by_id (id t) w1 = (Return (Some (next w)), w2) ∧
    heap w2 !! next w = Some t ∧
    self_tasks w2 = self_tasks w1.
Proof.
  intros Ht Habs.
  destruct (add_task_saved task w) as (w1 & Hrun & Hsaved).
  destruct (saved_memory _ _ Hsaved) as (Hh & Hn & Hs & _).
  cbn in Hh, Hn, Hs.
  assert (first_with_id (heap w1) (id t) (self_tasks w1)
            (length (self_tasks w)) task t) as Hfirst.
  { rewrite Hh, Hs. repeat split; try done.
    - by rewrite lookup_app_r, Nat.sub_diag by lia.
    - intros j l' Hj Hl'. rewrite lookup_app_l in Hl' by done.
      by apply (proj1 (Forall_lookup _ _) Habs j l'). }
  exists w1. eexists. split; [done|]. split; [done|].
  unfold get_task_by_id. run (tasks_get_run _).
  rewrite (find_copy_first _ _ _ _ _ _ Hfirst), Hn, Hh.
  split; [reflexivity|]. cbn. split; [apply lookup_insert_eq|done].
Qed.

Lemma add_task_then_get_witness :
  ∃ w1 w2,
    add_task 2%nat world_ab = (Return true, w1) ∧
    get_task_by_id "3" w1 = (Return (Some 4%nat), w2) ∧
    heap w2 !! 4%nat = Some task_c.
Proof.
  destruct (add_task_then_get 2%nat task_c world_ab)
    as (w1 & w2 & Hadd & _ & Hget & Hc & _).
  - reflexivity.
  - repeat constructor.
    + exists task_a. split; [reflexivity|discriminate].
    + exists task_b. split; [reflexivity|discriminate].
  - by exists w1, w2.
Defined.

(** X3: after [update_task] has put the record [u] in the place of the
    first record with the id it was called with, [get_task_by_id] called
    with the id of [u] answers a new object with the contents of [u],
    provided no earlier stored record has that id (which is so when [u]
    keeps the id it replaces). *)
Theorem update_task_then_get task_id u tu w i l t :
  first_with_id (heap w) task_id (self_tasks w) i l t →
  heap w !! u = Some tu →
  (∀ j l', (j < i)%nat → self_tasks w !! j = Some l' →
     ∃ t', heap w !! l' = Some t' ∧ id t' ≠ id tu) →
  ∃ w1 w2,
    update_task task_id u w = (Return true, w1) ∧
    get_task_by_id (id tu) w1 = (Return (Some (next w)), w2) ∧
    heap w2 !! next w = Some tu ∧
    self_tasks w2 = <[i := u]> (self_tasks w).
Proof.
  intros Hfirst Hu Hbefore.
  destruct (update_task_saved task_id u w i l t Hfirst)
    as (w1 & Hrun & Hsaved).
  destruct (saved_memory _ _ Hsaved) as (Hh & Hn & Hs & _).
  cbn in Hh, Hn, Hs. destruct Hfirst as (Hi & _).
  assert (first_with_id (heap w1) (id tu) (self_tasks w1) i u tu) as Hnew.
  { rewrite Hh, Hs. repeat split; try done.
    - apply list_lookup_insert_eq. by eapply lookup_lt_Some.
    - intros j l' Hj Hl'. rewrite list_lookup_insert_ne in Hl' by lia.
      by apply (Hbefore j l'). }
  exists w1. eexists. split; [done|].
  unfold get_task_by_id. run (tasks_get_run _).
  rewrite (find_copy_first _ _ _ _ _ _ Hnew), Hn, Hh.
  split; [reflexivity|]. cbn. split; [apply lookup_insert_eq|done].
Qed.

Lemma update_task_then_get_witness :
  ∃ w1 w2,
    update_task "2" 3%nat world_ab = (Return true, w1) ∧
    get_task_by_id "2" w1 = (Return (Some 4%nat), w2) ∧
    heap w2 !! 4%nat = Some task_d.
Proof.
  destruct (update_task_then_get "2" 3%nat task_d world_ab
              1%nat 1%nat task_b)
    as (w1 & w2 & Hupd & Hget & Hc & _).
  - repeat split; try done.
    intros [|j] l' Hj Hl'; [|lia]. injection Hl' as <-.
    exists task_a. split; [reflexivity|discriminate].
  - reflexivity.
  - intros [|j] l' Hj Hl'; [|lia]. injection Hl' as <-.
    exists task_a. split; [reflexivity|discriminate].
  - by exists w1, w2.
Defined.

(** X4: [delete_task] removes every stored record with the id, not only
    the first, keeps all the others in their order, and a following
    [get_task_by_id] with the id answers [None]. *)
Theorem delete_task_removes_all task_id w :
  Forall (live w) (self_tasks w) →
  ∃ w',
    delete_task task_id w = (Return true, w') ∧
    absent task_id w' ∧
    self_tasks w' `sublist_of` self_tasks w ∧
    (∀ l t, l ∈ self_tasks w → heap w !! l = Some t → id t ≠ task_id →
            l ∈ self_tasks w') ∧
    heap w' = heap w ∧
    get_task_by_id task_id w' = (Return None, w').
Proof.
  intros Hlive.
  destruct (delete_task_saved task_id w Hlive) as (w' & Hrun & Hsaved).
  destruct (saved_memory _ _ Hsaved) as (Hh & _ & Hs & _).
  cbn in Hh, Hs.
  assert (absent task_id w') as Habs.
  { unfold absent. rewrite Hs, Hh. apply Forall_forall.
    intros l [Hkeep Hl]%list_elem_of_filter.
    destruct (heap w !! l) as [t|]; [|done].
    exists t. split; [done|]. by apply bool_decide_unpack in Hkeep. }
  exists w'. split; [done|]. split; [done|]. rewrite Hs.
  split; [apply sublist_filter|]. split; [|split; [done|]].
  - intros l t Hl Ht Hid. apply list_elem_of_filter. split; [|done].
    rewrite Ht. cbn. by apply bool_decide_pack.
  - unfold get_task_by_id. run (tasks_get_run _).
    by apply find_copy_absent.
Qed.

Lemma delete_task_removes_all_witness :
  ∃ w', delete_task "2" world_ab = (Return true, w') ∧
        absent "2" w' ∧
        get_task_by_id "2" w' = (Return None, w').
Proof.
  destruct (delete_task_removes_all "2" world_ab)
    as (w' & Hrun & Habs & _ & _ & _ & Hget).
  - repeat constructor; by eexists.
  - by exists w'.
Defined.

(** *** The file *)

Lemma save_then_true_written w :
  writable w = true →
  Forall (live w) (self_tasks w) →
  (_save_tasks ;; mret true) w =
  (Return true, with_file (Some (contents (heap w) (self_tasks w))) w).
Proof.
  intros Hw Hlive. by run (save_tasks_run _ Hw Hlive).
Qed.

Lemma save_then_true_failed w :
  writable w = false →
  (_save_tasks ;; mret true) w =
  (Return true,
   with_stdout
     (stdout w ++
      ["Error saving tasks: "
       +:+ exn_str (OSError (oserror w).1 (oserror w).2 filename)]) w).
Proof.
  intros Hw. unfold _save_tasks, try_except, open_w.
  rewrite bind_unfold, bind_unfold. by rewrite Hw.
Qed.

(** X5: with a file that can be written, each of [add_task],
    [update_task] and [delete_task] that answers [True] leaves the file
    holding exactly the contents of the stored records, and one that
    answers [False] changes nothing at all; none of them modifies a
    record. *)
Theorem mutation_mirrors o w :
  writable w = true →
  Forall (live w) (self_tasks w) →
  op_live (heap w) o →
  ∃ b w',
    run_op o w = (Return b, w') ∧
    heap w' = heap w ∧
    (b = true → mirrored w') ∧
    (b = false → w' = w).
Proof.
  intros Hw Hlive Ho. destruct o as [task|task_id u|task_id]; cbn [run_op].
  - (* add_task *)
    exists true. eexists. unfold add_task, try_except.
    run (tasks_append_run _ _).
    rewrite save_then_true_written; [done|done|].
    cbn. apply Forall_app. split; [done|]. by repeat constructor.
  - (* update_task *)
    destruct (first_with_id_or_absent task_id w Hlive)
      as [Habs|(i & l & t & Hi & Ht & Hid & Hfirst)].
    + exists false, w. by rewrite update_task_absent.
    + exists true. eexists. unfold update_task, try_except.
      run (tasks_get_run _).
      rewrite (replace_first_found task_id u (self_tasks w) 0 i l t w
                 Hi Ht Hid Hfirst (lookup_lt_Some _ _ _ Hi)).
      rewrite save_then_true_written; [done|done|].
      cbn. by apply Forall_insert.
  - (* delete_task *)
    exists true. eexists. unfold delete_task, try_except.
    run (tasks_get_run _). rewrite bind_unfold.
    rewrite (comprehension_if_run (λ t, bool_decide (id t ≠ task_id))
               _ _ Hlive).
    run (tasks_set_run _ _).
    rewrite save_then_true_written; [done|done|].
    cbn. apply Forall_forall. intros l [_ Hl]%list_elem_of_filter.
    by apply (proj1 (Forall_forall _ _) Hlive).
Qed.

Lemma mutation_mirrors_witness :
  ∃ w', run_op (Add 2%nat) world_ab = (Return true, w') ∧
        file w' = Some [task_a; task_b; task_c].
Proof.
  destruct (mutation_mirrors (Add 2%nat) world_ab)
    as (b & w' & Hrun & Hh & Htrue & _).
  - reflexivity.
  - repeat constructor; by eexists.
  - by eexists.
  - destruct (add_task_saved 2%nat world_ab) as (w1 & Hadd & Hsaved).
    cbn [run_op] in Hrun. rewrite Hadd in Hrun. injection Hrun as <- <-.
    exists w1. split; [done|]. rewrite (Htrue eq_refl), Hh.
    destruct (saved_memory _ _ Hsaved) as (_ & _ & -> & _). reflexivity.
Defined.

(** X6: when the file cannot be opened for writing, [add_task] still
    answers [True] and the record is in the store, but the file keeps its
    old contents and no record changes; the failure only shows as one line
    on standard output, which carries the [errno] and the message of the
    error and the name of the file. *)
Theorem add_task_unwritable task w :
  writable w = false →
  ∃ w',
    add_task task w = (Return true, w') ∧
    self_tasks w' = self_tasks w ++ [task] ∧
    file w' = file w ∧
    heap w' = heap w ∧
    stdout w' =
      stdout w ++
      ["Error saving tasks: [Errno " +:+ pretty (oserror w).1 +:+ "] "
       +:+ (oserror w).2 +:+ ": 'tasks.json'"].
Proof.
  intros Hw. eexists. unfold add_task, try_except.
  run (tasks_append_run _ _).
  by rewrite save_then_true_failed.
Qed.

Lemma add_task_unwritable_witness :
  let w := World (heap world_ab) 4%nat [0%nat] (Some [task_a]) false
                 (λ _, now0) 0%nat (λ _, "") 0%nat [] permission_denied in
  ∃ w', add_task 1%nat w = (Return true, w') ∧
        self_tasks w' = [0%nat; 1%nat] ∧
        file w' = Some [task_a] ∧
        stdout w' =
          ["Error saving tasks: [Errno 13] Permission denied: 'tasks.json'"].
Proof.
  cbv zeta.
  match goal with
  | |- ∃ w', add_task _ ?w = _ ∧ _ =>
      destruct (add_task_unwritable 1%nat w eq_refl)
        as (w' & Hrun & Hs & Hf & _ & Hout)
  end.
  exists w'. split; [exact Hrun|]. split; [exact Hs|]. split; [exact Hf|].
  rewrite Hout. by vm_compute.
Defined.

(** *** Overdue records *)

Lemma overdue_loop_run now tasks : ∀ overdue w,
  Forall (live w) tasks →
  overdue_loop now overdue tasks w =
  (Return (overdue ++ filter (overdue_at (heap w) now) tasks), w).
Proof.
  induction tasks as [|x tasks IH]; intros overdue w Hlive.
  - cbn. by rewrite app_nil_r.
  - apply Forall_cons in Hlive as [[t Ht] Hlive].
    cbn [overdue_loop]. run (deref_Some _ _ _ Ht).
    assert (overdue_at (heap w) now x
            = bool_decide (status t ≠ "completed")
              && bool_decide (due_date t < now)) as Hx.
    { unfold overdue_at, is_overdue. rewrite Ht. cbn.
      apply bool_decide_and. }
    destruct (bool_decide (status t ≠ "completed"));
      destruct (bool_decide (due_date t < now)); cbn in Hx.
    + rewrite filter_cons_True by (by apply Is_true_true).
      rewrite IH by done. by rewrite <- app_assoc.
    + rewrite filter_cons_False by (by apply Is_true_false). by apply IH.
    + rewrite filter_cons_False by (by apply Is_true_false). by apply IH.
    + rewrite filter_cons_False by (by apply Is_true_false). by apply IH.
Qed.

(** X8: [get_overdue_tasks] answers the stored records that are not
    completed and are due before the clock reading it takes, in store
    order (the store's list filtered by that test), as the stored objects
    themselves.  If the clock has not gone
    back by then, a following check of the reminders over the store's
    listing classifies each of them [overdue] and returns it. *)
Theorem overdue_tasks_are_reminded w :
  Forall (live w) (self_tasks w) →
  clock w (ticks w) ≤ clock w (S (ticks w)) →
  ∃ overdue w1 reminders w2,
    get_overdue_tasks w = (Return overdue, w1) ∧
    overdue =
      filter (overdue_at (heap w) (clock w (ticks w))) (self_tasks w) ∧
    overdue `sublist_of` self_tasks w ∧
    (∀ l, l ∈ overdue ↔
          l ∈ self_tasks w ∧
          ∃ t, heap w !! l = Some t ∧ is_overdue (clock w (ticks w)) t) ∧
    App.check_reminders_button w1 = (Return reminders, w2) ∧
    ∀ l, l ∈ overdue →
         l ∈ reminders ∧
         reminder_type <$> heap w2 !! l = Some (Some ReminderAgent.overdue).
Proof.
  intros Hlive Hclock.
  set (now := clock w (ticks w)).
  set (w1 := with_ticks (S (ticks w)) w).
  assert (get_overdue_tasks w
          = (Return (filter (overdue_at (heap w) now) (self_tasks w)), w1))
    as Hrun.
  { unfold get_overdue_tasks. rewrite bind_unfold. cbn [datetime_now].
    run (tasks_get_run _). by rewrite overdue_loop_run. }
  assert (∀ l, l ∈ filter (overdue_at (heap w) now) (self_tasks w) ↔
               l ∈ self_tasks w ∧
               ∃ t, heap w !! l = Some t ∧ is_overdue now t) as Hmem.
  { intros l. rewrite list_elem_of_filter. unfold overdue_at. split.
    - intros [Ho Hl]. split; [done|].
      destruct (heap w !! l) as [t|]; [|done].
      exists t. split; [done|]. by apply bool_decide_unpack in Ho.
    - intros [Hl (t & Ht & Ho)]. split; [|done]. rewrite Ht. cbn.
      by apply bool_decide_pack. }
  destruct (check_reminders_run (self_tasks w1) w1 Hlive)
    as (rs & w2 & Hcheck & Hin & _ & Hover).
  eexists _, w1, rs, w2. split; [exact Hrun|]. split; [reflexivity|].
  split; [apply sublist_filter|]. split; [exact Hmem|].
  split.
  { unfold App.check_reminders_button, get_all_tasks.
    rewrite bind_unfold, (bind_return _ _ _ _ _ (tasks_get_run _)).
    by rewrite ret_unfold. }
  intros l [Hl (t & Ht & Hs & Hd)]%Hmem.
  assert (reminder_for (clock w1 (ticks w1)) t
          = Some ReminderAgent.overdue) as Hclass.
  { unfold reminder_for. rewrite bool_decide_eq_false_2 by done.
    unfold Time.negative. cbn [clock ticks w1 with_ticks].
    rewrite (proj2 (Z.ltb_lt _ _)); [done|]. fold now in Hclock. lia. }
  split; [by apply (Hover l t)|].
  rewrite (Hin l t Hl Ht). unfold remind. by rewrite Hclass.
Qed.

Lemma overdue_tasks_are_reminded_witness :
  ∃ overdue w1 reminders w2,
    get_overdue_tasks world_rem = (Return overdue, w1) ∧
    overdue = [1%nat] ∧
    App.check_reminders_button w1 = (Return reminders, w2) ∧
    1%nat ∈ reminders.
Proof.
  destruct (overdue_tasks_are_reminded world_rem)
    as (od & w1 & rs & w2 & Hrun & _ & _ & Hmem & Hcheck & Hall).
  - repeat constructor; by eexists.
  - reflexivity.
  - exists od, w1, rs, w2. split; [exact Hrun|].
    assert ((get_overdue_tasks world_rem).1 = Return od) as Hod
      by (by rewrite Hrun).
    vm_compute in Hod. injection Hod as <-.
    split; [reflexivity|]. split; [exact Hcheck|].
    apply Hall. by left.
Defined.

(** *** Statistics and the filtered listings *)

Lemma get_tasks_by_status_run status' w :
  Forall (live w) (self_tasks w) →
  get_tasks_by_status status' w
  = (Return (filter (has_status (heap w) status') (self_tasks w)), w).
Proof.
  intros Hlive. unfold get_tasks_by_status. run (tasks_get_run _).
  by rewrite (comprehension_if_run
                (λ t, bool_decide (status t = status')) _ _ Hlive).
Qed.

Lemma get_tasks_by_priority_run priority' w :
  Forall (live w) (self_tasks w) →
  get_tasks_by_priority priority' w
  = (Return (filter (has_priority (heap w) priority') (self_tasks w)), w).
Proof.
  intros Hlive. unfold get_tasks_by_priority. run (tasks_get_run _).
  by rewrite (comprehension_if_run
                (λ t, bool_decide (priority t = priority')) _ _ Hlive).
Qed.

Lemma counted_cons h p x t l :
  h !! x = Some t →
  len_if (counted h p) (x :: l) =
  (if bool_decide (status t ≠ "completed") && bool_decide (priority t = p)
   then 1 else 0) + len_if (counted h p) l.
Proof.
  intros Ht. unfold len_if.
  assert (counted h p x
          = bool_decide (status t ≠ "completed")
            && bool_decide (priority t = p)) as Hx
    by (unfold counted; by rewrite Ht).
  destruct (bool_decide (status t ≠ "completed")
            && bool_decide (priority t = p)).
  - rewrite filter_cons_True by (by apply Is_true_true). cbn. lia.
  - by rewrite filter_cons_False by (by apply Is_true_false).
Qed.

(** The counting loop adds to every key the number of records it counts
    under it, and has no other keys than it started with. *)
Lemma count_priorities_run tasks : ∀ pc w,
  Forall (live w) tasks →
  (∀ l t, l ∈ tasks → heap w !! l = Some t → status t ≠ "completed" →
          is_Some (pc !! priority t)) →
  ∃ pc',
    count_priorities pc tasks w = (Return pc', w) ∧
    ∀ p, pc' !! p = (λ n, n + len_if (counted (heap w) p) tasks) <$> pc !! p.
Proof.
  induction tasks as [|x tasks IH]; intros pc w Hlive Hkeys.
  - exists pc. split; [done|]. intros p. unfold len_if. cbn.
    destruct (pc !! p); cbn; [f_equal; lia|done].
  - apply Forall_cons in Hlive as [[t Ht] Hlive].
    cbn [count_priorities]. run (deref_Some _ _ _ Ht).
    destruct (decide (status t ≠ "completed")) as [Hs|Hs].
    + rewrite bool_decide_eq_true_2 by done.
      destruct (Hkeys x t) as [n Hn]; [by left|done|done|].
      rewrite Hn.
      destruct (IH (<[priority t := n + 1]> pc) w Hlive)
        as (pc' & Hrun & Hpc').
      { intros l t' Hl Ht' Hs'. rewrite lookup_insert_is_Some'.
        right. apply (Hkeys l t'); [by right|done|done]. }
      exists pc'. split; [done|]. intros p.
      rewrite Hpc', (counted_cons _ _ _ _ _ Ht).
      rewrite (bool_decide_eq_true_2 (status t ≠ "completed")) by done.
      rewrite lookup_insert. cbn [andb]. case_decide as Hp.
      * subst p. rewrite bool_decide_eq_true_2 by done.
        rewrite Hn. cbn. f_equal. lia.
      * rewrite bool_decide_eq_false_2 by done.
        destruct (pc !! p); cbn; [f_equal; lia|done].
    + rewrite bool_decide_eq_false_2 by done.
      destruct (IH pc w Hlive) as (pc' & Hrun & Hpc').
      { intros l t' Hl. apply (Hkeys l t'). by right. }
      exists pc'. split; [done|]. intros p.
      rewrite Hpc', (counted_cons _ _ _ _ _ Ht).
      rewrite (bool_decide_eq_false_2 (status t ≠ "completed")) by done.
      cbn [andb]. destruct (pc !! p); cbn; [f_equal; lia|done].
Qed.

Lemma counted_sum h tasks :
  Forall (λ l, is_Some (h !! l)) tasks →
  (∀ l t, l ∈ tasks → h !! l = Some t → status t ≠ "completed" →
          priority t ∈ ["High"; "Medium"; "Low"]) →
  len_if (counted h "High") tasks + len_if (counted h "Medium") tasks
  + len_if (counted h "Low") tasks
  = Z.of_nat (length tasks) - len_if (is_completed h) tasks.
Proof.
  induction 1 as [|x tasks [t Ht] _ IH]; intros Hprio.
  - done.
  - rewrite !(counted_cons _ _ _ _ _ Ht).
    assert (len_if (is_completed h) (x :: tasks)
            = (if bool_decide (status t = "completed") then 1 else 0)
              + len_if (is_completed h) tasks) as ->.
    { unfold len_if.
      assert (is_completed h x = bool_decide (status t = "completed"))
        as Hx by (unfold is_completed; by rewrite Ht).
      destruct (bool_decide (status t = "completed")).
      - rewrite filter_cons_True by (by apply Is_true_true). cbn. lia.
      - by rewrite filter_cons_False by (by apply Is_true_false). }
    specialize (IH (λ l t' Hl, Hprio l t' (list_elem_of_further _ _ _ Hl))).
    cbn [length]. destruct (decide (status t = "completed")) as [Hs|Hs].
    + rewrite (bool_decide_eq_true_2 (status t = "completed")) by done.
      rewrite (bool_decide_eq_false_2 (status t ≠ "completed")) by eauto.
      cbn [andb]. lia.
    + rewrite (bool_decide_eq_false_2 (status t = "completed")) by done.
      rewrite (bool_decide_eq_true_2 (status t ≠ "completed")) by done.
      cbn [andb].
      specialize (Hprio x t (list_elem_of_here _ _) Ht Hs).
      rewrite !elem_of_cons, elem_of_nil in Hprio.
      destruct Hprio as [Hp|[Hp|[Hp|[]]]]; rewrite Hp;
        repeat case_bool_decide; try done; lia.
Qed.

Lemma file_size_run {A} json_size (k : Z → py A) w :
  (found ← path_exists;
   size ← (if found : bool
           then contents ← open_r; mret (json_size contents)
           else mret 0);
   k size) w
  = k (from_option json_size 0 (file w)) w.
Proof.
  unfold path_exists, open_r. rewrite bind_unfold.
  destruct (file w) as [cs|] eqn:Hf.
  - rewrite bool_decide_eq_true_2 by eauto.
    rewrite bind_unfold, bind_unfold. by rewrite Hf.
  - by rewrite bool_decide_eq_false_2 by (by intros [? ?]).
Qed.

Lemma priority_scores_keys_zero p :
  p ∈ ["High"; "Medium"; "Low"] →
  is_Some (({[ "High" := 0; "Medium" := 0; "Low" := 0 ]} : gmap string Z)
             !! p).
Proof.
  rewrite !elem_of_cons, elem_of_nil.
  intros [->|[->|[->|[]]]]; by eexists.
Qed.

(** What [get_stats] answers; the two theorems below read it off. *)
Lemma get_stats_run json_size w :
  Forall (live w) (self_tasks w) →
  (∀ l t, l ∈ self_tasks w → heap w !! l = Some t →
          status t ≠ "completed" →
          priority t ∈ ["High"; "Medium"; "Low"]) →
  ∃ pc,
    get_stats json_size w
    = (Return (Stats (Z.of_nat (length (self_tasks w)))
                     (len_if (is_completed (heap w)) (self_tasks w))
                     (Z.of_nat (length (self_tasks w))
                      - len_if (is_completed (heap w)) (self_tasks w))
                     pc (from_option json_size 0 (file w))), w) ∧
    ∀ p, pc !! p
         = (λ n, n + len_if (counted (heap w) p) (self_tasks w))
             <$> ({[ "High" := 0; "Medium" := 0; "Low" := 0 ]}
                    : gmap string Z) !! p.
Proof.
  intros Hlive Hprio. unfold get_stats.
  run (tasks_get_run _).
  run (comprehension_if_run
         (λ t, bool_decide (status t = "completed")) _ _ Hlive).
  change (filter _ (self_tasks w))
    with (filter (is_completed (heap w)) (self_tasks w)).
  run (tasks_get_run _).
  destruct (count_priorities_run (self_tasks w)
              {[ "High" := 0; "Medium" := 0; "Low" := 0 ]} w Hlive)
    as (pc & Hrun & Hpc).
  { intros l t Hl Ht Hs. apply priority_scores_keys_zero.
    by apply (Hprio l t). }
  run Hrun. rewrite file_size_run, ret_unfold. by exists pc.
Qed.

Lemma get_stats_counts_aux json_size w :
  Forall (live w) (self_tasks w) →
  (∀ l t, l ∈ self_tasks w → heap w !! l = Some t →
          status t ≠ "completed" →
          priority t ∈ ["High"; "Medium"; "Low"]) →
  ∃ s,
    get_stats json_size w = (Return s, w) ∧
    completed_tasks s
    = Z.of_nat (length (filter (has_status (heap w) "completed")
                          (self_tasks w))) ∧
    ∀ p, p ∈ ["High"; "Medium"; "Low"] →
         priority_counts s !! p
         = Some (len_if (counted (heap w) p) (self_tasks w)).
Proof.
  intros Hlive Hprio.
  destruct (get_stats_run json_size w Hlive Hprio) as (pc & Hrun & Hpc).
  eexists. split; [exact Hrun|]. split; [reflexivity|].
  intros p Hp. cbn [priority_counts]. rewrite Hpc.
  rewrite !elem_of_cons, elem_of_nil in Hp.
  destruct Hp as [->|[->|[->|[]]]]; cbn; f_equal; lia.
Qed.

(** X9: when every stored record that is not completed has one of the
    three priorities, [get_stats] changes nothing and its numbers add up:
    the total is the completed plus the pending records, each priority
    count is the number of not completed records of that priority, and
    the three counts together are the pending records.  The file size is
    0 when there is no file. *)
Theorem get_stats_counts json_size w :
  Forall (live w) (self_tasks w) →
  (∀ l t, l ∈ self_tasks w → heap w !! l = Some t →
          status t ≠ "completed" →
          priority t ∈ ["High"; "Medium"; "Low"]) →
  ∃ s,
    get_stats json_size w = (Return s, w) ∧
    total_tasks s = Z.of_nat (length (self_tasks w)) ∧
    completed_tasks s = len_if (is_completed (heap w)) (self_tasks w) ∧
    total_tasks s = completed_tasks s + pending_tasks s ∧
    0 ≤ pending_tasks s ∧
    (∀ p, p ∈ ["High"; "Medium"; "Low"] →
          priority_counts s !! p
          = Some (len_if (counted (heap w) p) (self_tasks w))) ∧
    (∀ p, p ∉ ["High"; "Medium"; "Low"] → priority_counts s !! p = None) ∧
    len_if (counted (heap w) "High") (self_tasks w)
    + len_if (counted (heap w) "Medium") (self_tasks w)
    + len_if (counted (heap w) "Low") (self_tasks w) = pending_tasks s ∧
    file_size s = from_option json_size 0 (file w).
Proof.
  intros Hlive Hprio. unfold get_stats.
  run (tasks_get_run _).
  run (comprehension_if_run
         (λ t, bool_decide (status t = "completed")) _ _ Hlive).
  change (filter _ (self_tasks w))
    with (filter (is_completed (heap w)) (self_tasks w)).
  run (tasks_get_run _).
  destruct (count_priorities_run (self_tasks w)
              {[ "High" := 0; "Medium" := 0; "Low" := 0 ]} w Hlive)
    as (pc & Hrun & Hpc).
  { intros l t Hl Ht Hs. apply priority_scores_keys_zero.
    by apply (Hprio l t). }
  run Hrun. rewrite file_size_run, ret_unfold.
  pose proof (counted_sum (heap w) (self_tasks w) Hlive Hprio) as Hsum.
  assert (len_if (is_completed (heap w)) (self_tasks w)
          ≤ Z.of_nat (length (self_tasks w))) as Hle.
  { unfold len_if. pose proof (length_filter (is_completed (heap w))
                                 (self_tasks w)). lia. }
  eexists. split; [reflexivity|].
  cbn [total_tasks completed_tasks pending_tasks priority_counts file_size].
  unfold len_if in *. repeat split; try lia.
  all: try (intros p Hp; rewrite Hpc;
            rewrite !elem_of_cons, elem_of_nil in Hp;
            first [ destruct Hp as [->|[->|[->|[]]]]; cbn; f_equal; lia
                  | rewrite !lookup_insert_ne by naive_solver;
                    by rewrite lookup_singleton_ne by naive_solver ]).
Qed.

Lemma get_stats_counts_witness :
  ∃ s, get_stats (λ cs, Z.of_nat (length cs)) world_ab
         = (Return s, world_ab) ∧
       total_tasks s = 2 ∧ pending_tasks s = 2 ∧
       priority_counts s !! "High" = Some 1.
Proof.
  destruct (get_stats_counts (λ cs, Z.of_nat (length cs)) world_ab)
    as (s & Hrun & Htotal & Hdone & Hsum & _ & Hcount & _).
  - repeat constructor; by eexists.
  - intros l t Hl Ht _.
    apply elem_of_cons in Hl as [->|Hl];
      [|apply list_elem_of_singleton in Hl as ->];
      injection Ht as <-; by apply (bool_decide_unpack _).
  - exists s. split; [exact Hrun|]. split; [exact Htotal|].
    split.
    + assert (total_tasks s = 2) as H2 by exact Htotal.
      assert (completed_tasks s = 0) as H0
        by (rewrite Hdone; reflexivity).
      lia.
    + rewrite Hcount by (by left). reflexivity.
Defined.

Lemma count_priorities_unknown bad post t w pre : ∀ pc,
  Forall (live w) pre →
  (∀ l t', l ∈ pre → heap w !! l = Some t' → status t' ≠ "completed" →
           is_Some (pc !! priority t')) →
  heap w !! bad = Some t →
  status t ≠ "completed" →
  pc !! priority t = None →
  count_priorities pc (pre ++ bad :: post) w
  = (Raise (KeyError (priority t)), w).
Proof.
  induction pre as [|x pre IH]; intros pc Hlive Hkeys Hbad Hs Hnone.
  - cbn [app count_priorities]. run (deref_Some _ _ _ Hbad).
    rewrite bool_decide_eq_true_2 by done. by rewrite Hnone.
  - apply Forall_cons in Hlive as [[tx Htx] Hlive].
    cbn [app count_priorities]. run (deref_Some _ _ _ Htx).
    case_bool_decide as Hsx.
    + destruct (Hkeys x tx) as [n Hn]; [by left|done|done|].
      rewrite Hn. apply IH; try done.
      * intros l t' Hl Ht' Hs'. rewrite lookup_insert_is_Some'.
        right. apply (Hkeys l t'); [by right|done|done].
      * rewrite lookup_insert_ne; [done|]. intros Heq.
        rewrite Heq, Hnone in Hn. done.
    + apply IH; try done.
      intros l t' Hl. apply (Hkeys l t'). by right.
Qed.

(** X10: [get_stats] raises [KeyError] when a stored record that is not
    completed has a priority other than High, Medium and Low (the first
    such record decides), and the exception leaves the function, which
    has no handler; a completed record may have any priority. *)
Theorem get_stats_unknown_priority json_size w pre bad post t :
  self_tasks w = pre ++ bad :: post →
  Forall (live w) (self_tasks w) →
  (∀ l t', l ∈ pre → heap w !! l = Some t' → status t' ≠ "completed" →
           priority t' ∈ ["High"; "Medium"; "Low"]) →
  heap w !! bad = Some t →
  status t ≠ "completed" →
  priority t ∉ ["High"; "Medium"; "Low"] →
  get_stats json_size w = (Raise (KeyError (priority t)), w).
Proof.
  intros Hsplit Hlive Hprio Hbad Hs Hunknown. unfold get_stats.
  run (tasks_get_run _).
  run (comprehension_if_run
         (λ t, bool_decide (status t = "completed")) _ _ Hlive).
  run (tasks_get_run _).
  rewrite bind_unfold, Hsplit.
  rewrite (count_priorities_unknown bad post t w pre); try done.
  - rewrite Hsplit in Hlive. by apply Forall_app in Hlive as [? _].
  - intros l t' Hl Ht' Hs'. apply priority_scores_keys_zero.
    by apply (Hprio l t').
  - rewrite !elem_of_cons, elem_of_nil in Hunknown.
    rewrite !lookup_insert_ne by naive_solver.
    apply lookup_singleton_ne. naive_solver.
Qed.

Lemma get_stats_unknown_priority_witness :
  let urgent := Task "9" "Fix leak" "" "Urgent" now0 now0 "pending" 30
                     None None None None None None None in
  let w := World {[ 0%nat := task_a; 1%nat := urgent ]} 2%nat
                 [0%nat; 1%nat] None true (λ _, now0) 0%nat
                 (λ _, "") 0%nat [] permission_denied in
  get_stats (λ cs, Z.of_nat (length cs)) w = (Raise (KeyError "Urgent"), w).
Proof.
  cbv zeta.
  match goal with
  | |- get_stats _ ?w = (Raise (KeyError (priority ?t)), _) => idtac
  | |- get_stats ?j ?w = _ =>
      apply (get_stats_unknown_priority j w [0%nat] 1%nat []
               (Task "9" "Fix leak" "" "Urgent" now0 now0 "pending" 30
                     None None None None None None None))
  end.
  - reflexivity.
  - repeat constructor; by eexists.
  - intros l t' Hl Ht' _. apply list_elem_of_singleton in Hl as ->.
    injection Ht' as <-. by apply (bool_decide_unpack _).
  - reflexivity.
  - discriminate.
  - by apply (bool_decide_unpack _).
Defined.

Lemma counted_filter h p tasks :
  Forall (λ l, is_Some (h !! l)) tasks →
  len_if (counted h p) tasks
  = len_if (λ l, negb (is_completed h l)) (filter (has_priority h p) tasks).
Proof.
  induction 1 as [|x tasks [t Ht] _ IH]; [done|].
  rewrite (counted_cons _ _ _ _ _ Ht), IH. unfold len_if.
  assert (has_priority h p x = bool_decide (priority t = p)) as Hp
    by (unfold has_priority; by rewrite Ht).
  assert (is_completed h x = bool_decide (status t = "completed")) as Hc
    by (unfold is_completed; by rewrite Ht).
  destruct (decide (priority t = p)) as [Heq|Hne].
  - rewrite (bool_decide_eq_true_2 (priority t = p)) in * by done.
    rewrite (filter_cons_True _ x tasks) by (by apply Is_true_true).
    destruct (decide (status t = "completed")) as [Hs|Hs].
    + rewrite (bool_decide_eq_false_2 (status t ≠ "completed")) by eauto.
      rewrite bool_decide_eq_true_2 in Hc by done.
      rewrite filter_cons_False by (rewrite Hc; cbn; tauto).
      cbn [andb]. lia.
    + rewrite (bool_decide_eq_true_2 (status t ≠ "completed")) by done.
      rewrite bool_decide_eq_false_2 in Hc by done.
      rewrite filter_cons_True by (rewrite Hc; cbn; tauto).
      cbn [andb length]. lia.
  - rewrite (bool_decide_eq_false_2 (priority t = p)) in * by done.
    rewrite (filter_cons_False _ x tasks) by (by apply Is_true_false).
    rewrite andb_false_r. lia.
Qed.

Lemma filter_has (h : gmap loc task) (P : task → Prop)
    `{!∀ t, Decision (P t)} (tasks : list loc) l :
  l ∈ filter (λ x, from_option (λ t, bool_decide (P t)) false (h !! x))
        tasks ↔
  l ∈ tasks ∧ ∃ t, h !! l = Some t ∧ P t.
Proof.
  rewrite list_elem_of_filter. split.
  - intros [Hl ?]. split; [done|].
    destruct (h !! l) as [t|]; [|done].
    exists t. split; [done|]. by apply bool_decide_unpack in Hl.
  - intros [? (t & Ht & Hpt)]. split; [|done]. rewrite Ht. cbn.
    by apply bool_decide_pack.
Qed.

(** X11: for every status, [get_tasks_by_status] answers the stored
    objects whose record has that status, and for every priority
    [get_tasks_by_priority] answers those whose record has that priority:
    each is the store's list filtered by the test, so in store order, and
    neither changes anything.  The numbers of [get_stats] agree with them:
    the completed count is the length of the listing by the status
    "completed", and the count of a priority is the number of not
    completed records in the listing by that priority. *)
Theorem stats_agree_with_listings json_size w status' p :
  Forall (live w) (self_tasks w) →
  ∃ by_status by_priority,
    get_tasks_by_status status' w = (Return by_status, w) ∧
    by_status = filter (has_status (heap w) status') (self_tasks w) ∧
    by_status `sublist_of` self_tasks w ∧
    (∀ l, l ∈ by_status ↔
          l ∈ self_tasks w ∧
          ∃ t, heap w !! l = Some t ∧ status t = status') ∧
    get_tasks_by_priority p w = (Return by_priority, w) ∧
    by_priority = filter (has_priority (heap w) p) (self_tasks w) ∧
    by_priority `sublist_of` self_tasks w ∧
    (∀ l, l ∈ by_priority ↔
          l ∈ self_tasks w ∧ ∃ t, heap w !! l = Some t ∧ priority t = p) ∧
    ((∀ l t, l ∈ self_tasks w → heap w !! l = Some t →
             status t ≠ "completed" →
             priority t ∈ ["High"; "Medium"; "Low"]) →
     ∃ s,
       get_stats json_size w = (Return s, w) ∧
       (status' = "completed" →
        completed_tasks s = Z.of_nat (length by_status)) ∧
       (p ∈ ["High"; "Medium"; "Low"] →
        priority_counts s !! p
        = Some (len_if (λ l, negb (is_completed (heap w) l)) by_priority))).
Proof.
  intros Hlive. eexists _, _.
  split; [by apply get_tasks_by_status_run|]. split; [reflexivity|].
  split; [apply sublist_filter|].
  split; [intros l; apply (filter_has _ (λ t, status t = status'))|].
  split; [by apply get_tasks_by_priority_run|]. split; [reflexivity|].
  split; [apply sublist_filter|].
  split; [intros l; apply (filter_has _ (λ t, priority t = p))|].
  intros Hprio.
  destruct (get_stats_counts_aux json_size w Hlive Hprio)
    as (s & Hrun & Hdone & Hcount).
  exists s. split; [done|]. split.
  - intros ->. exact Hdone.
  - intros Hp. rewrite (Hcount p Hp). f_equal. by apply counted_filter.
Qed.

Lemma stats_agree_with_listings_witness :
  ∃ by_status by_priority s,
    get_tasks_by_status "pending" world_abd = (Return by_status, world_abd) ∧
    by_status = [0%nat; 1%nat; 3%nat] ∧
    get_tasks_by_priority "Low" world_abd
      = (Return by_priority, world_abd) ∧
    by_priority = [0%nat; 3%nat] ∧
    get_stats (λ cs, Z.of_nat (length cs)) world_abd
      = (Return s, world_abd) ∧
    priority_counts s !! "Low" = Some 2.
Proof.
  destruct (stats_agree_with_listings (λ cs, Z.of_nat (length cs))
              world_abd "pending" "Low")
    as (bs & bp & Hs & Hbs & _ & _ & Hp & Hbp & _ & _ & Hstats).
  - repeat constructor; by eexists.
  - destruct Hstats as (s & Hrun & _ & Hlow).
    + intros l t Hl Ht _.
      apply elem_of_cons in Hl as [->|Hl];
        [|apply elem_of_cons in Hl as [->|Hl];
          [|apply list_elem_of_singleton in Hl as ->]];
        injection Ht as <-; by apply (bool_decide_unpack _).
    + exists bs, bp, s. split; [exact Hs|]. split; [exact Hbs|].
      split; [exact Hp|]. split; [exact Hbp|]. split; [exact Hrun|].
      rewrite Hlow by (by apply (bool_decide_unpack _)).
      by rewrite Hbp.
Defined.

End storage_queries.

(** * More of the reminders *)

Section reminders_more.

Import ReminderAgent.

Lemma today_loop_run today tasks : ∀ today_tasks w,
  Forall (live w) tasks →
  today_loop today today_tasks tasks w =
  (Return (today_tasks ++ filter (listed_today (heap w) today) tasks), w).
Proof.
  induction tasks as [|x tasks IH]; intros today_tasks w Hlive.
  - cbn. by rewrite app_nil_r.
  - apply Forall_cons in Hlive as [[t Ht] Hlive].
    cbn [today_loop]. run (deref_Some _ _ _ Ht).
    assert (listed_today (heap w) today x
            = bool_decide (Time.date (due_date t) = today)
              && bool_decide (status t = "pending")) as Hx
      by (unfold listed_today; by rewrite Ht).
    destruct (bool_decide (Time.date (due_date t) = today)
              && bool_decide (status t = "pending")).
    + rewrite filter_cons_True by (by apply Is_true_true).
      rewrite IH by done. by rewrite <- app_assoc.
    + rewrite filter_cons_False by (by apply Is_true_false). by apply IH.
Qed.

(** X12: [get_daily_summary] reads the clock once and modifies nothing.
    The records it lists are the pending records of its input whose due
    date falls on the day of that reading, in input order; [total_today]
    is their number and [high_priority] the number of those with priority
    High, so 0 <= high_priority <= total_today <= len(input).  A completed
    record is never listed. *)
Theorem get_daily_summary_counts input w :
  Forall (live w) input →
  ∃ s,
    get_daily_summary input w = (Return s, with_ticks (S (ticks w)) w) ∧
    (∀ l, l ∈ tasks s ↔
          l ∈ input ∧
          ∃ t, heap w !! l = Some t ∧ due_today (clock w (ticks w)) t) ∧
    tasks s `sublist_of` input ∧
    total_today s = Z.of_nat (length (tasks s)) ∧
    high_priority s = len_if (has_priority (heap w) "High") (tasks s) ∧
    0 ≤ high_priority s ≤ total_today s ∧
    total_today s ≤ Z.of_nat (length input).
Proof.
  intros Hlive. unfold get_daily_summary.
  rewrite bind_unfold. cbn [datetime_now].
  set (now := clock w (ticks w)). set (w1 := with_ticks _ w).
  rewrite (bind_return _ _ _ _ _ (today_loop_run _ _ [] w1 Hlive)).
  rewrite app_nil_l. cbn [heap w1 with_ticks].
  set (listed := filter (listed_today (heap w) (Time.date now)) input).
  assert (Forall (live w1) listed) as Hlisted.
  { apply Forall_forall. intros l [_ Hl]%list_elem_of_filter.
    by apply (proj1 (Forall_forall _ _) Hlive). }
  run (comprehension_if_run
         (λ t, bool_decide (priority t = "High")) _ _ Hlisted).
  eexists. split; [reflexivity|].
  cbn [tasks total_today high_priority heap w1 with_ticks].
  pose proof (length_filter (listed_today (heap w) (Time.date now)) input).
  pose proof (length_filter (has_priority (heap w) "High") listed).
  unfold len_if. fold listed.
  change (filter _ listed) with (filter (has_priority (heap w) "High") listed).
  assert (∀ l, l ∈ listed ↔
               l ∈ input ∧ ∃ t, heap w !! l = Some t ∧ due_today now t)
    as Hmem.
  { intros l. unfold listed. rewrite list_elem_of_filter.
    unfold listed_today, due_today. split.
    - intros [Hl Hin]. split; [done|].
      destruct (heap w !! l) as [t|]; [|done].
      exists t. split; [done|].
      apply andb_prop_elim in Hl as [Hd Hs].
      split; by eapply bool_decide_unpack.
    - intros [Hin (t & Ht & Hd & Hs)]. split; [|done]. rewrite Ht. cbn.
      apply andb_prop_intro. split; by apply bool_decide_pack. }
  split; [exact Hmem|]. split; [apply sublist_filter|].
  fold listed in H. repeat split; try reflexivity; lia.
Qed.

Lemma get_daily_summary_counts_witness :
  ∃ s, get_daily_summary [0%nat; 1%nat] world_rem
         = (Return s, with_ticks 1%nat world_rem) ∧
       0 ≤ high_priority s ≤ total_today s.
Proof.
  destruct (get_daily_summary_counts [0%nat; 1%nat] world_rem)
    as (s & Hrun & _ & _ & _ & _ & Hle & _).
  - repeat constructor; by eexists.
  - exists s. split; [exact Hrun|exact Hle].
Defined.

(** *** Who is reminded *)

Lemma thresholds_of p :
  default [Time.minutes 30] (reminder_thresholds !! p) =
  if bool_decide (p = "High")
  then [Time.hours 2; Time.hours 1; Time.minutes 30]
  else if bool_decide (p = "Medium") then [Time.hours 1; Time.minutes 30]
  else [Time.minutes 30].
Proof.
  unfold reminder_thresholds. repeat case_bool_decide; subst; try done.
  rewrite !lookup_insert_ne by done.
  destruct (decide (p = "Low")) as [->|Hne]; [done|].
  by rewrite lookup_singleton_ne.
Qed.

(** The class of a record that is not completed and not overdue: that of
    the largest threshold of its priority when the time left does not
    exceed it, and none otherwise. *)
Lemma first_threshold_none d thresholds :
  Forall (λ threshold, threshold < d) thresholds →
  first_threshold d thresholds = None.
Proof.
  induction 1 as [|threshold thresholds Hlt _ IH]; [done|].
  cbn [first_threshold]. by rewrite (proj2 (Z.leb_gt _ _)) by done.
Qed.

Lemma reminder_for_due now t :
  status t ≠ "completed" →
  0 ≤ due_date t - now →
  reminder_for now t =
  if bool_decide (due_date t - now ≤ reminder_limit (priority t))
  then Some (due_in (reminder_limit (priority t)))
  else None.
Proof.
  intros Hs Hd. unfold reminder_for.
  rewrite bool_decide_eq_false_2 by done.
  unfold Time.negative. rewrite (proj2 (Z.ltb_ge _ _)) by done.
  rewrite thresholds_of.
  assert (Time.minutes 30 < Time.hours 1 < Time.hours 2) as Hlt
    by (by vm_compute).
  set (d := due_date t - now) in *.
  assert (∀ limit thresholds,
            Forall (λ threshold, threshold ≤ limit) thresholds →
            first_threshold d (limit :: thresholds) =
            if bool_decide (d ≤ limit) then Some (due_in limit) else None)
    as Hfirst.
  { intros limit thresholds Hall. case_bool_decide as Hle.
    - by apply first_threshold_head.
    - apply first_threshold_none. constructor; [lia|].
      eapply Forall_impl; [exact Hall|]. cbn. intros; lia. }
  unfold reminder_limit.
  destruct (bool_decide (priority t = "High")).
  - apply Hfirst. repeat constructor; lia.
  - destruct (bool_decide (priority t = "Medium")).
    + apply Hfirst. repeat constructor; lia.
    + apply Hfirst. constructor.
Qed.

Lemma reminder_for_is_Some now t :
  is_Some (reminder_for now t) ↔
  status t ≠ "completed" ∧
  due_date t - now ≤ reminder_limit (priority t).
Proof.
  assert (0 < reminder_limit (priority t)) as Hpos.
  { unfold reminder_limit. repeat case_bool_decide; by vm_compute. }
  destruct (decide (status t = "completed")) as [Hs|Hs].
  { unfold reminder_for. rewrite bool_decide_eq_true_2 by done.
    split; [by intros [? ?]|by intros [? _]]. }
  destruct (decide (due_date t - now < 0)) as [Hd|Hd].
  { unfold reminder_for. rewrite bool_decide_eq_false_2 by done.
    unfold Time.negative. rewrite (proj2 (Z.ltb_lt _ _)) by done.
    split; [intros _; split; [done|lia]|by eexists]. }
  rewrite reminder_for_due by (done || lia).
  case_bool_decide as Hle.
  - split; [intros _; by split|intros _; by eexists].
  - split; [by intros [? ?]|intros [_ ?]; lia].
Qed.

Lemma scan_thresholds_none l d rs thresholds w :
  first_threshold d thresholds = None →
  scan_thresholds l d rs thresholds w = (Return rs, w).
Proof.
  induction thresholds as [|threshold thresholds IH]; [done|].
  cbn [first_threshold scan_thresholds].
  destruct (d <=? threshold); [done|]. exact IH.
Qed.

(** A round on a record without class changes nothing. *)
Lemma check_task_none now rs l t w :
  heap w !! l = Some t →
  reminder_for now t = None →
  check_task now rs l w = (Return rs, w).
Proof.
  intros Ht Hnone. unfold check_task. run (deref_Some _ _ _ Ht).
  unfold reminder_for in Hnone. case_bool_decide; [done|].
  destruct (Time.negative (due_date t - now)); [done|].
  by apply scan_thresholds_none.
Qed.

(** The list holds, next to what it held, only records of the input that
    have a class. *)
Lemma check_tasks_members now tasks : ∀ rs w,
  Forall (live w) tasks →
  Forall (live w) rs →
  ∃ rs' w',
    check_tasks now rs tasks w = (Return rs', w') ∧
    ∀ x, x ∈ rs' →
         x ∈ rs ∨
         (x ∈ tasks ∧ ∃ t, heap w !! x = Some t ∧
                           is_Some (reminder_for now t)).
Proof.
  induction tasks as [|task tasks IH]; intros rs w Htasks Hrs.
  - exists rs, w. split; [done|]. by left.
  - apply Forall_cons in Htasks as [[t Ht] Htasks].
    cbn [check_tasks].
    assert (∀ w1, heap w1 = alter (remind now) task (heap w) →
              ∀ x, x ∈ tasks →
                (∃ t1, heap w1 !! x = Some t1 ∧
                       is_Some (reminder_for now t1)) →
                ∃ t0, heap w !! x = Some t0 ∧
                      is_Some (reminder_for now t0)) as Hback.
    { intros w1 Hh x Hx (t1 & Ht1 & Hc). rewrite Hh in Ht1.
      rewrite lookup_alter in Ht1. case_decide.
      - subst x. rewrite Ht in Ht1. injection Ht1 as <-.
        exists t. split; [done|]. by rewrite reminder_for_remind in Hc.
      - by exists t1. }
    destruct (reminder_for now t) as [r|] eqn:Hclass.
    + destruct (check_task_run now rs task t w Ht Hrs)
        as (rs1 & w1 & Hrun & Hh & Hrs1 & _).
      run Hrun.
      assert (∀ x, live w x → live w1 x) as Hlive
        by (intros x; by apply (live_alter w w1 (remind now) task)).
      destruct (IH rs1 w1) as (rs' & w' & Hrun' & Hmem).
      { eapply Forall_impl; [exact Htasks|]. exact Hlive. }
      { destruct Hrs1 as [->| ->].
        - eapply Forall_impl; [exact Hrs|]. exact Hlive.
        - apply Forall_app. split.
          + eapply Forall_impl; [exact Hrs|]. exact Hlive.
          + constructor; [|constructor]. apply Hlive. by exists t. }
      exists rs', w'. split; [done|]. intros x Hx.
      destruct (Hmem x Hx) as [Hin|[Hin Hx1]].
      * destruct Hrs1 as [->| ->]; [by left|].
        apply elem_of_app in Hin as [?|Hin]; [by left|].
        apply list_elem_of_singleton in Hin as ->.
        right. split; [by left|]. exists t. by rewrite Hclass.
      * right. split; [by right|]. by apply (Hback w1 Hh).
    + run (check_task_none now rs task t w Ht Hclass).
      destruct (IH rs w Htasks Hrs) as (rs' & w' & Hrun' & Hmem).
      exists rs', w'. split; [done|]. intros x Hx.
      destruct (Hmem x Hx) as [?|[Hin Hx1]]; [by left|].
      right. split; [by right|done].
Qed.

(** X13: the records [check_reminders] returns are records of its input
    that are not completed and whose time left does not exceed the
    largest threshold of their priority: 2 hours for High, 1 hour for
    Medium, 30 minutes for any other priority (overdue records
    included).  A completed record, and a record with more time left than
    that, is neither returned nor modified. *)
Theorem check_reminders_members input w :
  Forall (live w) input →
  ∃ rs w',
    check_reminders input w = (Return rs, w') ∧
    (∀ l, l ∈ rs →
          l ∈ input ∧
          ∃ t, heap w !! l = Some t ∧ status t ≠ "completed" ∧
               due_date t - clock w (ticks w)
               ≤ reminder_limit (priority t)) ∧
    (∀ l t, heap w !! l = Some t →
            status t = "completed" ∨
            reminder_limit (priority t) < due_date t - clock w (ticks w) →
            heap w' !! l = Some t ∧ l ∉ rs).
Proof.
  intros Hlive.
  destruct (check_reminders_run input w Hlive)
    as (rs & w' & Hrun & Hin & Hout & _).
  assert (∀ l, l ∈ rs →
            l ∈ input ∧ ∃ t, heap w !! l = Some t ∧
                             is_Some (reminder_for (clock w (ticks w)) t))
    as Hmem.
  { unfold check_reminders in Hrun. rewrite bind_unfold in Hrun.
    cbn [datetime_now] in Hrun.
    destruct (check_tasks_members (clock w (ticks w)) input []
                (with_ticks (S (ticks w)) w))
      as (rs0 & w0 & Hrun0 & Hmem); [done|constructor|].
    rewrite Hrun0 in Hrun. injection Hrun as -> ->.
    intros l Hl. destruct (Hmem l Hl) as [?%elem_of_nil|?]; done. }
  exists rs, w'. split; [done|]. split.
  - intros l Hl. destruct (Hmem l Hl) as (Hinput & t & Ht & Hc).
    split; [done|]. exists t. split; [done|].
    by apply reminder_for_is_Some.
  - intros l t Ht Hskip.
    assert (reminder_for (clock w (ticks w)) t = None) as Hnone.
    { apply eq_None_not_Some. intros [Hs Hd]%reminder_for_is_Some.
      destruct Hskip; [done|lia]. }
    split.
    + destruct (decide (l ∈ input)) as [Hl|Hl].
      * rewrite (Hin l t Hl Ht). unfold remind. by rewrite Hnone.
      * by rewrite (Hout l Hl).
    + intros Hl. destruct (Hmem l Hl) as (_ & t' & Ht' & Hc).
      rewrite Ht in Ht'. injection Ht' as <-.
      rewrite Hnone in Hc. by destruct Hc.
Qed.

Lemma check_reminders_members_witness :
  ∃ rs w',
    check_reminders [2%nat; 1%nat] world_ab = (Return rs, w') ∧
    rs = [] ∧ heap w' !! 2%nat = Some task_c.
Proof.
  destruct (check_reminders_members [2%nat; 1%nat] world_ab)
    as (rs & w' & Hrun & Hmem & Hskip).
  - repeat constructor; by eexists.
  - exists rs, w'. split; [exact Hrun|]. split.
    + assert ((check_reminders [2%nat; 1%nat] world_ab).1 = Return rs)
        as Hrs by (by rewrite Hrun).
      vm_compute in Hrs. by injection Hrs as <-.
    + apply (Hskip 2%nat task_c); [reflexivity|].
      right. by vm_compute.
Defined.

Lemma due_in_1h : due_in (Time.hours 1) = "due_in_1:00:00".
Proof. by vm_compute. Qed.

Lemma due_in_30min : due_in (Time.minutes 30) = "due_in_0:30:00".
Proof. by vm_compute. Qed.

(** X14: a record that is not completed, not overdue and not of priority
    High gets, as soon as its time left does not exceed the largest
    threshold of its priority, the [reminder_type] of that threshold:
    "due_in_1:00:00" for Medium, and "due_in_0:30:00" for Low and for
    every priority that is no key of the thresholds.  Its other keys stay
    as they were. *)
Theorem check_reminders_other_priorities input w l t :
  Forall (live w) input →
  l ∈ input →
  heap w !! l = Some t →
  status t ≠ "completed" →
  priority t ≠ "High" →
  0 ≤ due_date t - clock w (ticks w) ≤ reminder_limit (priority t) →
  ∃ rs w' t',
    check_reminders input w = (Return rs, w') ∧
    heap w' !! l = Some t' ∧
    (priority t = "Medium" → reminder_type t' = Some "due_in_1:00:00") ∧
    (priority t ≠ "Medium" → reminder_type t' = Some "due_in_0:30:00") ∧
    ∃ class, t' = set_reminder_type class t.
Proof.
  intros Hlive Hl Ht Hs Hp [Hlo Hhi].
  destruct (check_reminders_run input w Hlive)
    as (rs & w' & Hrun & Hin & _).
  exists rs, w'. eexists. split; [done|].
  split; [exact (Hin l t Hl Ht)|]. unfold remind.
  rewrite reminder_for_due by done.
  rewrite bool_decide_eq_true_2 by done. unfold reminder_limit.
  rewrite (bool_decide_eq_false_2 (priority t = "High")) by done.
  cbn [reminder_type set_reminder_type].
  split; [|split; [|by eexists]]; intros Hm.
  - rewrite bool_decide_eq_true_2 by done. by rewrite due_in_1h.
  - rewrite bool_decide_eq_false_2 by done. by rewrite due_in_30min.
Qed.

Lemma check_reminders_other_priorities_witness :
  let t := Task "7" "Stand-up" "" "Daily" (now0 + Time.minutes 20) now0
                "pending" 30 None None None None None None None in
  let w := World {[ 0%nat := t ]} 1%nat [0%nat] None true (λ _, now0)
                 0%nat (λ _, "") 0%nat [] permission_denied in
  ∃ rs w' t',
    check_reminders [0%nat] w = (Return rs, w') ∧
    heap w' !! 0%nat = Some t' ∧
    reminder_type t' = Some "due_in_0:30:00".
Proof.
  cbv zeta.
  match goal with
  | |- ∃ rs w' t', check_reminders ?input ?w = _ ∧ _ =>
      destruct (check_reminders_other_priorities input w 0%nat
                  (Task "7" "Stand-up" "" "Daily" (now0 + Time.minutes 20)
                        now0 "pending" 30 None None None None None None
                        None))
        as (rs & w' & t' & Hrun & Ht' & _ & Hother & _)
  end.
  - repeat constructor; by eexists.
  - by left.
  - reflexivity.
  - discriminate.
  - discriminate.
  - by vm_compute.
  - exists rs, w', t'. split; [exact Hrun|]. split; [exact Ht'|].
    apply Hother. discriminate.
Defined.

End reminders_more.

(** * More of the scheduler *)

Section scheduler_more.

Import SchedulerAgent.

Lemma optimal_time_scheduled t :
  optimal_time
    (set_buffer_time 15
       (set_preparation_time (prep_time t)
          (set_scheduled_time (optimal_time t) t)))
  = optimal_time t.
Proof. reflexivity. Qed.

(** X15: [schedule_task] run a second time on the same record does what
    the first run did and changes nothing more: the three values depend
    only on the due date, the priority and the tags, which it does not
    touch.  When the due date minus the offset is a datetime, both runs
    return the record; when it is out of range, both raise
    [OverflowError] and the record stays as it was. *)
Theorem schedule_task_idempotent l t w :
  heap w !! l = Some t →
  ∃ r w',
    schedule_task l w = (r, w') ∧
    schedule_task l w' = (r, w') ∧
    (Time.in_range (optimal_time t) = true → r = Return l) ∧
    (Time.in_range (optimal_time t) = false →
       r = Raise OverflowError ∧ w' = w).
Proof.
  intros Ht. destruct (Time.in_range (optimal_time t)) eqn:Hr.
  - eexists _, _. split; [by apply schedule_task_run|].
    split; [|by split].
    set (t' := set_buffer_time 15 _).
    rewrite (schedule_task_run l t'); [|apply lookup_insert_eq|exact Hr].
    f_equal. unfold with_heap. cbn. by rewrite insert_insert_eq.
  - exists (Raise OverflowError), w.
    by rewrite (schedule_task_overflow _ _ _ Ht Hr).
Qed.

Lemma schedule_task_idempotent_witness :
  ∃ w', schedule_task 0%nat world_call = (Return 0%nat, w') ∧
        schedule_task 0%nat w' = (Return 0%nat, w').
Proof.
  destruct (schedule_task_idempotent 0%nat call_client world_call)
    as (r & w' & Hrun & Hagain & Hin & _); [reflexivity|].
  rewrite (Hin eq_refl) in Hrun, Hagain. by exists w'.
Defined.

Lemma priority_scores_unknown p :
  p ∉ ["High"; "Medium"; "Low"] → priority_scores !! p = None.
Proof.
  rewrite !elem_of_cons, elem_of_nil. intros Hp. unfold priority_scores.
  rewrite !lookup_insert_ne by naive_solver.
  apply lookup_singleton_ne. naive_solver.
Qed.

(** The scoring loop up to a record whose priority is no key. *)
Lemma for_each_score_unknown bad t p2 p1 : ∀ w,
  Forall (scorable (heap w)) p1 →
  heap w !! bad = Some t →
  priority_scores !! priority t = None →
  ∃ w',
    for_each (p1 ++ bad :: p2) score_task w
      = (Raise (KeyError (priority t)), w') ∧
    heap w' = scored (clock w) (ticks w) p1 (heap w) ∧
    ticks w' = S (ticks w + length p1)%nat.
Proof.
  induction p1 as [|x p1 IH]; intros w Hp1 Hbad Hnone.
  - cbn [app for_each].
    rewrite (bind_raise _ _ _ _ _
               (score_task_unknown_priority _ _ _ Hbad Hnone)).
    eexists. split; [reflexivity|]. cbn. split; [done|lia].
  - apply Forall_cons in Hp1 as [(tx & Htx & Hpx) Hp1].
    assert (x ≠ bad) as Hne.
    { intros ->. rewrite Hbad in Htx. injection Htx as <-.
      rewrite Hnone in Hpx. by destruct Hpx. }
    cbn [app for_each]. run (score_task_run _ _ _ Htx Hpx).
    set (w1 := with_heap _ _ _).
    destruct (IH w1) as (w' & Hrun & Hh & Hk).
    + eapply Forall_impl; [exact Hp1|]. intros y. apply scorable_alter.
    + cbn. by rewrite lookup_alter_ne.
    + done.
    + exists w'. split; [done|]. rewrite Hh, Hk. cbn. split; [done|lia].
Qed.

(** X16: when a pending record of the input has a priority other than
    High, Medium and Low, [optimize_schedule] raises [KeyError] at that
    record and returns no list; the pending records before it keep the
    scores they were just given, every other record is as it was. *)
Theorem optimize_schedule_unknown_priority input w p1 bad p2 t :
  Forall (live w) input →
  filter (is_pending (heap w)) input = p1 ++ bad :: p2 →
  Forall (scorable (heap w)) p1 →
  heap w !! bad = Some t →
  priority t ∉ ["High"; "Medium"; "Low"] →
  ∃ w',
    optimize_schedule input w = (Raise (KeyError (priority t)), w') ∧
    heap w' = scored (clock w) (ticks w) p1 (heap w) ∧
    (∀ l, l ∉ p1 → heap w' !! l = heap w !! l).
Proof.
  intros Hlive Hsplit Hp1 Hbad Hunknown.
  unfold optimize_schedule, optimize_schedule_locals.
  rewrite bind_unfold.
  run (comprehension_if_run
         (λ t, bool_decide (status t = "pending")) _ _ Hlive).
  change (filter _ input) with (filter (is_pending (heap w)) input).
  rewrite Hsplit, bind_unfold.
  destruct (for_each_score_unknown bad t p2 p1 w Hp1 Hbad
              (priority_scores_unknown _ Hunknown))
    as (w' & -> & Hh & _).
  exists w'. split; [done|]. split; [done|].
  intros l Hl. rewrite Hh. by apply scored_lookup_notin.
Qed.

Lemma optimize_schedule_unknown_priority_witness :
  let urgent := Task "9" "Fix leak" "" "Urgent" now0 now0 "pending" 30
                     None None None None None None None in
  let w := World {[ 0%nat := task_a; 1%nat := urgent ]} 2%nat
                 [0%nat; 1%nat] None true (λ _, now0) 0%nat
                 (λ _, "") 0%nat [] permission_denied in
  ∃ w', optimize_schedule [0%nat; 1%nat] w
          = (Raise (KeyError "Urgent"), w') ∧
        heap w' !! 0%nat = Some (set_optimization_score 5 task_a).
Proof.
  cbv zeta.
  match goal with
  | |- ∃ w', optimize_schedule ?input ?w = _ ∧ _ =>
      destruct (optimize_schedule_unknown_priority input w [0%nat] 1%nat []
                  (Task "9" "Fix leak" "" "Urgent" now0 now0 "pending" 30
                        None None None None None None None))
        as (w' & Hrun & Hh & _)
  end.
  - repeat constructor; by eexists.
  - reflexivity.
  - repeat constructor. exists task_a. split; [reflexivity|by eexists].
  - reflexivity.
  - by apply (bool_decide_unpack _).
  - exists w'. split; [exact Hrun|]. rewrite Hh. reflexivity.
Defined.

Lemma urgency_bounds now t :
  1 ≤ urgency now t ∧ (now ≤ due_date t → urgency now t ≤ 5).
Proof.
  unfold urgency, days_until_due. split; [lia|]. intros Hdue.
  assert (0 ≤ (due_date t - now) `div` Time.day)
    by (apply Z.div_pos; [lia|by vm_compute]).
  lia.
Qed.

Lemma urgency_antitone now t1 t2 :
  due_date t1 ≤ due_date t2 → urgency now t2 ≤ urgency now t1.
Proof.
  unfold urgency, days_until_due. intros Hle.
  assert ((due_date t1 - now) `div` Time.day
          ≤ (due_date t2 - now) `div` Time.day)
    by (apply Z.div_le_mono; [by vm_compute|lia]).
  lia.
Qed.

(** X17: every pending record of the input ends with an
    [optimization_score], computed from one reading of the clock taken
    during the call; the score is at least 2, and at most 8 when the record
    is not overdue at that reading.  While the clock stands still, of two
    pending records with the same priority the one that is due earlier
    never gets the lower score. *)
Theorem optimize_schedule_score_bounds input w :
  Forall (live w) input →
  (∀ l t, l ∈ input → heap w !! l = Some t → status t = "pending" →
          priority t ∈ ["High"; "Medium"; "Low"]) →
  ∃ w',
    optimize_schedule input w = (Return input, w') ∧
    (∀ l t, l ∈ input → heap w !! l = Some t → status t = "pending" →
       ∃ t' score k,
         heap w' !! l = Some t' ∧
         optimization_score t' = Some score ∧
         (k < length input)%nat ∧
         score = urgency (clock w (ticks w + k)%nat) t + priority_score t ∧
         2 ≤ score ∧
         (clock w (ticks w + k)%nat ≤ due_date t → score ≤ 8)) ∧
    ((∀ k, clock w k = clock w 0%nat) →
     ∀ l1 t1 l2 t2,
       l1 ∈ input → heap w !! l1 = Some t1 → status t1 = "pending" →
       l2 ∈ input → heap w !! l2 = Some t2 → status t2 = "pending" →
       priority t1 = priority t2 →
       due_date t1 ≤ due_date t2 →
       ∃ score1 score2,
         (heap w' !! l1 ≫= optimization_score) = Some score1 ∧
         (heap w' !! l2 ≫= optimization_score) = Some score2 ∧
         score2 ≤ score1).
Proof.
  intros Hlive Hprio.
  set (pending := filter (is_pending (heap w)) input).
  assert (∀ l t, l ∈ input → heap w !! l = Some t → status t = "pending" →
                 l ∈ pending) as Hpending.
  { intros l t Hl Ht Hs. apply list_elem_of_filter. split; [|done].
    unfold is_pending. rewrite Ht. cbn. by apply bool_decide_pack. }
  destruct (optimize_schedule_run input w Hlive) as (w' & Hrun & Hh).
  { apply Forall_forall. intros l [Hp Hl]%list_elem_of_filter.
    unfold is_pending in Hp. destruct (heap w !! l) as [t|] eqn:Ht; [|done].
    exists t. split; [done|]. apply priority_scores_keys.
    apply (Hprio l t Hl Ht). by apply bool_decide_unpack in Hp. }
  fold pending in Hh.
  exists w'. split; [done|].
  assert (∀ l t, l ∈ input → heap w !! l = Some t → status t = "pending" →
            ∃ k, (k < length input)%nat ∧
                 heap w' !! l
                 = Some (rescore (clock w (ticks w + k)%nat) t)) as Hscore.
  { intros l t Hl Ht Hs.
    destruct (scored_lookup_in (clock w) pending (ticks w) (heap w) l t)
      as (k & Hk & Hlook); [by eapply Hpending|done|].
    exists k. split; [|by rewrite Hh].
    pose proof (length_filter (is_pending (heap w)) input).
    unfold pending in Hk. lia. }
  assert (∀ t, priority t ∈ ["High"; "Medium"; "Low"] →
               1 ≤ priority_score t ≤ 3) as Hps.
  { intros t Hp. pose proof (priority_score_cases t) as (H3 & H2 & H1).
    rewrite !elem_of_cons, elem_of_nil in Hp.
    destruct Hp as [Hp|[Hp|[Hp|[]]]];
      [rewrite (H3 Hp)|rewrite (H2 Hp)|rewrite (H1 Hp)]; lia. }
  split.
  - intros l t Hl Ht Hs. destruct (Hscore l t Hl Ht Hs) as (k & Hlen & Hk).
    pose proof (Hps t (Hprio l t Hl Ht Hs)).
    pose proof (urgency_bounds (clock w (ticks w + k)%nat) t) as [Hlo Hhi].
    eexists _, _, k. split; [exact Hk|]. split; [reflexivity|].
    split; [exact Hlen|]. split; [reflexivity|]. split; [lia|].
    intros Hdue. specialize (Hhi Hdue). lia.
  - intros Hsteady l1 t1 l2 t2 Hl1 Ht1 Hs1 Hl2 Ht2 Hs2 Hp Hdue.
    destruct (Hscore l1 t1 Hl1 Ht1 Hs1) as (k1 & _ & Hk1).
    destruct (Hscore l2 t2 Hl2 Ht2 Hs2) as (k2 & _ & Hk2).
    eexists _, _. split; [by rewrite Hk1|]. split; [by rewrite Hk2|].
    rewrite (Hsteady (ticks w + k1)%nat), (Hsteady (ticks w + k2)%nat).
    pose proof (urgency_antitone (clock w 0%nat) t1 t2 Hdue).
    unfold priority_score. rewrite Hp. lia.
Qed.

Lemma optimize_schedule_score_bounds_witness :
  ∃ w' t' score,
    optimize_schedule [1%nat; 0%nat] world_ab
      = (Return [1%nat; 0%nat], w') ∧
    heap w' !! 0%nat = Some t' ∧
    optimization_score t' = Some score ∧
    2 ≤ score ≤ 8.
Proof.
  destruct (optimize_schedule_score_bounds [1%nat; 0%nat] world_ab)
    as (w' & Hrun & Hbounds & _).
  - repeat constructor; by eexists.
  - intros l t Hl Ht _.
    apply elem_of_cons in Hl as [->|Hl];
      [|apply list_elem_of_singleton in Hl as ->];
      injection Ht as <-; by apply (bool_decide_unpack _).
  - destruct (Hbounds 0%nat task_a)
      as (t' & score & k & Ht' & Hscore & _ & _ & Hlo & Hhi);
      [by right; left|reflexivity|reflexivity|].
    exists w', t', score. split; [exact Hrun|]. split; [exact Ht'|].
    split; [exact Hscore|]. split; [exact Hlo|]. apply Hhi. by vm_compute.
Defined.

End scheduler_more.

(** * The callbacks of the page *)

Section app.

Import PlannerAgent SchedulerAgent ReminderAgent TaskStorage App.

Lemma lookups_contents (h : gmap loc task) (l : list loc) :
  Forall (λ x, is_Some (h !! x)) l →
  (λ x, h !! x) <$> l = Some <$> contents h l.
Proof.
  induction 1 as [|x l [t Ht] _ IH]; [done|].
  unfold contents in *. cbn. rewrite Ht. cbn. by rewrite IH.
Qed.

(** *** "Check Reminders" *)

Lemma list_contains_world rs x : ∀ w, (list_contains rs x w).2 = w.
Proof.
  induction rs as [|y rs IH]; intros w; [done|].
  cbn [list_contains]. case_bool_decide; [done|].
  rewrite bind_unfold. unfold deref at 1.
  destruct (heap w !! y); [|done].
  rewrite bind_unfold. unfold deref at 1.
  destruct (heap w !! x); [|done].
  case_bool_decide; [done|apply IH].
Qed.

Lemma scan_thresholds_store l d rs thresholds : ∀ w,
  self_tasks (scan_thresholds l d rs thresholds w).2 = self_tasks w ∧
  file (scan_thresholds l d rs thresholds w).2 = file w.
Proof.
  induction thresholds as [|threshold thresholds IH]; intros w; [done|].
  cbn [scan_thresholds]. destruct (d <=? threshold); [|apply IH].
  rewrite !bind_unfold. unfold setitem.
  destruct (heap w !! l) as [t|]; [|done].
  rewrite !bind_unfold.
  match goal with
  | |- context [list_contains rs l ?w1] =>
      pose proof (list_contains_world rs l w1) as Hw;
      destruct (list_contains rs l w1) as [[seen|e] w2]
  end; cbn in Hw; by subst.
Qed.

Lemma check_task_store now rs l w :
  self_tasks (check_task now rs l w).2 = self_tasks w ∧
  file (check_task now rs l w).2 = file w.
Proof.
  unfold check_task. rewrite !bind_unfold. unfold deref.
  destruct (heap w !! l) as [t|] eqn:Ht; [|done].
  case_bool_decide; [done|].
  destruct (Time.negative (due_date t - now)).
  - rewrite !bind_unfold. unfold setitem. by rewrite Ht.
  - apply scan_thresholds_store.
Qed.

Lemma check_tasks_store now tasks : ∀ rs w,
  self_tasks (check_tasks now rs tasks w).2 = self_tasks w ∧
  file (check_tasks now rs tasks w).2 = file w.
Proof.
  induction tasks as [|task tasks IH]; intros rs w; [done|].
  cbn [check_tasks]. rewrite bind_unfold.
  pose proof (check_task_store now rs task w) as [Hs Hf].
  destruct (check_task now rs task w) as [[rs1|e] w1]; [|done].
  cbn in Hs, Hf. destruct (IH rs1 w1) as [Hs' Hf'].
  by rewrite Hs', Hf'.
Qed.

(** X18: the button "Check Reminders" writes the class of every stored
    record that has one into the stored object itself, although it neither
    calls [update_task] nor writes the file; so when the file mirrored the
    store and some record gets a class it did not carry, the file no
    longer holds what the store holds. *)
Theorem check_reminders_button_writes_through w :
  Forall (live w) (self_tasks w) →
  ∃ reminders w',
    check_reminders_button w = (Return reminders, w') ∧
    self_tasks w' = self_tasks w ∧
    file w' = file w ∧
    (∀ l t, l ∈ self_tasks w → heap w !! l = Some t →
       status t ≠ "completed" →
       due_date t - clock w (ticks w) ≤ reminder_limit (priority t) →
       ∃ class, heap w' !! l = Some (set_reminder_type class t) ∧
                (reminder_type t ≠ Some class → mirrored w →
                 ¬ mirrored w')).
Proof.
  intros Hlive.
  destruct (check_reminders_run (self_tasks w) w Hlive)
    as (rs & w' & Hrun & Hin & _).
  assert (check_reminders_button w = (Return rs, w')) as Hbutton.
  { unfold check_reminders_button, get_all_tasks.
    rewrite bind_unfold, (bind_return _ _ _ _ _ (tasks_get_run _)).
    by rewrite ret_unfold. }
  assert (self_tasks w' = self_tasks w ∧ file w' = file w) as [Hs Hf].
  { unfold check_reminders in Hrun. rewrite bind_unfold in Hrun.
    cbn [datetime_now] in Hrun.
    pose proof (check_tasks_store (clock w (ticks w)) (self_tasks w) []
                  (with_ticks (S (ticks w)) w)) as Hstore.
    rewrite Hrun in Hstore. exact Hstore. }
  exists rs, w'. split; [done|]. split; [done|]. split; [done|].
  intros l t Hl Ht Hstatus Hdue.
  destruct (proj2 (reminder_for_is_Some (clock w (ticks w)) t))
    as [class Hclass]; [done|].
  exists class. split.
  { rewrite (Hin l t Hl Ht). unfold remind. by rewrite Hclass. }
  intros Hnew Hm Hm'. unfold mirrored in Hm, Hm'.
  rewrite Hf, Hm, Hs in Hm'. injection Hm' as Heq.
  assert (Forall (λ x, is_Some (heap w' !! x)) (self_tasks w)) as Hlive'.
  { apply Forall_forall. intros x Hx.
    destruct (proj1 (Forall_forall _ _) Hlive x Hx) as [tx Htx].
    rewrite (Hin x tx Hx Htx). by eexists. }
  assert ((λ x, heap w !! x) <$> self_tasks w
          = (λ x, heap w' !! x) <$> self_tasks w) as Hsame
    by (by rewrite (lookups_contents _ _ Hlive),
                   (lookups_contents _ _ Hlive'), Heq).
  apply list_elem_of_lookup in Hl as [i Hi].
  apply (f_equal (λ k, k !! i)) in Hsame.
  rewrite !list_lookup_fmap, Hi in Hsame. cbn in Hsame.
  rewrite Ht, (Hin l t (list_elem_of_lookup_2 _ _ _ Hi) Ht) in Hsame.
  unfold remind in Hsame. rewrite Hclass in Hsame.
  injection Hsame as Hsame. apply Hnew. by rewrite Hsame.
Qed.

Lemma check_reminders_button_writes_through_witness :
  ∃ reminders w',
    check_reminders_button world_rem = (Return reminders, w') ∧
    file w' = Some [task_soon; task_late] ∧
    heap w' !! 1%nat = Some (set_reminder_type "overdue" task_late) ∧
    ¬ mirrored w'.
Proof.
  destruct (check_reminders_button_writes_through world_rem)
    as (rs & w' & Hrun & _ & Hf & Hclass).
  - repeat constructor; by eexists.
  - destruct (Hclass 1%nat task_late) as (class & Hlate & Hstale).
    + by right; left.
    + reflexivity.
    + discriminate.
    + by vm_compute.
    + assert ((check_reminders_button world_rem).2 = w') as Hw
        by (by rewrite Hrun).
      assert (heap w' !! 1%nat
              = Some (set_reminder_type "overdue" task_late)) as Hlate'
        by (rewrite <- Hw; reflexivity).
      exists rs, w'. split; [exact Hrun|]. split; [exact Hf|].
      split; [exact Hlate'|]. apply Hstale; [|reflexivity].
      assert (Some (set_reminder_type class task_late)
              = Some (set_reminder_type "overdue" task_late)) as Hc
        by (etrans; [symmetry; exact Hlate|exact Hlate']).
      injection Hc as ->. discriminate.
Defined.

(** *** "Auto-Organize" *)

Local Abbreviation organize_body :=
  (λ task : loc, t ← deref task; update_task (id t) task;; mret ()).


Lemma first_with_id_slot (h : gmap loc task) tasks k i l t :
  first_with_id h k tasks i l t → first_slot (id_at h <$> tasks) k i.
Proof.
  intros (Hi & Ht & Hid & Hfirst). split.
  - rewrite list_lookup_fmap, Hi. cbn. unfold id_at. rewrite Ht. cbn.
    by rewrite Hid.
  - intros j Hj Hj'. rewrite list_lookup_fmap in Hj'.
    destruct (tasks !! j) as [l'|] eqn:Hl'; [|done].
    destruct (Hfirst j l' Hj Hl') as (t' & Ht' & Hne).
    cbn in Hj'. unfold id_at in Hj'. rewrite Ht' in Hj'. cbn in Hj'.
    congruence.
Qed.

Lemma first_slot_unique ids k i j :
  first_slot ids k i → first_slot ids k j → i = j.
Proof.
  intros [Hi Hbefore_i] [Hj Hbefore_j].
  destruct (Nat.lt_trichotomy i j) as [Hlt|[Heq|Hlt]]; [|done|].
  - by destruct (Hbefore_j i Hlt).
  - by destruct (Hbefore_i j Hlt).
Qed.

Lemma absent_no_slot k w i :
  absent k w → (id_at (heap w) <$> self_tasks w) !! i ≠ Some (Some k).
Proof.
  intros Habs Hi. rewrite list_lookup_fmap in Hi.
  destruct (self_tasks w !! i) as [l|] eqn:Hl; [|done].
  destruct (Forall_lookup_1 _ _ _ _ Habs Hl) as (t & Ht & Hid).
  cbn in Hi. unfold id_at in Hi. rewrite Ht in Hi. cbn in Hi. congruence.
Qed.

Lemma update_task_written task_id u w i l t :
  first_with_id (heap w) task_id (self_tasks w) i l t →
  writable w = true →
  Forall (live w) (self_tasks w) →
  live w u →
  update_task task_id u w =
  (Return true,
   with_file (Some (contents (heap w) (<[i := u]> (self_tasks w))))
     (with_self_tasks (<[i := u]> (self_tasks w)) w)).
Proof.
  intros (Hi & Ht & Hid & Hfirst) Hw Hlive Hu.
  unfold update_task, try_except.
  run (tasks_get_run _).
  rewrite (replace_first_found task_id u (self_tasks w) 0 i l t w
             Hi Ht Hid Hfirst (lookup_lt_Some _ _ _ Hi)).
  rewrite save_then_true_written; [done|done|].
  cbn. by apply Forall_insert.
Qed.

(** The loop of the button over the listing [snapshot]: a slot that is
    the first with its id ends with the last record of the listing that
    has this id, if there is one; no other slot changes. *)
Lemma organize_loop_run snapshot : ∀ w,
  writable w = true →
  Forall (live w) (self_tasks w) →
  Forall (live w) snapshot →
  ∃ w',
    for_each snapshot organize_body w = (Return (), w') ∧
    heap w' = heap w ∧
    id_at (heap w) <$> self_tasks w' = id_at (heap w) <$> self_tasks w ∧
    (∀ i k, first_slot (id_at (heap w) <$> self_tasks w) k i →
       self_tasks w' !! i =
       match last (filter (λ x, id_at (heap w) x = Some k) snapshot) with
       | Some x => Some x
       | None => self_tasks w !! i
       end) ∧
    (∀ i, (∀ k, ¬ first_slot (id_at (heap w) <$> self_tasks w) k i) →
       self_tasks w' !! i = self_tasks w !! i) ∧
    (mirrored w ∨
     Exists (λ x, id_at (heap w) x ∈ id_at (heap w) <$> self_tasks w)
       snapshot →
     mirrored w').
Proof.
  induction snapshot as [|x snapshot IH]; intros w Hw Hstore Hsnapshot.
  { exists w. cbn. repeat split; try done.
    intros [Hm|Hex]; [done|]. by apply Exists_nil in Hex. }
  apply Forall_cons in Hsnapshot as [[tx Hx] Hsnapshot].
  assert (id_at (heap w) x = Some (id tx)) as Hidx
    by (unfold id_at; by rewrite Hx).
  cbn [for_each].
  destruct (first_with_id_or_absent (id tx) w Hstore)
    as [Habs|(ix & lx & t0 & Hfound)].
  - assert (organize_body x w = (Return (), w)) as Hbody.
    { run (deref_Some _ _ _ Hx).
      by run (update_task_absent _ x _ Habs). }
    run Hbody.
    destruct (IH w Hw Hstore Hsnapshot)
      as (w' & Hrun & Hh & Hids & Hfirst & Hrest & Hm).
    exists w'. split; [done|]. split; [done|]. split; [done|].
    split; [|split; [done|]].
    + intros i k Hik. rewrite filter_cons_False; [by apply Hfirst|].
      rewrite Hidx. intros [= <-]. destruct Hik as [Hik _].
      by apply (absent_no_slot _ _ i Habs).
    + intros [Hmw|Hex]; apply Hm; [by left|].
      apply Exists_cons in Hex as [Hin|Hex]; [|by right].
      exfalso. rewrite Hidx in Hin.
      apply list_elem_of_lookup in Hin as [i Hi].
      by apply (absent_no_slot _ _ i Habs).
  - set (tasks1 := <[ix := x]> (self_tasks w)).
    set (w1 := with_file (Some (contents (heap w) tasks1))
                 (with_self_tasks tasks1 w)).
    assert (organize_body x w = (Return (), w1)) as Hbody.
    { run (deref_Some _ _ _ Hx).
      by run (update_task_written _ x _ _ _ _ Hfound Hw Hstore
                (ex_intro _ tx Hx)). }
    run Hbody.
    pose proof (first_with_id_slot _ _ _ _ _ _ Hfound) as Hslot.
    assert (id_at (heap w) <$> tasks1 = id_at (heap w) <$> self_tasks w)
      as Hids1.
    { unfold tasks1. rewrite list_fmap_insert. apply list_insert_id.
      rewrite Hidx. apply Hslot. }
    destruct (IH w1) as (w' & Hrun & Hh & Hids & Hfirst & Hrest & Hm).
    { done. }
    { apply Forall_insert; [exact Hstore|by exists tx]. }
    { exact Hsnapshot. }
    change (heap w1) with (heap w) in *.
    change (self_tasks w1) with tasks1 in *.
    exists w'. split; [done|]. split; [done|].
    split; [by rewrite Hids|]. split; [|split].
    + intros i k Hik. destruct (decide (k = id tx)) as [->|Hne].
      * assert (i = ix) as -> by (by eapply first_slot_unique).
        rewrite filter_cons_True by done. rewrite last_cons.
        rewrite (Hfirst ix (id tx)) by (by rewrite Hids1).
        destruct (last _); [done|]. unfold tasks1.
        apply list_lookup_insert_eq. eapply lookup_lt_Some. apply Hfound.
      * rewrite filter_cons_False by (rewrite Hidx; congruence).
        rewrite (Hfirst i k) by (by rewrite Hids1).
        destruct (last _); [done|]. unfold tasks1.
        apply list_lookup_insert_ne. intros <-.
        destruct Hik as [Hik _], Hslot as [Hs _]. congruence.
    + intros i Hnot. rewrite Hrest by (by rewrite Hids1).
      apply list_lookup_insert_ne. intros <-. by apply (Hnot (id tx)).
    + intros _. apply Hm. by left.
Qed.

Lemma filter_no_slot (h : gmap loc task) k tasks :
  (∀ j, (id_at h <$> tasks) !! j ≠ Some (Some k)) →
  filter (λ x, id_at h x = Some k) tasks = [].
Proof.
  induction tasks as [|x tasks IH]; intros Hno; [done|].
  rewrite filter_cons_False by (intros Hx; apply (Hno 0%nat); cbn;
                                by rewrite Hx).
  apply IH. intros j. apply (Hno (S j)).
Qed.

Lemma last_filter_slot (h : gmap loc task) k tasks : ∀ j,
  last_slot (id_at h <$> tasks) k j →
  last (filter (λ x, id_at h x = Some k) tasks) = tasks !! j.
Proof.
  induction tasks as [|x tasks IH]; intros j [Hj Hlast]; [done|].
  destruct j as [|j].
  - cbn in Hj. injection Hj as Hx.
    rewrite filter_cons_True by done.
    rewrite filter_no_slot; [done|].
    intros j. apply (Hlast (S j)). lia.
  - change ((id_at h <$> tasks) !! j = Some (Some k)) in Hj.
    assert (last (filter (λ x, id_at h x = Some k) tasks) = tasks !! j)
      as Hl.
    { apply IH. split; [exact Hj|].
      intros j' Hj'. apply (Hlast (S j')). lia. }
    rewrite list_lookup_fmap, <- Hl in Hj.
    change ((x :: tasks) !! S j) with (tasks !! j). rewrite <- Hl.
    rewrite filter_cons. case_decide; [|done]. rewrite last_cons.
    by destruct (last _).
Qed.

Lemma scored_id_at clock ls : ∀ n h x,
  id_at (scored clock n ls h) x = id_at h x.
Proof.
  induction ls as [|l ls IH]; intros n h x; [done|].
  cbn [scored]. rewrite IH. unfold id_at. rewrite lookup_alter.
  case_decide; [|done]. subst x. by destruct (h !! l).
Qed.

Lemma for_each_score_store ls : ∀ w,
  Forall (scorable (heap w)) ls →
  ∃ w',
    for_each ls score_task w = (Return (), w') ∧
    self_tasks w' = self_tasks w ∧
    file w' = file w ∧
    writable w' = writable w.
Proof.
  induction ls as [|l ls IH]; intros w Hls.
  - by exists w.
  - apply Forall_cons in Hls as [(t & Ht & Hp) Hls].
    cbn [for_each].
    run (score_task_run _ _ _ Ht Hp).
    set (w1 := with_heap _ _ _).
    destruct (IH w1) as (w' & Hrun & Hs & Hf & Hw).
    { eapply Forall_impl; [exact Hls|]. intros x. apply scorable_alter. }
    by exists w'.
Qed.

Lemma optimize_schedule_store tasks w :
  Forall (live w) tasks →
  Forall (scorable (heap w)) (filter (is_pending (heap w)) tasks) →
  ∃ w',
    optimize_schedule tasks w = (Return tasks, w') ∧
    heap w' = scored (clock w) (ticks w)
                (filter (is_pending (heap w)) tasks) (heap w) ∧
    self_tasks w' = self_tasks w ∧
    file w' = file w ∧
    writable w' = writable w.
Proof.
  intros Hlive Hscorable.
  unfold optimize_schedule, optimize_schedule_locals.
  rewrite bind_unfold.
  rewrite (bind_return _ _ _ _ _
             (comprehension_if_run
                (λ t, bool_decide (status t = "pending")) _ _ Hlive)).
  change (filter _ tasks) with (filter (is_pending (heap w)) tasks).
  set (pending := filter (is_pending (heap w)) tasks) in *.
  destruct (for_each_score_run pending w Hscorable)
    as (w1 & Hrun & Hh & _ & _).
  destruct (for_each_score_store pending w Hscorable)
    as (w1' & Hrun' & Hs & Hf & Hw).
  rewrite Hrun in Hrun'. injection Hrun' as <-.
  run Hrun.
  assert (Forall (live w1) pending) as Hlive1.
  { apply Forall_forall. intros x Hx. unfold live. rewrite Hh.
    apply scored_live.
    apply list_elem_of_filter in Hx as [_ Hx].
    by apply (proj1 (Forall_forall _ _) Hlive). }
  run (decorate_run pending w1 Hlive1).
  by exists w1.
Qed.

(** What the button does to the store, in terms of its loop over the
    listing. *)
Lemma auto_organize_run w :
  writable w = true →
  Forall (live w) (self_tasks w) →
  Forall (scorable (heap w)) (filter (is_pending (heap w)) (self_tasks w)) →
  ∃ w',
    auto_organize w = (Return (), w') ∧
    heap w' = scored (clock w) (ticks w)
                (filter (is_pending (heap w)) (self_tasks w)) (heap w) ∧
    id_at (heap w') <$> self_tasks w' = id_at (heap w) <$> self_tasks w ∧
    (∀ i k,
       first_slot (id_at (heap w) <$> self_tasks w) k i →
       self_tasks w' !! i =
       match last (filter (λ x, id_at (heap w) x = Some k) (self_tasks w))
       with
       | Some x => Some x
       | None => self_tasks w !! i
       end) ∧
    (∀ i, (∀ k, ¬ first_slot (id_at (heap w) <$> self_tasks w) k i) →
       self_tasks w' !! i = self_tasks w !! i) ∧
    (self_tasks w ≠ [] → mirrored w').
Proof.
  intros Hw Hlive Hscorable.
  destruct (optimize_schedule_store _ w Hlive Hscorable)
    as (w0 & Hopt & Hh0 & Hs0 & _ & Hw0).
  assert (∀ x, id_at (heap w0) x = id_at (heap w) x) as Hid
    by (intros x; rewrite Hh0; apply scored_id_at).
  assert (∀ tasks, id_at (heap w0) <$> tasks = id_at (heap w) <$> tasks)
    as Hids by (intros tasks; apply list_fmap_ext; intros _ x _; apply Hid).
  assert (Forall (live w0) (self_tasks w)) as Hlive0.
  { eapply Forall_impl; [exact Hlive|]. intros x Hx. unfold live.
    rewrite Hh0. by apply scored_live. }
  destruct (organize_loop_run (self_tasks w) w0)
    as (w' & Hloop & Hh & Hids' & Hfirst & Hrest & Hm).
  { by rewrite Hw0. }
  { by rewrite Hs0. }
  { done. }
  rewrite Hs0 in Hids', Hfirst, Hrest, Hm.
  rewrite !Hids in Hids', Hfirst, Hrest, Hm.
  exists w'. split; [|split; [by rewrite Hh|split; [|split; [|split]]]].
  - unfold auto_organize, get_all_tasks.
    rewrite bind_unfold.
    rewrite (bind_return _ _ _ _ _ (tasks_get_run _)), ret_unfold.
    by run Hopt.
  - by rewrite Hh, Hids, Hids', Hids.
  - intros i k Hi. rewrite (Hfirst i k Hi).
    by rewrite (list_filter_iff _ (λ x, id_at (heap w) x = Some k))
      by (intros x; by rewrite Hid).
  - done.
  - intros Hne. apply Hm. right.
    destruct (self_tasks w) as [|x tasks] eqn:Htasks; [done|].
    apply Exists_cons_hd. rewrite Hid. cbn. left.
Qed.

(** X19: the button "Auto-Organize", with a file that can be written,
    scores the pending records and then stores every listed record under
    its own id: a slot that is the first with its id ends with the record
    of the last slot that has this id, and every other slot keeps its
    record.  So when records share an id, the record in the first of their
    slots is replaced by the record of the last.  The scores are kept, the
    ids of the slots do not change, and when the store is not empty the
    file ends with the contents of the stored records. *)
Theorem auto_organize_slots w :
  writable w = true →
  Forall (live w) (self_tasks w) →
  Forall (scorable (heap w)) (filter (is_pending (heap w)) (self_tasks w)) →
  ∃ w',
    auto_organize w = (Return (), w') ∧
    heap w' = scored (clock w) (ticks w)
                (filter (is_pending (heap w)) (self_tasks w)) (heap w) ∧
    id_at (heap w') <$> self_tasks w' = id_at (heap w) <$> self_tasks w ∧
    (∀ i j k,
       first_slot (id_at (heap w) <$> self_tasks w) k i →
       last_slot (id_at (heap w) <$> self_tasks w) k j →
       self_tasks w' !! i = self_tasks w !! j) ∧
    (∀ i, (∀ k, ¬ first_slot (id_at (heap w) <$> self_tasks w) k i) →
       self_tasks w' !! i = self_tasks w !! i) ∧
    (self_tasks w ≠ [] → mirrored w').
Proof.
  intros Hw Hlive Hscorable.
  destruct (auto_organize_run w Hw Hlive Hscorable)
    as (w' & Hrun & Hh & Hids & Hfirst & Hrest & Hm).
  exists w'. repeat (split; [done|]). split; [|done].
  intros i j k Hi Hj.
  rewrite (Hfirst i k Hi), (last_filter_slot (heap w) k _ j Hj).
  destruct Hj as [Hj _]. rewrite list_lookup_fmap in Hj.
  by destruct (self_tasks w !! j).
Qed.

Lemma auto_organize_slots_witness :
  ∃ w',
    auto_organize world_abd = (Return (), w') ∧
    self_tasks w' !! 1%nat = Some 3%nat ∧
    mirrored w'.
Proof.
  destruct (auto_organize_slots world_abd)
    as (w' & Hrun & _ & _ & Hfirst & _ & Hm).
  - reflexivity.
  - repeat constructor; by eexists.
  - repeat constructor; eexists; (split; [reflexivity|by eexists]).
  - exists w'. split; [exact Hrun|]. split.
    + apply (Hfirst 1%nat 2%nat "2").
      * split; [reflexivity|].
        intros [|j] Hj; [discriminate|lia].
      * split; [reflexivity|].
        intros [|[|[|j]]] Hj; try lia. discriminate.
    + by apply Hm.
Defined.

(** X20: when no two stored records share an id, the button
    "Auto-Organize" leaves the store in the order it had: the records are
    scored but none changes its slot, and when the store is not empty the
    file ends with the scored contents in that same order. *)
Theorem auto_organize_keeps_order w :
  writable w = true →
  Forall (live w) (self_tasks w) →
  Forall (scorable (heap w)) (filter (is_pending (heap w)) (self_tasks w)) →
  NoDup (stored_ids w) →
  ∃ w',
    auto_organize w = (Return (), w') ∧
    self_tasks w' = self_tasks w ∧
    heap w' = scored (clock w) (ticks w)
                (filter (is_pending (heap w)) (self_tasks w)) (heap w) ∧
    (self_tasks w ≠ [] →
     file w' = Some (contents (heap w') (self_tasks w))).
Proof.
  intros Hw Hlive Hscorable Hnodup.
  destruct (auto_organize_run w Hw Hlive Hscorable)
    as (w' & Hrun & Hh & _ & Hfirst & Hrest & Hm).
  assert (NoDup (id_at (heap w) <$> self_tasks w)) as Hids.
  { rewrite (id_at_contents _ _ Hlive). by apply (NoDup_fmap_2 Some). }
  assert (self_tasks w' = self_tasks w) as Hs.
  { apply list_eq. intros i.
    destruct ((id_at (heap w) <$> self_tasks w) !! i) as [[k|]|] eqn:Hi.
    - rewrite (Hfirst i k), (last_filter_slot (heap w) k _ i).
      + by destruct (self_tasks w !! i).
      + split; [done|]. intros j Hj Hk.
        pose proof (NoDup_lookup _ _ _ _ Hids Hi Hk). lia.
      + split; [done|]. intros j Hj Hk.
        pose proof (NoDup_lookup _ _ _ _ Hids Hi Hk). lia.
    - apply Hrest. intros k [Hk _]. congruence.
    - apply Hrest. intros k [Hk _]. congruence. }
  exists w'. split; [done|]. split; [done|]. split; [done|].
  intros Hne. rewrite <- Hs. by apply Hm.
Qed.

Lemma auto_organize_keeps_order_witness :
  ∃ w',
    auto_organize world_ab = (Return (), w') ∧
    self_tasks w' = [0%nat; 1%nat] ∧
    file w' = Some (contents (heap w') [0%nat; 1%nat]).
Proof.
  destruct (auto_organize_keeps_order world_ab)
    as (w' & Hrun & Hs & _ & Hf).
  - reflexivity.
  - repeat constructor; by eexists.
  - repeat constructor; eexists; (split; [reflexivity|by eexists]).
  - apply (bool_decide_unpack _). by vm_compute.
  - exists w'. split; [exact Hrun|]. split; [exact Hs|]. by apply Hf.
Defined.

(** *** The form "Add New Task" *)

Lemma add_task_written task w :
  writable w = true →
  Forall (live w) (self_tasks w ++ [task]) →
  add_task task w =
  (Return true,
   with_file (Some (contents (heap w) (self_tasks w ++ [task])))
     (with_self_tasks (self_tasks w ++ [task]) w)).
Proof.
  intros Hw Hlive. unfold add_task, try_except.
  run (tasks_append_run _ _).
  by rewrite save_then_true_written.
Qed.

(** X21: the form "Add New Task" with a title that is not empty, a due
    date that leaves room for the scheduling offset (2 hours for High, 1
    hour for Medium, 30 minutes otherwise) and a file that can be written,
    appends one new record to the store.  The record has the next uuid as
    its id, the values of the form, the reading of the clock as
    [created_date], the status "pending", the planner's duration and tags,
    the due date minus the offset as [scheduled_time], the preparation
    time of its tags, the buffer time 15, and no other key.  No other
    record changes, and the file ends with the contents of the store. *)
Theorem add_task_submit_stores task_title task_desc prio due w :
  let offset :=
    if bool_decide (prio = "High") then Time.hours 2
    else if bool_decide (prio = "Medium") then Time.hours 1
    else Time.minutes 30 in
  let found_tags := _extract_tags task_title task_desc in
  task_title ≠ "" →
  Time.in_range (due - offset) = true →
  writable w = true →
  Forall (live w) (self_tasks w) →
  ∃ t' w',
    add_task_submit task_title task_desc prio due w = (Return (), w') ∧
    self_tasks w' = self_tasks w ++ [next w] ∧
    heap w' = <[next w := t']> (heap w) ∧
    mirrored w' ∧
    id t' = uuids w (draws w) ∧
    title t' = task_title ∧
    description t' = task_desc ∧
    priority t' = prio ∧
    due_date t' = due ∧
    created_date t' = clock w (ticks w) ∧
    status t' = "pending" ∧
    estimated_duration t' = _estimate_duration task_title task_desc ∧
    tags t' = Some found_tags ∧
    scheduled_time t' = Some (due - offset) ∧
    preparation_time t' =
      Some (if bool_decide ("meeting" ∈ found_tags) then 15
            else if bool_decide ("report" ∈ found_tags) then 30 else 5) ∧
    buffer_time t' = Some 15 ∧
    optimization_score t' = None ∧
    reminder_type t' = None ∧
    completed_date t' = None.
Proof.
  intros offset found_tags Htitle Hrange Hw Hlive. unfold add_task_submit.
  rewrite bool_decide_eq_true_2 by done.
  run (create_task_run task_title task_desc prio due w).
  set (planned := Task _ _ _ _ _ _ _ _ _ _ _ _ _ _ _).
  set (w1 := with_heap _ _ _).
  assert (heap w1 !! next w = Some planned) as H1
    by apply lookup_insert_eq.
  assert (optimal_time planned = due - offset) as Hoptimal.
  { unfold optimal_time, offset, planned. cbn.
    by repeat case_bool_decide. }
  assert (Time.in_range (optimal_time planned) = true) as Hr
    by (by rewrite Hoptimal).
  run (schedule_task_run _ _ _ H1 Hr).
  set (w2 := with_heap _ _ w1).
  rewrite bind_unfold, (add_task_written (next w) w2), ret_unfold.
  - eexists _, _. split; [reflexivity|]. cbn. split; [done|].
    split; [apply insert_insert_eq|]. split.
    { unfold mirrored. cbn. by rewrite insert_insert_eq. }
    rewrite Hoptimal. by repeat (split; [reflexivity|]).
  - done.
  - cbn. apply Forall_app. split.
    + eapply Forall_impl; [exact Hlive|]. intros x Hx. unfold live. cbn.
      rewrite !lookup_insert_is_Some. destruct (decide (next w = x)); auto.
    + apply Forall_singleton. unfold live. cbn.
      rewrite lookup_insert_eq. by eexists.
Qed.

Lemma add_task_submit_stores_witness :
  ∃ w',
    add_task_submit "Call client" "" "High" (now0 + Time.minutes 90) world0
      = (Return (), w') ∧
    self_tasks w' = [0%nat] ∧
    (heap w' !! 0%nat ≫= scheduled_time) = Some (now0 - Time.minutes 30) ∧
    (heap w' !! 0%nat ≫= preparation_time) = Some 5 ∧
    file w' = Some (contents (heap w') [0%nat]).
Proof.
  destruct (add_task_submit_stores "Call client" "" "High"
              (now0 + Time.minutes 90) world0)
    as (t' & w' & Hrun & Hs & Hh & Hm & Hfields).
  - discriminate.
  - by vm_compute.
  - reflexivity.
  - constructor.
  - destruct Hfields
      as (_ & _ & _ & _ & _ & _ & _ & _ & _ & Hsched & Hprep & _).
    exists w'. split; [exact Hrun|]. split; [exact Hs|].
    rewrite Hh. cbn [heap world0 next].
    rewrite lookup_insert_eq. cbn.
    split; [by rewrite Hsched|]. split; [by rewrite Hprep|].
    unfold mirrored in Hm. by rewrite Hs, Hh in Hm.
Defined.

(** *** "Mark Complete" *)




End app.
